(** * Skyfire / Buildship demo agent: the tool compiler, the step formatter,
      the bootstrap detector, the orchestration loop and the usage counter

    A shallow embedding of

    - [src/app/toolConverterUtils.ts] (class [OpenAPIToTools], the second,
      current version of the file: the constructor takes [toolNames]),
    - [src/app/actions.tsx] ([getAgent], [runAgent], [prepareAllTools],
      [formatOutput], [checkAndUpdateAgentContextIfConnectionIsInitiated]),
    - [src/lib/redis.ts] ([checkRedisConnection], [checkDailyRunLimit],
      [incrementDailyRunCounter]).

    Conventions.
    - A JavaScript string is a Rocq [string]; a character is one code unit
      in the range 0..255 (Latin-1).  [toLowerCase], [\s] and [trim] are
      modelled exactly on that range.
    - A JavaScript object used as an ordered record of own properties is an
      association list ([JsObject]) with assignment in place; a dictionary
      whose order is never observed is a [gmap].  An assignment with a
      computed key ([o[k] = v]) stores nothing under [__proto__], and
      [k in o] also holds for the names of [Object.prototype].
    - A number of the usage counter is an integer that is a double, [NaN]
      or infinite ([Redis.toDouble]).
    - [undefined] / a missing field is [None].
    - Exceptions are values of [Result]; [await] is sequencing. *)

From Stdlib Require Import Ascii String ZArith Lia DecimalString DecimalPos DecimalZ.
From stdpp Require Import base list strings gmap.

Set Warnings "-register-all,-clear-no-such-hyp".
Local Open Scope nat_scope.

(* ===================================================================== *)
(** ** JavaScript strings *)
(* ===================================================================== *)

Module Js.

Definition code (c : ascii) : nat := Ascii.nat_of_ascii c.

Definition inRange (lo hi : nat) (c : ascii) : bool :=
  Nat.leb lo (code c) && Nat.leb (code c) hi.

(** [[a-z]], [[0-9]], [[A-Z]]. *)
Definition isLower (c : ascii) : bool := inRange 97 122 c.
Definition isDigit (c : ascii) : bool := inRange 48 57 c.
Definition isUpper (c : ascii) : bool := inRange 65 90 c.

(** The class [[a-z0-9]] and the class [[a-z0-9_]]. *)
Definition isAlnumLower (c : ascii) : bool := isLower c || isDigit c.
Definition isNameChar (c : ascii) : bool :=
  isAlnumLower c || Ascii.eqb c "_".

(** [\s] on code units below 256: TAB, LF, VT, FF, CR, SPACE, NBSP. *)
Definition isSpace (c : ascii) : bool :=
  inRange 9 13 c || Nat.eqb (code c) 32 || Nat.eqb (code c) 160.

(** [String.prototype.toLowerCase] on one code unit: A-Z, and the Latin-1
    capitals U+00C0..U+00DE except the multiplication sign U+00D7. *)
Definition toLowerChar (c : ascii) : ascii :=
  if isUpper c || (inRange 192 222 c && negb (Nat.eqb (code c) 215))
  then Ascii.ascii_of_nat (code c + 32)
  else c.

Fixpoint smap (f : ascii -> ascii) (s : string) : string :=
  match s with
  | EmptyString => EmptyString
  | String c s' => String (f c) (smap f s')
  end.

Fixpoint sfilter (p : ascii -> bool) (s : string) : string :=
  match s with
  | EmptyString => EmptyString
  | String c s' => if p c then String c (sfilter p s') else sfilter p s'
  end.

Fixpoint sall (p : ascii -> bool) (s : string) : bool :=
  match s with
  | EmptyString => true
  | String c s' => p c && sall p s'
  end.

Definition toLowerCase (s : string) : string := smap toLowerChar s.

(** [s.substring(0, n)]. *)
Fixpoint substring0 (n : nat) (s : string) : string :=
  match n, s with
  | S n', String c s' => String c (substring0 n' s')
  | _, _ => EmptyString
  end.

(** [s.replace(/[c]/g, r)] for a character class [p] and a one-character
    replacement [r]. *)
Definition replaceClass (p : ascii -> bool) (r : ascii) (s : string) : string :=
  smap (fun c => if p c then r else c) s.

(** [s.replace(/[c]/g, '')]. *)
Definition removeClass (p : ascii -> bool) (s : string) : string :=
  sfilter (fun c => negb (p c)) s.

(** [s.split(/p+/)]: the pieces between maximal runs of [p]-characters.
    [inrun] says that the previous character belonged to a run. *)
Fixpoint splitRuns (p : ascii -> bool) (inrun : bool) (s : string) : list string :=
  match s with
  | EmptyString => [EmptyString]
  | String c s' =>
      if p c then
        if inrun then splitRuns p true s'
        else EmptyString :: splitRuns p true s'
      else
        match splitRuns p false s' with
        | t :: ts => String c t :: ts
        | [] => [String c EmptyString]
        end
  end.

(** [s.split(c)] for a one-character separator. *)
Fixpoint splitChar (sep : ascii) (s : string) : list string :=
  match s with
  | EmptyString => [EmptyString]
  | String c s' =>
      if Ascii.eqb c sep then EmptyString :: splitChar sep s'
      else
        match splitChar sep s' with
        | t :: ts => String c t :: ts
        | [] => [String c EmptyString]
        end
  end.

(** [pieces.join(sep)]. *)
Fixpoint join (sep : string) (pieces : list string) : string :=
  match pieces with
  | [] => EmptyString
  | [t] => t
  | t :: ts => t +:+ sep +:+ join sep ts
  end.

Fixpoint dropWhile (p : ascii -> bool) (s : string) : string :=
  match s with
  | EmptyString => EmptyString
  | String c s' => if p c then dropWhile p s' else s
  end.

Fixpoint dropWhileEnd (p : ascii -> bool) (s : string) : string :=
  match s with
  | EmptyString => EmptyString
  | String c s' =>
      match dropWhileEnd p s' with
      | EmptyString => if p c then EmptyString else String c EmptyString
      | r => String c r
      end
  end.

(** [s.trim()], and [s.replace(/^_+|_+$/g, '')] as [strip (= "_")]. *)
Definition strip (p : ascii -> bool) (s : string) : string :=
  dropWhileEnd p (dropWhile p s).
Definition trim (s : string) : string := strip isSpace s.

(** [s.replace(/p+/g, r)]: every maximal run of [p]-characters becomes one
    [r]. *)
Fixpoint replaceRuns (p : ascii -> bool) (r : ascii) (inrun : bool) (s : string) : string :=
  match s with
  | EmptyString => EmptyString
  | String c s' =>
      if p c then
        if inrun then replaceRuns p r true s'
        else String r (replaceRuns p r true s')
      else String c (replaceRuns p r false s')
  end.

(** [s.includes(sub)] and [s.endsWith(suffix)]. *)
Fixpoint includes (sub s : string) : bool :=
  String.prefix sub s ||
  match s with
  | EmptyString => false
  | String _ s' => includes sub s'
  end.

Fixpoint endsWith (suffix s : string) : bool :=
  String.eqb s suffix ||
  match s with
  | EmptyString => false
  | String _ s' => endsWith suffix s'
  end.

(** The text a replacement string stands for ([GetSubstitution]) when the
    pattern is a string, so that there are no groups: [$$] is a dollar
    sign, [$&] the matched text, [$`] the text before the match and [$']
    the text after it; a dollar sign followed by anything else stands for
    itself. *)
Fixpoint expandReplacement (matched before after r : string) : string :=
  match r with
  | EmptyString => EmptyString
  | String c rest =>
      if Ascii.eqb c "$" then
        match rest with
        | String d rest' =>
            if Ascii.eqb d "$" then String "$" (expandReplacement matched before after rest')
            else if Ascii.eqb d "&" then matched +:+ expandReplacement matched before after rest'
            else if Ascii.eqb d "`" then before +:+ expandReplacement matched before after rest'
            else if Ascii.eqb d "'" then after +:+ expandReplacement matched before after rest'
            else String "$" (expandReplacement matched before after rest)
        | EmptyString => "$"
        end
      else String c (expandReplacement matched before after rest)
  end.

(** [s.replace(pat, r)] with a string pattern: the first occurrence only,
    replaced by the expansion of [r].  [before] is the text already
    passed. *)
Fixpoint replaceFrom (pat r before s : string) : string :=
  if String.prefix pat s
  then
    let after := String.substring (String.length pat) (String.length s - String.length pat) s in
    before +:+ expandReplacement pat before after r +:+ after
  else match s with
       | EmptyString => before
       | String c s' => replaceFrom pat r (before +:+ String c EmptyString) s'
       end.

Definition replace (pat r s : string) : string := replaceFrom pat r "" s.

(** Truthiness of a possibly missing string: [undefined] and [""] are
    falsy.  [truthyStr o] is the string when it is truthy. *)
Definition truthyStr (o : option string) : option string :=
  match o with
  | Some EmptyString => None
  | Some s => Some s
  | None => None
  end.

(** [a || b] on strings. *)
Definition orElse (o : option string) (d : string) : string :=
  match truthyStr o with Some s => s | None => d end.

(** The decimal rendering of a non-negative integer (template literals and
    [String(n)]). *)
Definition showNat (n : nat) : string :=
  NilEmpty.string_of_uint (Nat.to_uint n).

End Js.

(* ===================================================================== *)
(** ** Objects with ordered own properties *)
(* ===================================================================== *)

Module Obj.

(** Own properties in insertion order.  (JavaScript lists integer-like
    keys first; no property proved below depends on the order.) *)
Definition JsObject (V : Type) : Type := list (string * V).

Fixpoint get {V} (k : string) (o : JsObject V) : option V :=
  match o with
  | [] => None
  | (k', v) :: o' => if String.eqb k' k then Some v else get k o'
  end.

(** The own property [k] of [o] is defined as [v]: overwritten in place, or
    appended.  This is what spread, [JSON.parse] and an object literal do for
    every key, and what the assignment [o[k] = v] does for every key but
    [__proto__] (see [assign]). *)
Fixpoint set {V} (k : string) (v : V) (o : JsObject V) : JsObject V :=
  match o with
  | [] => [(k, v)]
  | (k', v') :: o' =>
      if String.eqb k' k then (k', v) :: o' else (k', v') :: set k v o'
  end.

(** [Object.keys(o)], and whether [k] is an own property of [o]. *)
Definition keys {V} (o : JsObject V) : list string := map fst o.
Definition has {V} (k : string) (o : JsObject V) : bool :=
  match get k o with Some _ => true | None => false end.

(** The assignment [o[k] = v] with a computed key, on an object that was
    created by a literal.  The key [__proto__] reaches the accessor of
    [Object.prototype] instead of an own property: none is created.  (With
    an object as value the accessor replaces the prototype of [o]; this is
    not represented, since the objects built by such assignments are only
    read through [Object.keys], [Object.entries], spread and
    [JSON.stringify], which see own properties only.) *)
Definition protoKey : string := "__proto__".

Definition assign {V} (k : string) (v : V) (o : JsObject V) : JsObject V :=
  if String.eqb k protoKey then o else set k v o.

(** The property names of [Object.prototype], which every object created by
    a literal or by [JSON.parse] inherits. *)
Definition inherited : list string :=
  [ "constructor"; "__defineGetter__"; "__defineSetter__"; "hasOwnProperty";
    "__lookupGetter__"; "__lookupSetter__"; "isPrototypeOf"; "propertyIsEnumerable";
    "toString"; "valueOf"; "__proto__"; "toLocaleString" ].

Definition isInherited (k : string) : bool := existsb (String.eqb k) inherited.

(** [k in o]: an own property, or one of the prototype. *)
Definition hasIn {V} (k : string) (o : JsObject V) : bool := has k o || isInherited k.

(** [{ ...a, ...b }]. *)
Definition spread {V} (a b : JsObject V) : JsObject V :=
  fold_left (fun acc kv => set (fst kv) (snd kv) acc) b a.

End Obj.

(* ===================================================================== *)
(** ** The API description ([OpenAPIV3_1.Document]) *)
(* ===================================================================== *)

Module OpenAPI.

(** The five verbs the compiler iterates over, in the order of the source
    array [['get', 'post', 'put', 'delete', 'patch']]. *)
Inductive Method := GET | POST | PUT | DELETE | PATCH.

Definition methodName (m : Method) : string :=
  match m with
  | GET => "get" | POST => "post" | PUT => "put"
  | DELETE => "delete" | PATCH => "patch"
  end.

(** [method.toUpperCase()]; it is only ever applied to a verb. *)
Definition methodUpper (m : Method) : string :=
  match m with
  | GET => "GET" | POST => "POST" | PUT => "PUT"
  | DELETE => "DELETE" | PATCH => "PATCH"
  end.

Definition methods : list Method := [GET; POST; PUT; DELETE; PATCH].

(** A schema position holds a [ReferenceObject] (a [$ref] key is present)
    or a [SchemaObject]. *)
Inductive OrRef (A : Type) : Type :=
  | Ref (target : string)
  | Inline (a : A).
Arguments Ref {A} target.
Arguments Inline {A} a.

(** The fields of a schema that the compiler reads from a parameter schema
    or from a top-level body property; values of [default], [minimum],
    [maximum] and [enum] are kept as their JSON text. *)
Record SchemaObject := {
  s_type : option string;
  s_title : option string;
  s_description : option string;
  s_format : option string;
  s_default : option string;
  s_minimum : option string;
  s_maximum : option string;
  s_enum : option string
}.

(** The empty object [{}] that stands in for a [$ref]. *)
Definition emptySchema : SchemaObject :=
  {| s_type := None; s_title := None; s_description := None;
     s_format := None; s_default := None; s_minimum := None;
     s_maximum := None; s_enum := None |}.

Definition derefSchema (s : OrRef SchemaObject) : SchemaObject :=
  match s with Ref _ => emptySchema | Inline a => a end.

Inductive ParamIn := InPath | InQuery | InHeader | InCookie.

Record ParameterObject := {
  p_name : string;
  p_in : ParamIn;
  p_required : bool;
  p_description : option string;
  p_schema : option (OrRef SchemaObject)
}.

(** The schema of an [application/json] request body. *)
Record BodySchema := {
  b_type : option string;
  b_properties : option (Obj.JsObject (OrRef SchemaObject));
  b_required : option (list string)
}.

Record MediaTypeObject := { mt_schema : option (OrRef BodySchema) }.

Record RequestBodyObject := {
  rb_content : option (Obj.JsObject MediaTypeObject)
}.

Record OperationObject := {
  op_summary : option string;
  op_description : option string;
  op_operationId : option string;
  op_parameters : option (list ParameterObject);
  op_requestBody : option RequestBodyObject;
  op_security : option (list (Obj.JsObject (list string)))
}.

Record PathItemObject := {
  pi_get : option OperationObject;
  pi_post : option OperationObject;
  pi_put : option OperationObject;
  pi_delete : option OperationObject;
  pi_patch : option OperationObject;
  pi_parameters : option (list ParameterObject)
}.

(** [pathItem[method]]. *)
Definition operationAt (pi : PathItemObject) (m : Method) : option OperationObject :=
  match m with
  | GET => pi_get pi | POST => pi_post pi | PUT => pi_put pi
  | DELETE => pi_delete pi | PATCH => pi_patch pi
  end.

Record SecurityScheme := {
  ss_type : string;
  ss_scheme : option string;
  ss_in : option string;
  ss_name : option string
}.

(** [paths] maps a path to its item; an entry may be [null]. *)
Record Document := {
  doc_servers : option (list string);
  doc_paths : option (Obj.JsObject (option PathItemObject));
  doc_security : option (list (Obj.JsObject (list string)));
  doc_securitySchemes : option (Obj.JsObject SecurityScheme)
}.

End OpenAPI.

(* ===================================================================== *)
(** ** The service-description compiler ([class OpenAPIToTools]) *)
(* ===================================================================== *)

Module Compiler.
Import OpenAPI.

(** One property of the generated parameter schema: [type], [description]
    and the optional attributes in the order they were assigned. *)
Record PropertySchema := {
  ps_type : string;
  ps_description : string;
  ps_attrs : Obj.JsObject string
}.

(** The argument of [jsonSchema({...})]: [type] is always ['object'] and
    [additionalProperties] is always [false]. *)
Record JsonSchema := {
  js_properties : Obj.JsObject PropertySchema;
  js_required : list string
}.

(** The state of an [OpenAPIToTools] instance. *)
Record Converter := {
  spec : Document;
  baseUrl : string;
  apiKey : string;
  securitySchemes : Obj.JsObject SecurityScheme;
  toolNames : gmap string string
}.

Definition getBaseUrl (d : Document) : string :=
  match doc_servers d with
  | Some (url :: _) => url
  | _ => ""
  end.

(** [schemes[key] = scheme] for every entry.  For the key [__proto__] the
    assignment makes the scheme the prototype of [schemes], and the read
    [this.securitySchemes['__proto__']] of [getSecurityHeaders] returns that
    prototype: for the reads made of it, the table behaves as if the scheme
    were stored under the key, which is how it is kept here. *)
Definition extractSecuritySchemes (d : Document) : Obj.JsObject SecurityScheme :=
  match doc_securitySchemes d with
  | Some schemes =>
      fold_left (fun acc kv => Obj.set (fst kv) (snd kv) acc) schemes []
  | None => []
  end.

(** [new OpenAPIToTools(spec, apiKey, toolNames)]. *)
Definition new (d : Document) (key : string) (names : option (gmap string string)) : Converter :=
  {| spec := d;
     baseUrl := getBaseUrl d;
     apiKey := key;
     securitySchemes := extractSecuritySchemes d;
     toolNames := default ∅ names |}.

(** The key [`${method}_${path}`]. *)
Definition toolKey (m : Method) (path : string) : string :=
  methodName m +:+ "_" +:+ path.

Definition token : string := "skyfire_kya_pay_token".

(** *** [convertParameterToJsonSchema] *)

Definition setIf (k : string) (v : option string) (o : Obj.JsObject string) : Obj.JsObject string :=
  match v with Some x => Obj.set k x o | None => o end.

Definition convertParameterToJsonSchema (p : ParameterObject) : PropertySchema :=
  let schemaObj : option SchemaObject := derefSchema <$> p_schema p in
  let field (f : SchemaObject -> option string) := schemaObj ≫= f in
  {| ps_type := Js.orElse (field s_type) "string";
     ps_description := Js.orElse (p_description p) ("Parameter " +:+ p_name p);
     ps_attrs :=
       setIf "enum" (field s_enum)
         (setIf "maximum" (field s_maximum)
            (setIf "minimum" (field s_minimum)
               (setIf "default" (field s_default)
                  (setIf "format" (Js.truthyStr (field s_format)) [])))) |}.

(** *** [generateToolName] *)

(** The three cleaning steps applied to a summary. *)
Definition cleanSummary (summary : string) : string :=
  let s1 := Js.toLowerCase summary in
  let s2 := Js.trim (Js.join " " (Js.splitRuns Js.isSpace false s1)) in
  let s3 := Js.replaceRuns Js.isSpace "_" false s2 in
  Js.removeClass (fun c => negb (Js.isNameChar c)) s3.

Definition isSpaceOrHyphen (c : ascii) : bool := Js.isSpace c || Ascii.eqb c "-".
Definition isBrace (c : ascii) : bool := Ascii.eqb c "{" || Ascii.eqb c "}".
Definition isChar (x c : ascii) : bool := Ascii.eqb c x.
Definition nonEmpty (s : string) : bool := negb (String.eqb s "").

Definition generateToolName (this : Converter) (path : string) (m : Method)
    (operation : OperationObject) : string :=
  match Js.truthyStr (toolNames this !! toolKey m path) with
  | Some name => name
  | None =>
      match Js.truthyStr (op_summary operation) with
      | Some summary =>
          let clean := cleanSummary summary in
          if negb (Js.includes "_" clean)
          then Js.substring0 60 (Js.toLowerCase (methodName m) +:+ "_" +:+ clean)
          else Js.substring0 60 clean
      | None =>
          match Js.truthyStr (op_operationId operation) with
          | Some operationId =>
              let cleanId := Js.toLowerCase (Js.replaceClass isSpaceOrHyphen "_" operationId) in
              let finalId := Js.removeClass (fun c => negb (Js.isNameChar c)) cleanId in
              Js.substring0 60 (Js.toLowerCase (methodName m) +:+ "_" +:+ finalId)
          | None =>
              let pathPart :=
                Js.strip (isChar "_")
                  (Js.replaceClass (isChar "-") "_"
                     (Js.replaceClass (isChar "/") "_"
                        (Js.removeClass isBrace path))) in
              let toolName := Js.toLowerCase (methodName m) +:+ "_" +:+ pathPart in
              let toolName := Js.join "_" (List.filter nonEmpty (Js.splitChar "_" toolName)) in
              Js.substring0 60 toolName
          end
      end
  end.

(** *** [convertParametersToJsonSchema] *)

(** The schema of one flattened body property.  The optional attributes are
    copied when the key is present ([attr in propObj]). *)
Definition bodyProperty (propName : string) (propSchema : OrRef SchemaObject) : PropertySchema :=
  let propObj := derefSchema propSchema in
  {| ps_type := Js.orElse (s_type propObj) "string";
     ps_description :=
       match Js.truthyStr (s_title propObj) with
       | Some t => t
       | None => Js.orElse (s_description propObj) ("Property " +:+ propName)
       end;
     ps_attrs :=
       setIf "enum" (s_enum propObj)
         (setIf "maximum" (s_maximum propObj)
            (setIf "minimum" (s_minimum propObj)
               (setIf "default" (s_default propObj)
                  (setIf "format" (s_format propObj) [])))) |}.

(** [arr.includes(x)] on an array of strings. *)
Definition includesStr (x : string) (arr : list string) : bool :=
  existsb (String.eqb x) arr.

(** The two locals [properties] and [required] of the function. *)
Record SchemaLocals := {
  properties : Obj.JsObject PropertySchema;
  required : list string
}.

Definition addParameter (st : SchemaLocals) (param : ParameterObject) : SchemaLocals :=
  {| properties :=
       Obj.assign (p_name param) (convertParameterToJsonSchema param) (properties st);
     required :=
       if p_required param || match p_in param with InPath => true | _ => false end
       then required st ++ [p_name param]
       else required st |}.

Definition addBodyProperty (schemaRequired : list string) (st : SchemaLocals)
    (entry : string * OrRef SchemaObject) : SchemaLocals :=
  let '(propName, propSchema) := entry in
  {| properties := Obj.assign propName (bodyProperty propName propSchema) (properties st);
     required :=
       if includesStr propName schemaRequired
       then required st ++ [propName]
       else required st |}.

(** The special case for the malformed [required: ["string"]]. *)
Definition addMissingRequired (st : SchemaLocals) (propName : string) : SchemaLocals :=
  {| properties := properties st;
     required :=
       if negb (includesStr propName (required st))
       then required st ++ [propName]
       else required st |}.

Definition emptyBodySchema : BodySchema :=
  {| b_type := None; b_properties := None; b_required := None |}.

(** The [schemaObj] the body branch works on, when the guards
    [requestBody], [schemaObj] and [schemaObj.type === 'object'] pass. *)
Definition bodySchemaObject (requestBody : option RequestBodyObject) : option BodySchema :=
  rb ← requestBody;
  let content := default [] (rb_content rb) in
  let jsonContent := default {| mt_schema := None |} (Obj.get "application/json" content) in
  schema ← mt_schema jsonContent;
  let schemaObj := match schema with Ref _ => emptyBodySchema | Inline b => b end in
  if bool_decide (b_type schemaObj = Some "object") then Some schemaObj else None.

Definition addRequestBody (st : SchemaLocals) (requestBody : option RequestBodyObject) : SchemaLocals :=
  match bodySchemaObject requestBody with
  | Some schemaObj =>
      let schemaProperties := default [] (b_properties schemaObj) in
      let schemaRequired := default [] (b_required schemaObj) in
      let st := fold_left (addBodyProperty schemaRequired) schemaProperties st in
      if bool_decide (schemaRequired = ["string"])
      then fold_left addMissingRequired (Obj.keys schemaProperties) st
      else st
  | None => st
  end.

(** The locals just before the final [required] list is chosen. *)
Definition schemaLocals (parameters : list ParameterObject)
    (requestBody : option RequestBodyObject) : SchemaLocals :=
  let st :=
    {| properties :=
         Obj.set token
           {| ps_type := "string";
              ps_description := "Skyfire KYA+PAY token for authentication";
              ps_attrs := [] |} [];
       required := [] |} in
  let st := fold_left addParameter parameters st in
  addRequestBody st requestBody.

(** The function.  ([validRequired] is computed for a log message only and
    is left out.) *)
Definition convertParametersToJsonSchema (parameters : list ParameterObject)
    (requestBody : option RequestBodyObject) : JsonSchema :=
  let st := schemaLocals parameters requestBody in
  let finalRequired := Obj.keys (properties st) in
  {| js_properties := properties st;
     js_required := finalRequired |}.

(** *** [convertRequestBodyToJsonSchema] *)



(** *** [generateTools] *)

(** What the closure returned by [createExecuteFunction] captures. *)
Record ExecuteClosure := {
  ex_this : Converter;
  ex_path : string;
  ex_method : Method;
  ex_parameters : list ParameterObject;
  ex_operation : OperationObject
}.

Record ToolDefinition := {
  description : string;
  parameters : JsonSchema;
  execute : ExecuteClosure
}.

Definition Tools : Type := Obj.JsObject ToolDefinition.

Definition compileOperation (this : Converter) (path : string) (pathItem : PathItemObject)
    (tools : Tools) (m : Method) : Tools :=
  match operationAt pathItem m with
  | None => tools
  | Some operation =>
      let toolName := generateToolName this path m operation in
      let parameters :=
        default [] (pi_parameters pathItem) ++ default [] (op_parameters operation) in
      let requestBody := op_requestBody operation in
      let description :=
        match Js.truthyStr (op_summary operation) with
        | Some s => s
        | None => Js.orElse (op_description operation) (methodUpper m +:+ " " +:+ path)
        end +:+ " Requires skyfire_kya_pay_token parameter for authentication." in
      let toolSchema := convertParametersToJsonSchema parameters requestBody in
      Obj.assign toolName
        {| description := description;
           parameters := toolSchema;
           execute :=
             {| ex_this := this; ex_path := path; ex_method := m;
                ex_parameters := parameters; ex_operation := operation |} |}
        tools
  end.

Definition generateTools (this : Converter) : Tools :=
  fold_left
    (fun tools entry =>
       match snd entry with
       | None => tools
       | Some pathItem => fold_left (compileOperation this (fst entry) pathItem) methods tools
       end)
    (default [] (doc_paths (spec this))) [].

(** [createOpenApiTools(spec, apiKey, toolNames)]. *)
Definition createOpenApiTools (d : Document) (key : string)
    (names : option (gmap string string)) : Tools :=
  generateTools (new d key names).

(** The name overrides that [prepareAllTools] (actions.tsx) extracts from
    the fetched description before it builds the converter: for every
    operation that has a [summary] key,
    [String(summary).toLowerCase().replace(/[^a-z0-9]/g, "_")].  The
    summary is a [string], that is a sequence of code units below U+0100;
    on these [toLowerCase] maps unit by unit and never yields a unit of
    [[a-z]] from one outside [[A-Za-z]].  (A character beyond that range
    can: the lower case of U+0130 is [i] followed by U+0307.  Such
    summaries are not values of this type.) *)
Definition summaryOverride (summary : string) : string :=
  Js.replaceClass (fun c => negb (Js.isAlnumLower c)) "_" (Js.toLowerCase summary).

Definition extractToolNames (d : Document) : gmap string string :=
  fold_left
    (fun names entry =>
       match snd entry with
       | None => names
       | Some pathItem =>
           fold_left
             (fun names m =>
                match operationAt pathItem m ≫= op_summary with
                | Some summary => <[toolKey m (fst entry) := summaryOverride summary]> names
                | None => names
                end)
             methods names
       end)
    (default [] (doc_paths d)) ∅.

End Compiler.

(* ===================================================================== *)
(** ** Exceptions and JSON values *)
(* ===================================================================== *)

Module Eff.

(** A thrown value: an [Error] with its message, or anything else
    ([error instanceof Error] is false). *)
Inductive Thrown :=
  | ErrorObj (message : string)
  | NonError.

Inductive Result (A : Type) : Type :=
  | Ok (a : A)
  | Throw (e : Thrown).
Arguments Ok {A} a.
Arguments Throw {A} e.

Definition bind {A B} (r : Result A) (k : A -> Result B) : Result B :=
  match r with
  | Ok a => k a
  | Throw e => Throw e
  end.

(** [try { body } catch (error) { handler }]. *)
Definition tryCatch {A} (body : Result A) (handler : Thrown -> Result A) : Result A :=
  match body with
  | Ok a => Ok a
  | Throw e => handler e
  end.

Definition isOk {A} (r : Result A) : bool :=
  match r with Ok _ => true | Throw _ => false end.

#[global] Instance result_ret : MRet Result := @Ok.
#[global] Instance result_bind : MBind Result := fun A B k r => bind r k.

(** Code that also changes a state [S]: the state is threaded through, and
    what was written before a [throw] stays written. *)
Definition M (S A : Type) : Type := S -> Result A * S.

#[global] Instance M_ret S : MRet (M S) := fun A a s => (Ok a, s).
#[global] Instance M_bind S : MBind (M S) := fun A B k m s =>
  match m s with
  | (Ok a, s') => k a s'
  | (Throw e, s') => (Throw e, s')
  end.

(** Read the current state. *)
Definition ask {S} : M S S := fun s => (Ok s, s).

(** [try { body } catch (error) { handler }] for stateful code. *)
Definition mtry {S A} (body : M S A) (handler : Thrown -> M S A) : M S A :=
  fun s =>
    match body s with
    | (Ok a, s') => (Ok a, s')
    | (Throw e, s') => handler e s'
    end.

(** [error instanceof Error ? error.message : fallback]. *)
Definition messageOr (fallback : string) (e : Thrown) : string :=
  match e with
  | ErrorObj message => message
  | NonError => fallback
  end.

End Eff.

Module Json.
Export Eff.

(** A value produced by [JSON.parse].  A number is represented by its
    canonical rendering ([Number.prototype.toString]); [-0] renders as
    ["0"]. *)
Inductive JValue :=
  | JNull
  | JBool (b : bool)
  | JNum (repr : string)
  | JStr (s : string)
  | JArr (items : list JValue)
  | JObj (props : list (string * JValue)).

(** The [TypeError] of [ToPrimitive] when neither [toString] nor [valueOf]
    gives a primitive. *)
Definition notPrimitive : Thrown := ErrorObj "Cannot convert object to primitive value".

(** [String(v)] and [`${v}`] for a value that came out of [JSON.parse].
    An object is rendered by [Object.prototype.toString], unless it has an
    own property [toString]: no value of JSON is callable, so that one is
    passed over, [valueOf], own or inherited, gives no primitive either,
    and the conversion throws.  An array is rendered by
    [Array.prototype.join], which renders [null] as the empty string and
    converts the other items in turn. *)
Fixpoint toString (v : JValue) : Result string :=
  match v with
  | JNull => Ok "null"
  | JBool true => Ok "true"
  | JBool false => Ok "false"
  | JNum r => Ok r
  | JStr s => Ok s
  | JArr items =>
      pieces ←
        (fix each (l : list JValue) : Result (list string) :=
           match l with
           | [] => Ok []
           | x :: l' =>
               piece ← match x with JNull => Ok "" | _ => toString x end;
               rest ← each l';
               Ok (piece :: rest)
           end) items;
      Ok (Js.join "," pieces)
  | JObj props =>
      if Obj.has "toString" props then Throw notPrimitive else Ok "[object Object]"
  end.

(** [ToBoolean]. *)
Definition truthy (v : JValue) : bool :=
  match v with
  | JNull => false
  | JBool b => b
  | JNum r => negb (String.eqb r "0") && negb (String.eqb r "NaN")
  | JStr s => negb (String.eqb s "")
  | JArr _ | JObj _ => true
  end.

(** [v.k] for a value [v] that came out of [JSON.parse]: reading a
    property of [null] throws a [TypeError]; primitives and arrays have no
    such own property. *)
Definition getProp (k : string) (v : JValue) : Result (option JValue) :=
  match v with
  | JNull => Throw (ErrorObj ("Cannot read properties of null (reading '" +:+ k +:+ "')"))
  | JObj props => Ok (Obj.get k props)
  | _ => Ok None
  end.

End Json.

(* ===================================================================== *)
(** ** The tool executor ([createExecuteFunction]) *)
(* ===================================================================== *)

Module Executor.
Import OpenAPI Compiler.
Export Json.

Record ContentItem := { ci_type : string; ci_text : string }.

(** [{ content: [...] }], the value an executor resolves to. *)
Record ToolOutcome := { content : list ContentItem }.

Definition textOutcome (text : string) : ToolOutcome :=
  {| content := [ {| ci_type := "text"; ci_text := text |} ] |}.

Record Request := {
  rq_url : string;
  rq_method : string;
  rq_headers : Obj.JsObject string;
  rq_body : option string
}.

(** What the executor reads from the [Response] of [fetch]. *)
Record Response := {
  status : nat;
  statusText : string;
  contentType : option string;        (* headers.get('content-type') *)
  json : Result JValue;               (* await response.json() *)
  text : Result string                (* await response.text() *)
}.

(** [response.ok]: the status is in the range 200-299. *)
Definition ok (r : Response) : bool :=
  Nat.leb 200 (status r) && Nat.leb (status r) 299.

(** The platform the executor runs on. *)
Record Platform := {
  fetch : Request -> Result Response;
  JSON_stringify : JValue -> string;             (* JSON.stringify(v) *)
  JSON_stringify2 : JValue -> string;            (* JSON.stringify(v, null, 2) *)
  URLSearchParams_toString : list (string * string) -> string;
  base64 : string -> string;                     (* Buffer.from(s).toString('base64') *)
  String_inherited : string -> string            (* String(Object.prototype[k]) *)
}.

Section WithPlatform.
Variable pf : Platform.

(** *** [getSecurityHeaders] *)

Definition applyScheme (key : string) (headers : Obj.JsObject string)
    (scheme : SecurityScheme) : Obj.JsObject string :=
  if String.eqb (ss_type scheme) "http" then
    if bool_decide (ss_scheme scheme = Some "bearer")
    then Obj.set "Authorization" ("Bearer " +:+ key) headers
    else if bool_decide (ss_scheme scheme = Some "basic")
    then Obj.set "Authorization" ("Basic " +:+ base64 pf key) headers
    else headers
  else if String.eqb (ss_type scheme) "apiKey" then
    if bool_decide (ss_in scheme = Some "header")
    then Obj.assign (default "undefined" (ss_name scheme)) key headers
    else headers
  else if String.eqb (ss_type scheme) "oauth2" then
    Obj.set "Authorization" ("Bearer " +:+ key) headers
  else headers.

Definition getSecurityHeaders (this : Converter) (operation : OperationObject)
    : Obj.JsObject string :=
  let headers := [("Content-Type", "application/json")] in
  if String.eqb (apiKey this) "" then headers
  else
    let securityRequirements :=
      match op_security operation with
      | Some reqs => reqs
      | None => default [] (doc_security (spec this))
      end in
    fold_left
      (fun headers requirement =>
         fold_left
           (fun headers entry =>
              match Obj.get (fst entry) (securitySchemes this) with
              | Some scheme => applyScheme (apiKey this) headers scheme
              | None => headers
              end)
           requirement headers)
      securityRequirements headers.

(** *** The request *)

(** The locals [url], [queryParams] and [headers] while the declared
    parameters are processed. *)
Record Building := {
  bl_url : string;
  bl_query : list (string * string);
  bl_headers : Obj.JsObject string
}.

(** [String(args[name])] when [name in args], for an argument record that
    came out of [JSON.parse]: the property is its own, or one of
    [Object.prototype], whose rendering is the platform's. *)
Definition argumentText (args : Obj.JsObject JValue) (name : string)
    : option (Result string) :=
  if Obj.hasIn name args then
    Some match Obj.get name args with
         | Some v => toString v
         | None => Ok (String_inherited pf name)
         end
  else None.

(** One round of [parameters.forEach].  The argument is converted to a
    string first, for the log line, whatever the kind of the parameter. *)
Definition applyParameter (args : Obj.JsObject JValue) (b : Building)
    (param : ParameterObject) : Result Building :=
  match argumentText args (p_name param) with
  | None => Ok b
  | Some converted =>
      value ← converted;
      Ok match p_in param with
         | InPath =>
             {| bl_url := Js.replace ("{" +:+ p_name param +:+ "}") value (bl_url b);
                bl_query := bl_query b; bl_headers := bl_headers b |}
         | InQuery =>
             {| bl_url := bl_url b;
                bl_query := bl_query b ++ [(p_name param, value)];
                bl_headers := bl_headers b |}
         | InHeader =>
             {| bl_url := bl_url b; bl_query := bl_query b;
                bl_headers := Obj.assign (p_name param) value (bl_headers b) |}
         | InCookie => b
         end
  end.

(** [parameters.forEach(...)]: a round that throws ends the loop. *)
Fixpoint applyParameters (args : Obj.JsObject JValue) (parameters : list ParameterObject)
    (b : Building) : Result Building :=
  match parameters with
  | [] => Ok b
  | param :: rest => b' ← applyParameter args b param; applyParameters args rest b'
  end.

Definition hasBody (m : Method) : bool :=
  includesStr (Js.toLowerCase (methodName m)) ["post"; "put"; "patch"].

(** [bodyParams]: the arguments that are neither declared parameters nor
    the pay token. *)
Definition bodyParams (parameters : list ParameterObject) (args : Obj.JsObject JValue)
    : Obj.JsObject JValue :=
  let paramNames := map p_name parameters in
  fold_left
    (fun acc entry =>
       if negb (includesStr (fst entry) paramNames) && negb (String.eqb (fst entry) token)
       then Obj.assign (fst entry) (snd entry) acc
       else acc)
    args [].

(** The url, the headers and the body that are handed to [fetch]. *)
Definition buildRequest (c : ExecuteClosure) (args : Obj.JsObject JValue) : Result Request :=
  let this := ex_this c in
  let url := baseUrl this +:+ ex_path c in
  let headers := getSecurityHeaders this (ex_operation c) in
  headers ←
    match Obj.get token args with
    | Some v =>
        if truthy v then (t ← toString v; Ok (Obj.set token t headers)) else Ok headers
    | None => Ok headers
    end;
  b ← applyParameters args (ex_parameters c)
        {| bl_url := url; bl_query := []; bl_headers := headers |};
  let qs := URLSearchParams_toString pf (bl_query b) in
  let url := if nonEmpty qs then bl_url b +:+ "?" +:+ qs else bl_url b in
  let body :=
    if hasBody (ex_method c) then
      match bodyParams (ex_parameters c) args with
      | [] => None
      | bp => Some (JSON_stringify pf (JObj bp))
      end
    else None in
  Ok {| rq_url := url; rq_method := methodUpper (ex_method c);
        rq_headers := bl_headers b; rq_body := body |}.

(** *** The response *)

(** The inner [try]/[catch] that computes [errorMessage]:
    [errorData.error || response.statusText], or the status text when
    reading the body throws.  The value is whatever the body holds; it is
    converted to a string later, by the template literal of the error. *)
Definition errorMessage (response : Response) : Result JValue :=
  tryCatch
    (errorData ← json response;
     err ← getProp "error" errorData;
     Ok (match err with
         | Some v => if truthy v then v else JStr (statusText response)
         | None => JStr (statusText response)
         end))
    (fun _ => Ok (JStr (statusText response))).

(** [contentType?.includes('application/json')]. *)
Definition isJsonResponse (response : Response) : bool :=
  match contentType response with
  | Some ct => Js.includes "application/json" ct
  | None => false
  end.

(** The body of the outer [try]. *)
Definition attempt (c : ExecuteClosure) (args : Obj.JsObject JValue) : Result ToolOutcome :=
  request ← buildRequest c args;
  response ← fetch pf request;
  if negb (ok response) then
    (errorMessage ← errorMessage response;
     message ← toString errorMessage;
     Throw (ErrorObj ("HTTP error! status: " +:+ Js.showNat (status response)
                      +:+ ", message: " +:+ message)))
  else
    (responseData ←
       (if isJsonResponse response
        then json response
        else (t ← text response; Ok (JStr t)));
     Ok (textOutcome (JSON_stringify2 pf responseData))).

(** The function returned by [createExecuteFunction(path, method,
    parameters, operation)], applied to [args]. *)
Definition run (c : ExecuteClosure) (args : Obj.JsObject JValue) : Result ToolOutcome :=
  let toolName := generateToolName (ex_this c) (ex_path c) (ex_method c) (ex_operation c) in
  tryCatch (attempt c args)
    (fun error =>
       Ok (textOutcome ("Error: " +:+ messageOr "An unknown error occurred" error))).

End WithPlatform.
End Executor.

(* ===================================================================== *)
(** ** The usage counter ([src/lib/redis.ts]) *)
(* ===================================================================== *)

Module Redis.
Export Eff.
Local Open Scope Z_scope.

Definition showZ (z : Z) : string := NilZero.string_of_int (Z.to_int z).

(** *** Numbers

    The numbers of this module are integers, [NaN] or infinite.  A number
    is an [option Z]: [None] is [NaN], [Some z] with [|z| < 2^1024] is the
    integer [z], which is then a double, and [Some (2^1024)] and
    [Some (- 2^1024)] stand for [Infinity] and [-Infinity], so that the
    order of [Z] is the order of the numbers.  ([-0] is not told from [0]:
    nothing here divides by a number or looks at its sign.) *)

(** The double nearest to the integer [z], ties to the even significand:
    the 53 leading bits of [|z|] are kept and the rest is rounded.  What is
    beyond the largest double gives infinity. *)
Definition toDouble (z : Z) : Z :=
  let a := Z.abs z in
  if a <=? 2 ^ 53 then z
  else
    let e := Z.log2 a - 52 in
    let q := a / 2 ^ e in
    let r := a mod 2 ^ e in
    let half := 2 ^ (e - 1) in
    let q := if (half <? r) || ((r =? half) && Z.odd q) then q + 1 else q in
    Z.sgn z * Z.min (q * 2 ^ e) (2 ^ 1024).

#[global] Arguments toDouble : simpl never.

(** The integer that [parseInt(s, 10)] reads: leading white space, an
    optional sign, then the longest prefix of digits; [None] when there is
    no digit. *)
Fixpoint digitsPrefix (s : string) (acc : option Z) : option Z :=
  match s with
  | String c s' =>
      if Js.isDigit c
      then digitsPrefix s' (Some (10 * default 0 acc + Z.of_nat (Js.code c - 48)))
      else acc
  | EmptyString => acc
  end.

Definition parseInteger (s : string) : option Z :=
  match Js.dropWhile Js.isSpace s with
  | String "-" s' => Z.opp <$> digitsPrefix s' None
  | String "+" s' => digitsPrefix s' None
  | s' => digitsPrefix s' None
  end.

(** [parseInt(s, 10)]: the number nearest to the integer read, [NaN] when
    there is none.  (The language lets an implementation drop the digits
    after the twentieth; Node rounds the integer as it is written.) *)
Definition parseInt10 (s : string) : option Z := toDouble <$> parseInteger s.

(** *** The store, as the Redis commands used here see it *)

Record Entry := { value : string; ttl : option Z }.

Inductive Command :=
  | PING
  | GET (key : string)
  | INCR (key : string)
  | EXPIRE (key : string) (seconds : Z).

(** The server behind the client: its keys, whether a command sent now is
    answered, the error the client rejects with when it is not, and the
    commands sent so far. *)
Record Server := {
  store : gmap string Entry;
  reachable : bool;
  failure : Thrown;
  commands : list Command
}.

Definition sent (c : Command) (s : Server) : Server :=
  {| store := store s; reachable := reachable s; failure := failure s;
     commands := commands s ++ [c] |}.

Definition withStore (m : gmap string Entry) (s : Server) : Server :=
  {| store := m; reachable := reachable s; failure := failure s;
     commands := commands s |}.

(** A stored value that INCR accepts: a canonical decimal 64-bit signed
    integer. *)
Definition storedInt (v : string) : option Z :=
  z ← Z.of_int <$> NilZero.int_of_string v;
  if String.eqb (showZ z) v && (- 2 ^ 63 <=? z) && (z <=? 2 ^ 63 - 1)
  then Some z else None.

Definition notAnInteger : Thrown :=
  ErrorObj "ERR value is not an integer or out of range".

Definition ping : M Server string := fun s =>
  let s := sent PING s in
  if reachable s then (Ok "PONG", s) else (Throw (failure s), s).

Definition get (key : string) : M Server (option string) := fun s =>
  let s := sent (GET key) s in
  if reachable s then (Ok (value <$> store s !! key), s)
  else (Throw (failure s), s).

(** INCR: a missing key counts as 0; the time to live is kept.  The store
    holds the exact integer; the client resolves with the reply as a
    number. *)
Definition incr (key : string) : M Server Z := fun s =>
  let s := sent (INCR key) s in
  if reachable s then
    match store s !! key with
    | None => (Ok 1, withStore (<[key := {| value := "1"; ttl := None |}]> (store s)) s)
    | Some e =>
        match storedInt (value e) with
        | Some n =>
            if n <? 2 ^ 63 - 1
            then (Ok (toDouble (n + 1)),
                  withStore (<[key := {| value := showZ (n + 1); ttl := ttl e |}]> (store s)) s)
            else (Throw notAnInteger, s)
        | None => (Throw notAnInteger, s)
        end
    end
  else (Throw (failure s), s).

(** EXPIRE: 1 when the key exists and the time to live was set. *)
Definition expire (key : string) (seconds : Z) : M Server Z := fun s =>
  let s := sent (EXPIRE key seconds) s in
  if reachable s then
    match store s !! key with
    | Some e =>
        (Ok 1, withStore (<[key := {| value := value e; ttl := Some seconds |}]> (store s)) s)
    | None => (Ok 0, s)
    end
  else (Throw (failure s), s).

(** *** The module *)

(** The module-level bindings: [redis] is [null] when no URL is configured
    or the client could not be built. *)
Record Client := {
  redis : option Server;
  redisConnectionError : option string
}.

(** A command on [redis], which the caller has checked is not [null]. *)
Definition onRedis {A} (op : M Server A) : M Client A := fun c =>
  match redis c with
  | Some s =>
      let '(r, s') := op s in
      (r, {| redis := Some s'; redisConnectionError := redisConnectionError c |})
  | None => (Throw (ErrorObj "Cannot read properties of null"), c)
  end.

Record ConnectionStatus := { connected : bool; cs_error : option string }.

Definition checkRedisConnection : M Client ConnectionStatus :=
  c ← ask;
  match redis c with
  | None =>
      mret {| connected := false;
              cs_error := Some (Js.orElse (redisConnectionError c) "Redis not initialized") |}
  | Some _ =>
      mtry (_ ← onRedis ping;
            mret {| connected := true; cs_error := None |})
           (fun error =>
              let errorMessage := messageOr "Unknown Redis error" error in
              mret {| connected := false; cs_error := Some errorMessage |})
  end.

Record LimitResult := {
  limitExceeded : bool;
  lr_error : option string;
  currentUsage : option Z            (* [None] is [NaN] *)
}.

(** [count >= dailyCap] on numbers: false when either side is [NaN]. *)
Definition geNum (a b : option Z) : bool :=
  match a, b with
  | Some x, Some y => y <=? x
  | _, _ => false
  end.

Definition usageKey (today : string) : string := "usage:" +:+ today.

(** [today] is the value of [getCurrentDateString()] at the call. *)
Definition checkDailyRunLimit (today : string) (dailyCap : option Z) : M Client LimitResult :=
  c ← ask;
  match redis c with
  | None =>
      mret {| limitExceeded := false;
              lr_error := Some (Js.orElse (redisConnectionError c) "Redis not available");
              currentUsage := Some 0 |}
  | Some _ =>
      mtry (currentUsage ← onRedis (get (usageKey today));
            let count :=
              match Js.truthyStr currentUsage with
              | Some v => parseInt10 v
              | None => Some 0
              end in
            if geNum count dailyCap
            then mret {| limitExceeded := true; lr_error := None; currentUsage := count |}
            else mret {| limitExceeded := false; lr_error := None; currentUsage := count |})
           (fun error =>
              let errorMessage := messageOr "Unknown Redis error" error in
              mret {| limitExceeded := false; lr_error := Some errorMessage;
                      currentUsage := Some 0 |})
  end.

Definition incrementDailyRunCounter (today : string) : M Client Z :=
  c ← ask;
  match redis c with
  | None => mret 1
  | Some _ =>
      mtry (newCount ← onRedis (incr (usageKey today));
            _ ← (if newCount =? 1
                 then (_ ← onRedis (expire (usageKey today) 86400); mret tt)
                 else mret tt);
            mret newCount)
           (fun _ => mret 1)
  end.

(** [getCurrentDailyUsage()], with [today] as above. *)
Definition getCurrentDailyUsage (today : string) : M Client (option Z) :=
  c ← ask;
  match redis c with
  | None => mret (Some 0)
  | Some _ =>
      mtry (currentUsage ← onRedis (get (usageKey today));
            mret (match Js.truthyStr currentUsage with
                  | Some v => parseInt10 v
                  | None => Some 0
                  end))
           (fun _ => mret (Some 0))
  end.

(** *** The set-up of the module *)

(** The environment variables the module reads. *)
Record RedisEnv := {
  RENDER : option string;
  NODE_ENV : option string;
  REDIS_URL_PROD : option string;
  REDIS_URL_LOCAL : option string;
  REDIS_URL : option string
}.

Definition isRender (env : RedisEnv) : bool :=
  match Js.truthyStr (RENDER env) with Some _ => true | None => false end.

Definition isProduction (env : RedisEnv) : bool :=
  bool_decide (NODE_ENV env = Some "production").

(** [a || b] where [b] may be [undefined]. *)
Definition orUndefined (a b : option string) : option string :=
  match Js.truthyStr a with Some s => Some s | None => b end.

Definition getRedisUrl (env : RedisEnv) : option string :=
  if isRender env || isProduction env
  then orUndefined (REDIS_URL_PROD env) (REDIS_URL env)
  else orUndefined (REDIS_URL_LOCAL env) (REDIS_URL env).

(** The bindings [redis] and [redisConnectionError] once the module is
    loaded; [construct] is [new Redis(url, { lazyConnect: true })], which
    may throw. *)
Definition loadModule (env : RedisEnv) (construct : string -> Result Server) : Client :=
  match Js.truthyStr (getRedisUrl env) with
  | Some redisUrl =>
      match construct redisUrl with
      | Ok server => {| redis := Some server; redisConnectionError := None |}
      | Throw error =>
          {| redis := None;
             redisConnectionError :=
               Some (messageOr "Failed to initialize Redis client" error) |}
      end
  | None => {| redis := None; redisConnectionError := Some "No Redis URL provided" |}
  end.

End Redis.

(* ===================================================================== *)
(** ** The agent ([src/app/actions.tsx]) *)
(* ===================================================================== *)

Module Agent.
Import OpenAPI Compiler.
Export Json.

(** *** Data *)

Inductive Role := RSystem | RUser | RAssistant | RTool.

(** A [CoreMessage]; the structured content of the messages the model
    produces is kept as text. *)
Record Message := { role : Role; content : option string }.

Record McpServer := { url : option string; headers : Obj.JsObject string }.

Record OpenApiSpecRef := { spec_url : option string; authHeader : option string }.

Record AgentContext := {
  available_mcp_servers : list McpServer;
  dynamically_mounted_server : list McpServer;
  openApiSpecs : list OpenApiSpecRef;
  conversation_history : list Message
}.

(** In-place updates of the context object. *)
Definition setMounted (l : list McpServer) (c : AgentContext) : AgentContext :=
  {| available_mcp_servers := available_mcp_servers c;
     dynamically_mounted_server := l;
     openApiSpecs := openApiSpecs c;
     conversation_history := conversation_history c |}.

Definition pushSpec (r : OpenApiSpecRef) (c : AgentContext) : AgentContext :=
  {| available_mcp_servers := available_mcp_servers c;
     dynamically_mounted_server := dynamically_mounted_server c;
     openApiSpecs := openApiSpecs c ++ [r];
     conversation_history := conversation_history c |}.

Definition pushHistory (ms : list Message) (c : AgentContext) : AgentContext :=
  {| available_mcp_servers := available_mcp_servers c;
     dynamically_mounted_server := dynamically_mounted_server c;
     openApiSpecs := openApiSpecs c;
     conversation_history := conversation_history c ++ ms |}.

(** [interface ToolCall] and [interface ToolResult] of the source. *)
Record ToolCall := { toolName : string; args : Obj.JsObject string }.
Record ContentItem := { ci_type : string; ci_text : string }.
Record ToolResult := { tr_content : list ContentItem }.   (* result.content *)

(** What the code reads of a [StepResult] of the SDK. *)
Record AIStep := {
  st_text : string;
  toolCalls : list ToolCall;
  toolResults : list ToolResult
}.

(** The [result] field of a formatted step: [null], [undefined] (no tool
    result at that index), a tool result, or the decoded token
    [{ args: { token }, result: { content: { header, payload } } }]. *)
Inductive StepResult :=
  | ResultNull
  | ResultUndefined
  | ResultTool (r : ToolResult)
  | ResultDecoded (tok : string) (header payload : JValue).

Record FormattedStep := {
  step : nat;
  text : string;
  tool : string;
  input : Obj.JsObject string;
  result : StepResult
}.

Record Usage := { promptTokens : nat; completionTokens : nat; totalTokens : nat }.

(** What [generateText] resolves to. *)
Record ModelOutput := {
  mo_text : string;
  mo_usage : Usage;
  mo_steps : list AIStep;
  mo_messages : list Message          (* response.messages *)
}.

(** The document [runAgent] serialises. *)
Record RunDocument := {
  answer : string;
  steps : list FormattedStep;
  usage : Usage;
  agentContext : AgentContext
}.

(** The document [getAgent] serialises: a run, or one of the two error
    documents ([error: true], [steps: []], [usage: null]). *)
Inductive AgentDocument :=
  | Completed (r : RunDocument)
  | RedisError (message : string) (agentContext : AgentContext)
  | DailyLimit (message : string) (dailyCap : option Z) (currentUsage : option Z)
               (agentContext : AgentContext).

Definition documentContext (d : AgentDocument) : AgentContext :=
  match d with
  | Completed r => agentContext r
  | RedisError _ c => c
  | DailyLimit _ _ _ c => c
  end.

Definition documentSteps (d : AgentDocument) : list FormattedStep :=
  match d with
  | Completed r => steps r
  | _ => []
  end.

Definition systemPrompt : string :=
  "
<setup>
You are connected to tools from MCP servers and hosted OpenAPI specs (jsons)
and are solving problems step by step. To use an OpenAPI spec can do and convert it to a tool, use the convertOpenApiSpecToAgentTool tool.
Make sure to inlcude the openapi.json at the end of urls
</setup>

<procedures>
Remember to use only the create-kya-pay-token tool from skyfire before using an external service tool call
</procedures>

 MCP servers have /mcp or /sse at the end, if it's a json then you would connect via the OpenAPI tool.
<terminate>
When connect-mcp-server-tool tool is executed, stop the processing immediately.
You can execute multiple convert-openapi-spec-to-agent-tool calls in sequence, but after all OpenAPI conversions are complete, stop processing.
</terminate>

Make sure to create and pass a token with proper balance before using external services. You may need to re create tokens as you call services again.

Pass in headers skyfire_kya_pay_token with value as the pay token for openapi tool calls.
".

Definition textConfig : Obj.JsObject string :=
  [ ("find-seller",
     "I will use Skyfire's mcp server resources resources/list to find the Buildship seller for the requested data & retrieve the OpenAPI server URL of the seller");
    ("create-kya-token",
     "I will use Skyfire's create-kya-token tool to create a KYA token for myself");
    ("create-payment-token",
     "I will use Skyfire's create-payment-token tool to create a PAY token for the service which is later used by receiver to claim payment");
    ("create-kya-pay-token",
     "I will use Skyfire's create-kya-pay-token tool to create a KYA+PAY token for the service which is later used by receiver to claim payment");
    ("execute_companyresearcher_tool",
     "I will use Buildship's Company Researcher tool to get structured company information.");
    ("execute_researchcompetitors_tool",
     "I will use Buildship's Research Competitors tool to generate a structured competitor analysis");
    ("export-text-to-pdf",
     "I will export the provided text content to a PDF document with customizable formatting options.");
    ("connect-mcp-server-tool", "Installing MCP server");
    ("convert-openapi-spec-to-agent-tool", "Converting OpenAPI spec to tools...") ].

(** *** The world outside *)

(** What the run does that can be seen from outside, in order. *)
Inductive Event :=
  | StartingAgentRun                                  (* the first console.log of runAgent *)
  | FetchSpec (url : option string)                   (* fetch(openApiSpecs[j].url) *)
  | ConnectServer (url : option string)               (* experimental_createMCPClient(...) *)
  | ReadResources (url : option string)               (* mcpClient.connect / listResources *)
  | InvokeModel (tools : list string).                (* generateText(...) *)

Record World := {
  redisClient : Redis.Client;
  clock : nat;
  events : list Event
}.

(** The collaborators.  Each network call is given the time of the call,
    so it may answer differently each time.  [isJWT] is the helper imported
    from [@/lib/utils] and [jwtDecode] the one of the [jwt-decode] package;
    [generateText] stands for the model together with the tool calls it
    makes. *)
Record Externals := {
  isJWT : string -> bool;
  jwtDecode : bool -> string -> Result JValue;        (* jwtDecode(token, { header }) *)
  fetchSpec : nat -> option string -> Result Document;          (* fetch + json *)
  mcpTools : nat -> McpServer -> Result (list string);          (* client + client.tools() *)
  mcpResources : nat -> McpServer -> list string;     (* the resource texts read before any failure *)
  generateText : nat -> list string -> list Message -> Result ModelOutput;
  JSON_parse : string -> Result (Obj.JsObject string);
  dateString : nat -> string;                         (* getCurrentDateString() *)
  Number_toString : Z -> string                       (* `${n}` for an integer beyond 2^53 *)
}.

Record ProcessEnv := {
  SKYFIRE_API_KEY : option string;
  SKYFIRE_MCP_URL : option string;
  TEST_MODE : option string;
  DAILY_RUN_CAP : option string
}.

(** The world after an external call: the call is recorded and time has
    passed. *)
Definition logged (ev : Event) (w : World) : World :=
  {| redisClient := redisClient w; clock := S (clock w); events := events w ++ [ev] |}.

(** An external call, answered as of the time it is made. *)
Definition call {A} (ev : Event) (f : nat -> Result A) : M World A := fun w =>
  (f (clock w), logged ev w).

Definition emit (ev : Event) : M World unit := call ev (fun _ => Ok tt).

(** A function of the usage counter, run on the module's client. *)
Definition onCounter {A} (op : M Redis.Client A) : M World A := fun w =>
  let '(r, c) := op (redisClient w) in
  (r, {| redisClient := c; clock := S (clock w); events := events w |}).

(** [for (...) { acc = await f(acc, x) }]. *)
Fixpoint forEachM {S A B} (f : B -> A -> M S B) (l : list A) (b : B) : M S B :=
  match l with
  | [] => mret b
  | x :: l' => b' ← f b x; forEachM f l' b'
  end.

Section WithExternals.
Variable ext : Externals.
Variable env : ProcessEnv.

(** *** [getDecodedJWT], [pushFormattedSteps], [getStepDescription] *)

Definition typeError {A} (what : string) : Result A :=
  Throw (ErrorObj ("Cannot read properties of undefined (reading '" +:+ what +:+ "')")).

(** The token, and the decoded header and payload when [isJWT(token)]. *)
Definition getDecodedJWT (toolResult : option ToolResult)
    : Result (string * option (JValue * JValue)) :=
  tr ← match toolResult with Some tr => Ok tr | None => typeError "result" end;
  first ← match tr_content tr with c :: _ => Ok c | [] => typeError "text" end;
  let tokenRes := ci_text first in
  let pieces := Js.splitChar " " tokenRes in
  let tok := List.last pieces "" in
  if isJWT ext tok then
    jwtHeader ← jwtDecode ext true tok;
    jwtPayload ← jwtDecode ext false tok;
    Ok (tok, Some (jwtHeader, jwtPayload))
  else Ok (tok, None).

Definition pushFormattedSteps (formattedSteps : list FormattedStep) (tok : string)
    (jwtDecoded : JValue * JValue) : list FormattedStep :=
  formattedSteps ++
  [ {| step := 1;
       text := "Decoding JWT token...";
       tool := "thinking";
       input := [];
       result := ResultDecoded tok (fst jwtDecoded) (snd jwtDecoded) |} ].

(** The lookup [textConfig[toolName]] is an own property for the tools the
    table lists and [undefined] for every other tool name that is not one
    of [Obj.inherited]; for those few names the code would take a member
    of [Object.prototype] as the text, which is not a string and is not
    represented here. *)
Definition getStepDescription (st : AIStep) (toolCall : option ToolCall) : string :=
  match toolCall with
  | Some tc =>
      let text := Js.orElse (Obj.get (toolName tc) textConfig) (st_text st) in
      if String.eqb (toolName tc) "get-pricing"
      then text +:+ default "undefined" (Obj.get "dataset_id" (args tc))
      else text
  | None => st_text st
  end.

(** *** [formatOutput] *)

Definition isTokenTool (name : string) : bool :=
  String.eqb name "create-payment-token" || String.eqb name "create-kya-token" ||
  String.eqb name "create-kya-pay-token" || String.eqb name "create-account".

(** The body of the loop over [i]. *)
Definition formatToolCall (st : AIStep) (formattedSteps : list FormattedStep) (i : nat)
    : list FormattedStep :=
  let toolCall := toolCalls st !! i in
  let toolResult := toolResults st !! i in
  let formattedSteps :=
    formattedSteps ++
    [ {| step := 1;
         text := getStepDescription st toolCall;
         tool := match toolCall with
                 | Some tc => if nonEmpty (toolName tc) then toolName tc else "thinking"
                 | None => "thinking"
                 end;
         input := match toolCall with Some tc => args tc | None => [] end;
         result := match toolResult with
                   | Some r => ResultTool r
                   | None => ResultUndefined
                   end |} ] in
  match toolCall with
  | Some tc =>
      if isTokenTool (toolName tc) then
        match getDecodedJWT toolResult with
        | Ok (tok, Some jwtDecoded) => pushFormattedSteps formattedSteps tok jwtDecoded
        | Ok (_, None) => formattedSteps
        | Throw _ => formattedSteps
        end
      else formattedSteps
  | None => formattedSteps
  end.

Definition formatStep (formattedSteps : list FormattedStep) (st : AIStep)
    : list FormattedStep :=
  if Nat.ltb 0 (length (toolCalls st)) then
    fold_left (formatToolCall st) (seq 0 (length (toolCalls st))) formattedSteps
  else
    formattedSteps ++
    [ {| step := 1;
         text := getStepDescription st None;
         tool := "thinking";
         input := [];
         result := ResultNull |} ].

(** [formatOutput(steps, formattedSteps)]: the array after the call. *)
Definition formatOutput (sts : list AIStep) (formattedSteps : list FormattedStep)
    : list FormattedStep :=
  fold_left formatStep sts formattedSteps.

(** *** [checkAndUpdateAgentContextIfConnectionIsInitiated] *)

Definition connectTool : string := "connect-mcp-server-tool".
Definition convertTool : string := "convert-openapi-spec-to-agent-tool".

(** The context and the three flags while the calls are scanned. *)
Record Detection := {
  dt_context : AgentContext;
  newToolsFound : bool;
  mcpServerConnected : bool;
  openApiSpecsAdded : bool
}.

Definition detectCall (d : Detection) (tc : ToolCall) : Detection :=
  let d :=
    if String.eqb (toolName tc) connectTool then
      let url := Obj.get "mcpServerUrl" (args tc) in
      {| dt_context := setMounted [ {| url := url; headers := [] |} ] (dt_context d);
         newToolsFound := true;
         mcpServerConnected := true;
         openApiSpecsAdded := openApiSpecsAdded d |}
    else d in
  if String.eqb (toolName tc) convertTool then
    {| dt_context :=
         pushSpec {| spec_url := Obj.get "openApiSpecUrl" (args tc); authHeader := None |}
                  (dt_context d);
       newToolsFound := true;
       mcpServerConnected := mcpServerConnected d;
       openApiSpecsAdded := true |}
  else d.

Definition detectStep (d : Detection) (st : AIStep) : Detection :=
  fold_left detectCall (toolCalls st) d.

Definition messageBoth : string :=
  "You are now connected to the tools provided by the seller MCP server and OpenAPI specs as well, run tools as per input prompt to solve problems step by step. Remember never use connect-mcp-server-tool on a json url. When connect-mcp-server-tool tool is executed, stop the processing immediately.".
Definition messageServer : string :=
  "You are now connected to the tools provided by the seller MCP server as well, run tools as per input prompt to solve problems step by step. Remember never use connect-mcp-server-tool on a json url. When connect-mcp-server-tool tool is executed, stop the processing immediately.".
Definition messageSpecs : string :=
  "You are now connected to the tools provided by the OpenAPI spec as well, run tools as per input prompt to solve problems step by step. When connect-mcp-server-tool tool is executed, stop the processing immediately.".

(** The flag that is returned, and the context after the call. *)
Definition checkAndUpdateAgentContextIfConnectionIsInitiated (sts : list AIStep)
    (agentContext : AgentContext) : bool * AgentContext :=
  let d :=
    fold_left detectStep sts
      {| dt_context := agentContext; newToolsFound := false;
         mcpServerConnected := false; openApiSpecsAdded := false |} in
  let agentContext :=
    if mcpServerConnected d || openApiSpecsAdded d then
      let systemMessage :=
        if mcpServerConnected d && openApiSpecsAdded d then messageBoth
        else if mcpServerConnected d then messageServer
        else if openApiSpecsAdded d then messageSpecs
        else "" in
      pushHistory [ {| role := RSystem; content := Some systemMessage |} ] (dt_context d)
    else dt_context d in
  (newToolsFound d, agentContext).

(** *** [prepareAllTools] *)

(** Where a registered tool comes from. *)
Inductive RegistryTool :=
  | BuiltIn
  | Compiled (t : ToolDefinition)
  | Remote (server : McpServer).

Definition Registry : Type := Obj.JsObject RegistryTool.

Definition builtInTools : Registry :=
  Obj.spread [ (connectTool, BuiltIn) ] [ (convertTool, BuiltIn) ].

(** One round of the loop over [agentContext.openApiSpecs]. *)
Definition addSpecTools (allTools : Registry) (ref : OpenApiSpecRef) : M World Registry :=
  postSpecResponse ← call (FetchSpec (spec_url ref)) (fun t => fetchSpec ext t (spec_url ref));
  let toolNames := extractToolNames postSpecResponse in
  let converter := new postSpecResponse (Js.orElse (authHeader ref) "") (Some toolNames) in
  let openApiTools := generateTools converter in
  mret (Obj.spread allTools (map (fun kv => (fst kv, Compiled (snd kv))) openApiTools)).

(** The predicate of [allServers.filter]. *)
Definition isMcpServerUrl (url : string) : bool :=
  let isJsonSpec := Js.endsWith ".json" url in
  let isMcpServer :=
    Js.endsWith "/mcp" url || Js.endsWith "/sse" url ||
    (negb isJsonSpec && negb (Js.includes ".json" url)) in
  if isJsonSpec then false else isMcpServer.

(** [allServers.filter(...)]; [url.endsWith] throws on a missing [url]. *)
Fixpoint filterServers (allServers : list McpServer) : Result (list McpServer) :=
  match allServers with
  | [] => Ok []
  | server :: rest =>
      match url server with
      | None => typeError "endsWith"
      | Some u =>
          kept ← filterServers rest;
          Ok (if isMcpServerUrl u then server :: kept else kept)
      end
  end.

(** One round of the loop over [mcpServers]: the client and its tools
    (outside any [try]), then the resources (inside [try]/[catch]). *)
Definition connectServer (st : Registry * AgentContext) (server : McpServer)
    : M World (Registry * AgentContext) :=
  let '(allTools, agentContext) := st in
  toolSet ← call (ConnectServer (url server)) (fun t => mcpTools ext t server);
  let allTools := Obj.spread allTools (map (fun name => (name, Remote server)) toolSet) in
  texts ← call (ReadResources (url server)) (fun t => Ok (mcpResources ext t server));
  let agentContext :=
    pushHistory (map (fun x => {| role := RSystem; content := Some x |}) texts) agentContext in
  mret (allTools, agentContext).

(** [validTools[toolName] = tool] for the names of at most 64 code
    units. *)
Definition validTools (allTools : Registry) : Registry :=
  fold_left
    (fun valid kv =>
       if Nat.leb (String.length (fst kv)) 64
       then Obj.assign (fst kv) (snd kv) valid
       else valid)
    allTools [].

(** The registry, and the context after the resources were appended. *)
Definition prepareAllTools (agentContext : AgentContext) : M World (Registry * AgentContext) :=
  let allServers :=
    available_mcp_servers agentContext ++ dynamically_mounted_server agentContext in
  allTools ← forEachM addSpecTools (openApiSpecs agentContext) builtInTools;
  mcpServers ← (fun w => (filterServers allServers, w));
  '(allTools, agentContext) ← forEachM connectServer mcpServers (allTools, agentContext);
  mret (validTools allTools, agentContext).

(** *** [runAgent] *)

(** [fuel] bounds the depth of the recursion; [None] is returned when it
    runs out.  The inner call's document is parsed back and its [steps]
    are taken as they are.  The context object is shared with the inner
    call, so the context serialised by the outer call is the one the inner
    call left. *)
Fixpoint runAgent (fuel : nat) (apiKey : string) (input : option string)
    (agentContext : AgentContext) (initialFormattedSteps : list FormattedStep)
    : M World (option RunDocument) :=
  match fuel with
  | O => mret None
  | S fuel' =>
      _ ← emit StartingAgentRun;
      '(allTools, agentContext) ← prepareAllTools agentContext;
      let agentContext :=
        pushHistory [ {| role := RUser; content := input |} ] agentContext in
      out ← call (InvokeModel (Obj.keys allTools))
                 (fun t => generateText ext t (Obj.keys allTools)
                             (conversation_history agentContext));
      let agentContext := pushHistory (mo_messages out) agentContext in
      let formattedSteps := formatOutput (mo_steps out) initialFormattedSteps in
      let '(newToolsFound, agentContext) :=
        checkAndUpdateAgentContextIfConnectionIsInitiated (mo_steps out) agentContext in
      if newToolsFound then
        inner ← runAgent fuel' apiKey input agentContext formattedSteps;
        match inner with
        | None => mret None
        | Some modelResponse =>
            mret (Some {| answer := mo_text out;
                          steps := steps modelResponse;
                          usage := mo_usage out;
                          agentContext := Agent.agentContext modelResponse |})
        end
      else
        mret (Some {| answer := mo_text out;
                      steps := formattedSteps;
                      usage := mo_usage out;
                      agentContext := agentContext |})
  end.

(** *** [getAgent] *)

Inductive Input :=
  | InputString (s : string)
  | InputObject (o : Obj.JsObject string).

Definition redisErrorMessage (status : Redis.ConnectionStatus) : string :=
  "Redis connection failed: " +:+ default "null" (Redis.cs_error status) +:+
  ". The agent cannot run without Redis. Please check your Redis configuration.".

(** [`${n}`] for a number as [Redis] has them.  An integer of at most 53
    bits is written in decimal; of a larger one the platform writes the
    shortest digits that read back, and an exponent from 10^21 on. *)
Definition showNumber (n : option Z) : string :=
  match n with
  | Some z =>
      if (Z.abs z <=? 2 ^ 53)%Z then Redis.showZ z
      else if (z =? 2 ^ 1024)%Z then "Infinity"
      else if (z =? - 2 ^ 1024)%Z then "-Infinity"
      else Number_toString ext z
  | None => "NaN"
  end.

Definition limitErrorMessage (dailyCap : option Z) : string :=
  "Daily run limit exceeded. Maximum " +:+ showNumber dailyCap +:+
  " runs per day allowed. Please try again tomorrow.".

Definition today : M World string := fun w => (Ok (dateString ext (clock w)), w).

(** The checks before the run: an error document, or nothing. *)
Definition preflight (agentContext : AgentContext) : M World (option AgentDocument) :=
  let TESTING := bool_decide (TEST_MODE env = Some "true") in
  if negb TESTING then
    redisStatus ← onCounter Redis.checkRedisConnection;
    if negb (Redis.connected redisStatus) then
      mret (Some (RedisError (redisErrorMessage redisStatus) agentContext))
    else
      let dailyCap := Redis.parseInt10 (Js.orElse (DAILY_RUN_CAP env) "250") in
      date ← today;
      limitResult ← onCounter (Redis.checkDailyRunLimit date dailyCap);
      if Redis.limitExceeded limitResult then
        mret (Some (DailyLimit (limitErrorMessage dailyCap) dailyCap
                               (Redis.currentUsage limitResult) agentContext))
      else
        date ← today;
        _ ← onCounter (Redis.incrementDailyRunCounter date);
        mret None
  else mret None.

(** The context every run starts from. *)
Definition freshContext (apiKey : string) : AgentContext :=
  {| available_mcp_servers :=
       [ {| url := Some (Js.orElse (SKYFIRE_MCP_URL env) "");
            headers := [ ("skyfire-api-key", apiKey) ] |} ];
     dynamically_mounted_server := [];
     openApiSpecs := [];
     conversation_history := [ {| role := RSystem; content := Some systemPrompt |} ] |}.

Definition getAgent (fuel : nat) (apiKey : string) (input : Input)
    (agentContext : AgentContext) : M World (option AgentDocument) :=
  let apiKey := if nonEmpty apiKey then apiKey else Js.orElse (SKYFIRE_API_KEY env) "" in
  failed ← preflight agentContext;
  match failed with
  | Some document => mret (Some document)
  | None =>
      let agentContext := freshContext apiKey in
      inputObject ←
        match input with
        | InputString s => (fun w => (JSON_parse ext s, w))
        | InputObject o => mret o
        end;
      r ← runAgent fuel apiKey (Obj.get "prompt" inputObject) agentContext [];
      mret (Completed <$> r)
  end.

End WithExternals.
End Agent.

(* ===================================================================== *)
(** ** The page that shows the runs ([AgentSandbox], [runWithPrompt]) *)
(* ===================================================================== *)

Module AgentSandbox.
Import Agent.
Local Open Scope Z_scope.

(** An entry of the [timeline] state: a formatted step whose [step] may be
    [-1]. *)
Record TimelineStep := {
  tl_step : Z;
  tl_text : string;
  tl_tool : string;
  tl_input : Obj.JsObject string;
  tl_result : StepResult
}.

(** The [timeline] state and the [stepOffset] ref. *)
Record Page := {
  timeline : list TimelineStep;
  stepOffset : Z
}.

Definition initialPage : Page := {| timeline := []; stepOffset := 0 |}.

(** [{ ...s, step: stepOffset.current + i + 1 }]. *)
Definition renumber (offset : Z) (i : nat) (s : FormattedStep) : TimelineStep :=
  {| tl_step := offset + Z.of_nat i + 1;
     tl_text := text s; tl_tool := tool s; tl_input := input s; tl_result := result s |}.

(** The updater passed to [setTimeline], applied once, with the
    assignment to [stepOffset.current] it makes.  [parsedSteps] is
    [parsed.steps ?? []]. *)
Definition showRun (prompt : string) (parsedSteps : list FormattedStep) (pg : Page) : Page :=
  let prevSteps := timeline pg in
  let promptStep :=
    {| tl_step := -1; tl_text := prompt; tl_tool := "prompt"; tl_input := [];
       tl_result := ResultNull |} in
  let newAgentSteps := imap (renumber (stepOffset pg)) parsedSteps in
  {| timeline := prevSteps ++ promptStep :: newAgentSteps;
     stepOffset :=
       match last newAgentSteps with
       | Some s => tl_step s
       | None => stepOffset pg
       end |}.

(** The page after the document of a run was received. *)
Definition showDocument (pg : Page) (run : string * AgentDocument) : Page :=
  showRun (fst run) (documentSteps (snd run)) pg.

End AgentSandbox.

(* ===================================================================== *)
(** * Vocabulary of the properties, and concrete inputs *)
(* ===================================================================== *)

Module ObjSpec.

(** The names an assignment [o[name] = v] stores: all but [__proto__]. *)
Definition assignable (names : list string) : list string :=
  List.filter (fun name => negb (String.eqb name Obj.protoKey)) names.

(** A sequence of own-property definitions, and a sequence of assignments
    [o[key x] = val x]. *)
Definition setAll {X V} (key : X -> string) (val : X -> V) (l : list X)
    (o : Obj.JsObject V) : Obj.JsObject V :=
  fold_left (fun acc x => Obj.set (key x) (val x) acc) l o.

Definition assignAll {X V} (key : X -> string) (val : X -> V) (l : list X)
    (o : Obj.JsObject V) : Obj.JsObject V :=
  fold_left (fun acc x => Obj.assign (key x) (val x) acc) l o.

End ObjSpec.

Module CompilerSpec.
Import OpenAPI Compiler.
Export ObjSpec.

(** The names of the flattened body properties. *)
Definition bodyPropertyNames (requestBody : option RequestBodyObject) : list string :=
  match bodySchemaObject requestBody with
  | Some schemaObj => Obj.keys (default [] (b_properties schemaObj))
  | None => []
  end.

Definition propertyNames (st : SchemaLocals) : gset string :=
  list_to_set (Obj.keys (properties st)).

(** A path parameter named [__proto__]. *)
Definition protoParameter : ParameterObject :=
  {| p_name := "__proto__"; p_in := InPath; p_required := true; p_description := None;
     p_schema := None |}.

(** The name is derived from the summary or from the operation id. *)
Definition fromSummaryOrId (operation : OperationObject) : bool :=
  match Js.truthyStr (op_summary operation), Js.truthyStr (op_operationId operation) with
  | None, None => false
  | _, _ => true
  end.

(** A description with one GET operation at [/widget]. *)
Definition widgetOperation : OperationObject :=
  {| op_summary := Some "Get Widget"; op_description := None; op_operationId := None;
     op_parameters := None; op_requestBody := None; op_security := None |}.

Definition singleGet (path : string) (operation : OperationObject) : Document :=
  {| doc_servers := None;
     doc_paths :=
       Some [ (path,
               Some {| pi_get := Some operation; pi_post := None; pi_put := None;
                       pi_delete := None; pi_patch := None; pi_parameters := None |}) ];
     doc_security := None;
     doc_securitySchemes := None |}.

(** A summary of 77 characters. *)
Definition longSummary : string :=
  "Retrieve the complete list of invoices issued to a customer account this year".

Definition longOperation : OperationObject :=
  {| op_summary := Some longSummary; op_description := None; op_operationId := None;
     op_parameters := None; op_requestBody := None; op_security := None |}.

Definition longDocument : Document := singleGet "/invoices" longOperation.

(** What C7 looks at in a compiled tool set: each name with the property
    names and the required list of its schema. *)
Definition signatures (tools : Tools) : list (string * list string * list string) :=
  map (fun kv => (fst kv,
                  Obj.keys (js_properties (parameters (snd kv))),
                  js_required (parameters (snd kv)))) tools.

End CompilerSpec.

Module ExecutorSpec.
Import OpenAPI Compiler Executor.

(** What a failed response reports, in the words of the specification:
    the [error] member of the body when the body parses as a JSON object
    that has a truthy one, else the status text. *)
Definition reportedError (response : Response) : JValue :=
  match json response with
  | Ok (JObj props) =>
      match Obj.get "error" props with
      | Some v => if truthy v then v else JStr (statusText response)
      | None => JStr (statusText response)
      end
  | _ => JStr (statusText response)
  end.

(** [message] is taken from [body]: it is the rendering of the body or of
    one of its members. *)
Definition takenFrom (body : JValue) (message : string) : Prop :=
  toString body = Ok message \/
  match body with
  | JObj props => exists k v, Obj.get k props = Some v /\ toString v = Ok message
  | _ => False
  end.

(** The text of a result that did not throw. *)
Definition rendered (r : Result string) : option string :=
  match r with
  | Ok t => Some t
  | Throw _ => None
  end.

Definition quote : string := String (Ascii.ascii_of_nat 34) EmptyString.

(** A plain JSON writer for the example platform (no escapes, no
    indentation). *)
Fixpoint plainJson (v : JValue) : string :=
  match v with
  | JNull => "null"
  | JBool true => "true"
  | JBool false => "false"
  | JNum r => r
  | JStr s => quote +:+ s +:+ quote
  | JArr items => "[" +:+ Js.join "," (map plainJson items) +:+ "]"
  | JObj props =>
      "{" +:+
      Js.join ","
        ((fix members (l : list (string * JValue)) : list string :=
            match l with
            | [] => []
            | (k, x) :: l' => (quote +:+ k +:+ quote +:+ ":" +:+ plainJson x) :: members l'
            end) props)
      +:+ "}"
  end.

(** A platform whose [fetch] always answers with [response]. *)
Definition answering (response : Result Response) : Platform :=
  {| fetch := fun _ => response;
     JSON_stringify := plainJson;
     JSON_stringify2 := plainJson;
     URLSearchParams_toString :=
       fun l => Js.join "&" (map (fun e => fst e +:+ "=" +:+ snd e) l);
     base64 := fun s => s;
     String_inherited := fun k => "function " +:+ k +:+ "() { [native code] }" |}.

Definition widgetClosure : ExecuteClosure :=
  {| ex_this := new (CompilerSpec.singleGet "/widget" CompilerSpec.widgetOperation) "" None;
     ex_path := "/widget"; ex_method := GET; ex_parameters := [];
     ex_operation := CompilerSpec.widgetOperation |}.

Definition notFound (body : Result JValue) : Response :=
  {| status := 404; statusText := "Not Found"; contentType := Some "application/json";
     json := body; text := Throw NonError |}.

(** The single text item of an outcome. *)
Definition oneText (t : string) : ToolOutcome :=
  {| content := [ {| ci_type := "text"; ci_text := t |} ] |}.

End ExecutorSpec.

Module RedisSpec.
Import Redis.

Definition emptyServer : Server :=
  {| store := ∅; reachable := true; failure := ErrorObj "Connection is closed.";
     commands := [] |}.

End RedisSpec.

Module FormatterSpec.
Import Agent.

(** [a < b] for every two neighbours. *)
Fixpoint strictlyIncreasing (l : list nat) : bool :=
  match l with
  | a :: (b :: _) as rest => Nat.ltb a b && strictlyIncreasing rest
  | _ => true
  end.

Section WithExternals.
Variable ext : Externals.

(** The call at index [i] is followed by a decoded-token step. *)
Definition decodes (st : AIStep) (i : nat) : bool :=
  match toolCalls st !! i with
  | Some tc =>
      isTokenTool (toolName tc) &&
      match getDecodedJWT ext (toolResults st !! i) with
      | Ok (_, Some _) => true
      | _ => false
      end
  | None => false
  end.

(** The number of formatted steps one model step gives rise to. *)
Definition emitted (st : AIStep) : nat :=
  if Nat.ltb 0 (length (toolCalls st))
  then length (toolCalls st) +
       length (List.filter (decodes st) (seq 0 (length (toolCalls st))))
  else 1.

End WithExternals.

End FormatterSpec.

Module DetectorSpec.
Import Agent.

(** The tool calls of a round, step by step, in order. *)
Definition calls (sts : list AIStep) : list ToolCall := concat (map toolCalls sts).

Definition isMount (tc : ToolCall) : bool := String.eqb (toolName tc) connectTool.
Definition isConvert (tc : ToolCall) : bool := String.eqb (toolName tc) convertTool.
Definition isBootstrap (tc : ToolCall) : bool := isMount tc || isConvert tc.

Definition bootstrapCalls (sts : list AIStep) : list ToolCall :=
  List.filter isBootstrap (calls sts).

Definition mountOf (tc : ToolCall) : McpServer :=
  {| url := Obj.get "mcpServerUrl" (args tc); headers := [] |}.
Definition specOf (tc : ToolCall) : OpenApiSpecRef :=
  {| spec_url := Obj.get "openApiSpecUrl" (args tc); authHeader := None |}.

(** The servers named by the server-mount calls and the references named
    by the description calls, in call order. *)
Definition mounts (cs : list ToolCall) : list McpServer := map mountOf (List.filter isMount cs).
Definition specRefs (cs : list ToolCall) : list OpenApiSpecRef :=
  map specOf (List.filter isConvert cs).

(** The server of the last server-mount call of the round. *)
Definition lastMount (sts : list AIStep) : option McpServer := last (mounts (calls sts)).

(** The one message the detector appends. *)
Definition announcement (cs : list ToolCall) : string :=
  if existsb isMount cs && existsb isConvert cs then messageBoth
  else if existsb isMount cs then messageServer
  else messageSpecs.

Definition mountCall (u : string) : ToolCall :=
  {| toolName := connectTool; args := [ ("mcpServerUrl", u); ("sellerName", "seller") ] |}.

Definition emptyContext : AgentContext :=
  {| available_mcp_servers := []; dynamically_mounted_server := [];
     openApiSpecs := []; conversation_history := [] |}.

(** A context a caller may pass back: one mounted server and a history. *)
Definition twoMountsContext : AgentContext :=
  {| available_mcp_servers := [];
     dynamically_mounted_server := [ {| url := Some "https://b.example/mcp"; headers := [] |} ];
     openApiSpecs := [];
     conversation_history := [ {| role := RUser; content := Some "find a seller" |} ] |}.

(** One model step with two server-mount calls. *)
Definition twoMounts : list AIStep :=
  [ {| st_text := "";
       toolCalls := [ mountCall "https://a.example/mcp"; mountCall "https://b.example/mcp" ];
       toolResults :=
         [ {| tr_content := [ {| ci_type := "text";
                                 ci_text := "Connecting to Seller MCP server...." |} ] |};
           {| tr_content := [ {| ci_type := "text";
                                 ci_text := "Connecting to Seller MCP server...." |} ] |} ] |} ].

End DetectorSpec.

Module RunSpec.
Import Agent DetectorSpec FormatterSpec.

(** The events of a registry build. *)
Definition registryEvent (e : Event) : Prop :=
  match e with
  | FetchSpec _ | ConnectServer _ | ReadResources _ => True
  | StartingAgentRun | InvokeModel _ => False
  end.

(** The number of rounds started in a trace. *)
Definition rounds (evs : list Event) : nat :=
  length (List.filter (fun e => match e with StartingAgentRun => true | _ => false end) evs).

Section WithExternals.
Variable ext : Externals.

(** The stub model never asks for a bootstrap tool. *)
Definition noBootstrap : Prop :=
  forall t tools msgs out,
    generateText ext t tools msgs = Ok out -> bootstrapCalls (mo_steps out) = [].

(** The first round of [runAgent] up to and including the detector: the
    output of the model and the context the detector leaves. *)
Definition firstRound (input : option string) (agentContext : AgentContext)
    : M World (ModelOutput * AgentContext) :=
  _ ← emit StartingAgentRun;
  '(allTools, agentContext) ← prepareAllTools ext agentContext;
  let agentContext :=
    pushHistory [ {| role := RUser; content := input |} ] agentContext in
  out ← call (InvokeModel (Obj.keys allTools))
             (fun t => generateText ext t (Obj.keys allTools)
                         (conversation_history agentContext));
  let agentContext := pushHistory (mo_messages out) agentContext in
  mret (out,
        snd (checkAndUpdateAgentContextIfConnectionIsInitiated (mo_steps out) agentContext)).

(** What the outer call of [runAgent] returns, given the model output of
    its round and what the inner call returned. *)
Definition outer (out : ModelOutput) (inner : Result (option RunDocument) * World)
    : Result (option RunDocument) * World :=
  match inner with
  | (Ok (Some modelResponse), w) =>
      (Ok (Some {| answer := mo_text out; steps := steps modelResponse;
                   usage := mo_usage out;
                   agentContext := agentContext modelResponse |}), w)
  | (Ok None, w) => (Ok None, w)
  | (Throw e, w) => (Throw e, w)
  end.

End WithExternals.

Definition noUsage : Usage := {| promptTokens := 0; completionTokens := 0; totalTokens := 0 |}.

(** Collaborators for a scripted model: every server connects and offers
    no tool and no resource, no description can be fetched, no token
    decodes. *)
Definition scripted (model : nat -> list string -> list Message -> Result ModelOutput)
    : Externals :=
  {| isJWT := fun _ => false;
     jwtDecode := fun _ _ => Throw (ErrorObj "Invalid token specified");
     fetchSpec := fun _ _ => Throw (ErrorObj "fetch failed");
     mcpTools := fun _ _ => Ok [];
     mcpResources := fun _ _ => [];
     generateText := model;
     JSON_parse := fun _ => Ok [];
     dateString := fun _ => "2025-06-01";
     Number_toString := Redis.showZ |}.

Definition skyfire : string := "https://mcp.skyfire.xyz/mcp".

Definition startContext : AgentContext :=
  {| available_mcp_servers :=
       [ {| url := Some skyfire; headers := [ ("skyfire-api-key", "key") ] |} ];
     dynamically_mounted_server := [];
     openApiSpecs := [];
     conversation_history := [ {| role := RSystem; content := Some systemPrompt |} ] |}.

Definition startWorld : World :=
  {| redisClient := {| Redis.redis := None;
                       Redis.redisConnectionError := Some "No Redis URL provided" |};
     clock := 0;
     events := [] |}.

Definition plainCall (name : string) : ToolCall := {| toolName := name; args := [] |}.
Definition plainResult (t : string) : ToolResult :=
  {| tr_content := [ {| ci_type := "text"; ci_text := t |} ] |}.

(** A model output of one step that holds two ordinary tool calls. *)
Definition twoCalls : ModelOutput :=
  {| mo_text := "done";
     mo_usage := noUsage;
     mo_steps := [ {| st_text := "working";
                      toolCalls := [ plainCall "find-seller"; plainCall "get-pricing" ];
                      toolResults := [ plainResult "Buildship"; plainResult "0.01 USD" ] |} ];
     mo_messages := [] |}.

Definition twoCallStub (_ : nat) (_ : list string) (_ : list Message) : Result ModelOutput :=
  Ok twoCalls.

(** A first round that mounts a protocol server. *)
Definition sellerMcp : string := "https://seller.example/mcp".

Definition mountStep (u : string) : AIStep :=
  {| st_text := "";
     toolCalls := [ mountCall u ];
     toolResults := [ plainResult "Connecting to Seller MCP server...." ] |}.

(** The URL of a JSON document, and a model that mounts a URL in its first
    round and has nothing more to ask for afterwards. *)
Definition sellerJson : string := "https://seller.example/openapi.json".

Definition mountOutput (u : string) : ModelOutput :=
  {| mo_text := ""; mo_usage := noUsage; mo_steps := [ mountStep u ]; mo_messages := [] |}.

Definition mountThenStop (u : string) (_ : nat) (_ : list string) (msgs : list Message)
    : Result ModelOutput :=
  if Nat.leb (length msgs) 2 then Ok (mountOutput u)
  else
    Ok {| mo_text := "done"; mo_usage := noUsage;
          mo_steps := [ {| st_text := "done"; toolCalls := []; toolResults := [] |} ];
          mo_messages := [] |}.

End RunSpec.

Module InvocationSpec.
Import Agent.

(** The daily cap [getAgent] uses. *)
Definition dailyCap (env : ProcessEnv) : option Z :=
  Redis.parseInt10 (Js.orElse (DAILY_RUN_CAP env) "250").

(** The usage-counter store cannot be reached: there is no client, or the
    server does not answer. *)
Definition counterUnreachable (c : Redis.Client) : bool :=
  match Redis.redis c with
  | None => true
  | Some s => negb (Redis.reachable s)
  end.

(** The count stored for [date], as [checkDailyRunLimit] reads it. *)
Definition usageOn (date : string) (s : Redis.Server) : option Z :=
  match Js.truthyStr (Redis.value <$> Redis.store s !! Redis.usageKey date) with
  | Some v => Redis.parseInt10 v
  | None => Some 0%Z
  end.

(** The store answers and the count for [date] has reached the cap. *)
Definition limitReached (date : string) (cap : option Z) (c : Redis.Client) : bool :=
  match Redis.redis c with
  | None => false
  | Some s => Redis.reachable s && Redis.geNum (usageOn date s) cap
  end.

Definition isErrorDocument (d : AgentDocument) : bool :=
  match d with
  | Completed _ => false
  | RedisError _ _ | DailyLimit _ _ _ _ => true
  end.

Definition production : ProcessEnv :=
  {| SKYFIRE_API_KEY := None; SKYFIRE_MCP_URL := Some RunSpec.skyfire;
     TEST_MODE := None; DAILY_RUN_CAP := None |}.

(** A store that answers and holds 250 runs for the day. *)
Definition exhausted : World :=
  {| redisClient :=
       {| Redis.redis :=
            Some {| Redis.store :=
                      {[ Redis.usageKey "2025-06-01" :=
                           {| Redis.value := "250"; Redis.ttl := Some 86400%Z |} ]};
                    Redis.reachable := true;
                    Redis.failure := ErrorObj "Connection is closed.";
                    Redis.commands := [] |};
          Redis.redisConnectionError := None |};
     clock := 0;
     events := [] |}.

End InvocationSpec.

(** ** Further vocabulary: the compiler *)

Module CompilerMoreSpec.
Import OpenAPI Compiler.

(** An operation of a description, with the place it is declared at. *)
Record Located := {
  lo_path : string;
  lo_item : PathItemObject;
  lo_method : Method;
  lo_operation : OperationObject
}.

(** The operations of one path item, in the order of [methods]. *)
Definition operationsOfItem (path : string) (pathItem : PathItemObject) : list Located :=
  omap (fun m =>
          (fun operation =>
             {| lo_path := path; lo_item := pathItem; lo_method := m;
                lo_operation := operation |}) <$> operationAt pathItem m)
       methods.

(** The operations of a description, in the order [generateTools] visits
    them. *)
Definition operations (d : Document) : list Located :=
  flat_map (fun entry =>
              match snd entry with
              | Some pathItem => operationsOfItem (fst entry) pathItem
              | None => []
              end)
           (default [] (doc_paths d)).

Definition nameOf (this : Converter) (o : Located) : string :=
  generateToolName this (lo_path o) (lo_method o) (lo_operation o).

Definition namedBy (this : Converter) (name : string) (o : Located) : bool :=
  String.eqb (nameOf this o) name.

Definition parametersOf (o : Located) : list ParameterObject :=
  default [] (pi_parameters (lo_item o)) ++ default [] (op_parameters (lo_operation o)).

(** The tool [generateTools] builds for one operation. *)
Definition compiledTool (this : Converter) (o : Located) : ToolDefinition :=
  {| description :=
       match Js.truthyStr (op_summary (lo_operation o)) with
       | Some s => s
       | None => Js.orElse (op_description (lo_operation o))
                   (methodUpper (lo_method o) +:+ " " +:+ lo_path o)
       end +:+ " Requires skyfire_kya_pay_token parameter for authentication.";
     parameters :=
       convertParametersToJsonSchema (parametersOf o) (op_requestBody (lo_operation o));
     execute :=
       {| ex_this := this; ex_path := lo_path o; ex_method := lo_method o;
          ex_parameters := parametersOf o; ex_operation := lo_operation o |} |}.


(** The converter [prepareAllTools] builds for a fetched description: the
    overrides are extracted from the description itself. *)
Definition specConverter (d : Document) (key : string) : Converter :=
  new d key (Some (extractToolNames d)).


(** The schema of the injected token property. *)
Definition tokenSchema : PropertySchema :=
  {| ps_type := "string";
     ps_description := "Skyfire KYA+PAY token for authentication";
     ps_attrs := [] |}.

(** The entries of the flattened body, in order. *)
Definition bodyEntries (requestBody : option RequestBodyObject)
    : list (string * OrRef SchemaObject) :=
  match bodySchemaObject requestBody with
  | Some schemaObj => default [] (b_properties schemaObj)
  | None => []
  end.

End CompilerMoreSpec.

(** ** Further vocabulary: the usage counter *)

Module RedisMoreSpec.
Import Redis.
Local Open Scope Z_scope.

(** The number a sequence of decimal digits stands for, after the digits
    read so far. *)
Fixpoint digitsValue (d : Decimal.uint) (acc : Z) : Z :=
  match d with
  | Decimal.Nil => acc
  | Decimal.D0 l => digitsValue l (10 * acc + 0)
  | Decimal.D1 l => digitsValue l (10 * acc + 1)
  | Decimal.D2 l => digitsValue l (10 * acc + 2)
  | Decimal.D3 l => digitsValue l (10 * acc + 3)
  | Decimal.D4 l => digitsValue l (10 * acc + 4)
  | Decimal.D5 l => digitsValue l (10 * acc + 5)
  | Decimal.D6 l => digitsValue l (10 * acc + 6)
  | Decimal.D7 l => digitsValue l (10 * acc + 7)
  | Decimal.D8 l => digitsValue l (10 * acc + 8)
  | Decimal.D9 l => digitsValue l (10 * acc + 9)
  end.

(** [k] calls of [incrementDailyRunCounter] on the same date, with the
    counts they return. *)
Fixpoint increments (k : nat) (today : string) : M Client (list Z) :=
  match k with
  | O => mret []
  | S k' =>
      n ← incrementDailyRunCounter today;
      ns ← increments k' today;
      mret (n :: ns)
  end.

(** A client whose server answers. *)
Definition client (st : gmap string Entry) (fl : Thrown) (cmds : list Command)
    (cerr : option string) : Client :=
  {| redis := Some {| store := st; reachable := true; failure := fl; commands := cmds |};
     redisConnectionError := cerr |}.

End RedisMoreSpec.

(** ** Further vocabulary: the registry and the loop *)

Module RunMoreSpec.
Import Agent DetectorSpec RunSpec.

Definition systemMessage (x : string) : Message := {| role := RSystem; content := Some x |}.

(** [after] is [before] with system messages appended to the history and
    nothing else changed. *)
Definition resourcesAdded (before after : AgentContext) : Prop :=
  available_mcp_servers after = available_mcp_servers before /\
  dynamically_mounted_server after = dynamically_mounted_server before /\
  openApiSpecs after = openApiSpecs before /\
  exists texts,
    conversation_history after = conversation_history before ++ map systemMessage texts.

(** The registry [b] has every name of [a], and no name twice if [a] has
    none twice. *)
Definition toolsGrow (a b : Registry) : Prop :=
  (NoDup (Obj.keys a) -> NoDup (Obj.keys b)) /\
  (forall k, k ∈ Obj.keys a -> k ∈ Obj.keys b).

(** What happened between two states of the world. *)
Definition newEvents (w w' : World) : list Event := drop (length (events w)) (events w').

(** All servers of a context, as [prepareAllTools] lists them. *)
Definition allServers (agentContext : AgentContext) : list McpServer :=
  available_mcp_servers agentContext ++ dynamically_mounted_server agentContext.

(** A model that asks for a bootstrap tool in every round in which it
    answers. *)
Definition alwaysBootstraps (ext : Externals) : Prop :=
  forall t tools msgs out,
    generateText ext t tools msgs = Ok out ->
    existsb isBootstrap (calls (mo_steps out)) = true.

Definition alwaysMounts (_ : nat) (_ : list string) (_ : list Message) : Result ModelOutput :=
  Ok (mountOutput sellerMcp).

(** Collaborators whose [JSON.parse] rejects every text. *)
Definition rejecting : Externals :=
  {| isJWT := fun _ => false;
     jwtDecode := fun _ _ => Throw (ErrorObj "Invalid token specified");
     fetchSpec := fun _ _ => Throw (ErrorObj "fetch failed");
     mcpTools := fun _ _ => Ok [];
     mcpResources := fun _ _ => [];
     generateText := twoCallStub;
     JSON_parse := fun _ => Throw (ErrorObj "Unexpected token h in JSON at position 0");
     dateString := fun _ => "2025-06-01";
     Number_toString := Redis.showZ |}.

(** A world whose store answers and is empty. *)
Definition freshWorld : World :=
  {| redisClient := {| Redis.redis := Some RedisSpec.emptyServer;
                       Redis.redisConnectionError := None |};
     clock := 0; events := [] |}.

(** A server-mount call without the [mcpServerUrl] argument. *)
Definition mountWithoutUrl : list AIStep :=
  [ {| st_text := "";
       toolCalls := [ {| toolName := connectTool; args := [ ("sellerName", "seller") ] |} ];
       toolResults := [ plainResult "Connecting to Seller MCP server...." ] |} ].

End RunMoreSpec.

(** ** Further vocabulary: the formatter *)

Module FormatterMoreSpec.
Import Agent.

(** The entry was pushed by [pushFormattedSteps]. *)
Definition isDecodeEntry (fs : FormattedStep) : bool :=
  match result fs with
  | ResultDecoded _ _ _ => true
  | _ => false
  end.

Definition callEntries (l : list FormattedStep) : list FormattedStep :=
  List.filter (fun fs => negb (isDecodeEntry fs)) l.

(** The name an entry shows for a call. *)
Definition shownName (tc : ToolCall) : string :=
  if Compiler.nonEmpty (toolName tc) then toolName tc else "thinking".

(** The names one model step shows. *)
Definition shownTools (st : AIStep) : list string :=
  match toolCalls st with
  | [] => [ "thinking" ]
  | cs => map shownName cs
  end.

Definition noSpace (t : string) : bool :=
  Js.sall (fun c => negb (Ascii.eqb c " ")) t.

(** A tool result whose first content item has the given text. *)
Definition textResult (ty text : string) (rest : list ContentItem) : ToolResult :=
  {| tr_content := {| ci_type := ty; ci_text := text |} :: rest |}.

End FormatterMoreSpec.

(** ** Further vocabulary: the executor *)

Module ExecutorMoreSpec.
Import OpenAPI Compiler Executor.

(** [k] is the name of a declared parameter. *)
Definition declared (parameters : list ParameterObject) (k : string) : bool :=
  includesStr k (map p_name parameters).

(** [p] is a header parameter named [h]. *)
Definition headerParam (h : string) (p : ParameterObject) : bool :=
  match p_in p with
  | InHeader => String.eqb (p_name p) h
  | _ => false
  end.

(** [h] is the name of a declared header parameter, and a name under which
    an assignment stores a header. *)
Definition headerSlot (parameters : list ParameterObject) (h : string) : bool :=
  existsb (headerParam h) parameters && negb (String.eqb h Obj.protoKey).

(** An operation [POST /orders/{id}] with a path, a query and a header
    parameter. *)
Definition orderParameters : list ParameterObject :=
  [ {| p_name := "id"; p_in := InPath; p_required := true; p_description := None;
       p_schema := None |};
    {| p_name := "verbose"; p_in := InQuery; p_required := false; p_description := None;
       p_schema := None |};
    {| p_name := "X-Trace"; p_in := InHeader; p_required := false; p_description := None;
       p_schema := None |} ].

Definition orderOperation : OperationObject :=
  {| op_summary := Some "Create order"; op_description := None; op_operationId := None;
     op_parameters := Some orderParameters; op_requestBody := None; op_security := None |}.

Definition orderClosure : ExecuteClosure :=
  {| ex_this := new (CompilerSpec.singleGet "/orders/{id}" orderOperation) "" None;
     ex_path := "/orders/{id}"; ex_method := POST; ex_parameters := orderParameters;
     ex_operation := orderOperation |}.

(** A description that asks for a bearer token and for the key in the
    header [X-Api-Key]. *)
Definition securedDocument : Document :=
  {| doc_servers := Some [ "https://api.example" ];
     doc_paths := None;
     doc_security := Some [ [ ("bearerAuth", []) ]; [ ("keyAuth", []) ] ];
     doc_securitySchemes :=
       Some [ ("bearerAuth", {| ss_type := "http"; ss_scheme := Some "bearer";
                                ss_in := None; ss_name := None |});
              ("keyAuth", {| ss_type := "apiKey"; ss_scheme := None;
                             ss_in := Some "header"; ss_name := Some "X-Api-Key" |}) ] |}.

Definition orderArgs : Obj.JsObject JValue :=
  [ ("id", JNum "7"); ("skyfire_kya_pay_token", JStr "tok"); ("item", JStr "book");
    ("X-Trace", JStr "abc") ].

(** The request for [orderArgs]. *)
Definition orderRequest : Request :=
  {| rq_url := "/orders/7"; rq_method := "POST";
     rq_headers := [ ("Content-Type", "application/json"); ("skyfire_kya_pay_token", "tok");
                     ("X-Trace", "abc") ];
     rq_body := Some (ExecutorSpec.plainJson (JObj [ ("item", JStr "book") ])) |}.

(** An operation [GET /files/{name}] that also declares the header
    parameter [constructor]. *)
Definition fileParameters : list ParameterObject :=
  [ {| p_name := "name"; p_in := InPath; p_required := true; p_description := None;
       p_schema := None |};
    {| p_name := "constructor"; p_in := InHeader; p_required := false;
       p_description := None; p_schema := None |} ].

Definition fileOperation : OperationObject :=
  {| op_summary := Some "Read file"; op_description := None; op_operationId := None;
     op_parameters := Some fileParameters; op_requestBody := None; op_security := None |}.

Definition fileClosure : ExecuteClosure :=
  {| ex_this := new (CompilerSpec.singleGet "/files/{name}" fileOperation) "" None;
     ex_path := "/files/{name}"; ex_method := GET; ex_parameters := fileParameters;
     ex_operation := fileOperation |}.

End ExecutorMoreSpec.

(** ** Further vocabulary: the page *)

Module AgentSandboxSpec.
Import Agent AgentSandbox.

(** The numbers shown for the agent steps, in order (a prompt entry has
    the step [-1]). *)
Definition shownNumbers (pg : Page) : list Z :=
  List.filter (fun z => (0 <=? z)%Z) (map tl_step (timeline pg)).

Definition promptEntries (pg : Page) : list string :=
  map tl_text (List.filter (fun s => (tl_step s =? -1)%Z) (timeline pg)).

(** The number of steps in the documents of the runs. *)
Definition totalSteps (runs : list (string * AgentDocument)) : nat :=
  sum_list (map (fun run => length (documentSteps (snd run))) runs).

End AgentSandboxSpec.

(* ===================================================================== *)
(** * Properties *)
(* ===================================================================== *)


(** ** Strings *)

Section StringFacts.
Import Js.

Lemma sall_app p s1 s2 :
  sall p (s1 +:+ s2) = sall p s1 && sall p s2.
Proof.
  induction s1 as [|c s1 IH]; simpl; [reflexivity|].
  rewrite IH. apply andb_assoc.
Qed.

Lemma sall_removeClass p s :
  sall p (removeClass (fun c => negb (p c)) s) = true.
Proof.
  unfold removeClass.
  induction s as [|c s IH]; simpl; [reflexivity|].
  destruct (p c) eqn:Hc; simpl; [rewrite Hc|]; exact IH.
Qed.

Lemma sall_substring0 p n s :
  sall p s = true -> sall p (substring0 n s) = true.
Proof.
  revert s. induction n as [|n IH]; intros [|c s]; simpl; try reflexivity.
  intros [Hc Hs]%andb_prop. rewrite Hc. simpl. apply IH, Hs.
Qed.

Lemma length_substring0 n s : String.length (substring0 n s) <= n.
Proof.
  revert s. induction n as [|n IH]; intros [|c s]; simpl; try lia.
  specialize (IH s). lia.
Qed.

Lemma sall_replaceClass_not p r s :
  p r = true ->
  sall p (replaceClass (fun c => negb (p c)) r s) = true.
Proof.
  intros Hr. unfold replaceClass.
  induction s as [|c s IH]; simpl; [reflexivity|].
  destruct (p c) eqn:Hc; simpl; [rewrite Hc | rewrite Hr]; exact IH.
Qed.

Lemma sall_weaken (p q : ascii -> bool) s :
  (forall c, p c = true -> q c = true) -> sall p s = true -> sall q s = true.
Proof.
  intros Hpq. induction s as [|c s IH]; simpl; [reflexivity|].
  intros [Hc Hs]%andb_prop. rewrite (Hpq _ Hc). simpl. apply IH, Hs.
Qed.

End StringFacts.

(** ** Objects *)

Section ObjectFacts.
Context {V : Type}.

Lemma keys_set_set (k : string) (v : V) (o : Obj.JsObject V) :
  list_to_set (Obj.keys (Obj.set k v o)) =@{gset string}
  {[ k ]} ∪ list_to_set (Obj.keys o).
Proof.
  unfold Obj.keys.
  induction o as [|[k' v'] o IH]; simpl.
  - reflexivity.
  - destruct (String.eqb k' k) eqn:Hk; simpl.
    + apply String.eqb_eq in Hk. subst k'. set_solver.
    + rewrite IH. set_solver.
Qed.

Lemma keys_set_fresh (k : string) (v : V) (o : Obj.JsObject V) :
  Obj.get k o = None -> Obj.set k v o = o ++ [(k, v)].
Proof.
  induction o as [|[k' v'] o IH]; simpl; [reflexivity|].
  destruct (String.eqb k' k); [discriminate|].
  intros H. rewrite (IH H). reflexivity.
Qed.

Lemma keys_assign (k : string) (v : V) (o : Obj.JsObject V) :
  list_to_set (Obj.keys (Obj.assign k v o)) =@{gset string}
  list_to_set (ObjSpec.assignable [k]) ∪ list_to_set (Obj.keys o).
Proof.
  unfold Obj.assign, ObjSpec.assignable. cbn [List.filter].
  destruct (String.eqb k Obj.protoKey); cbn [negb list_to_set].
  - set_solver.
  - rewrite keys_set_set. set_solver.
Qed.


Lemma assignable_app l1 l2 :
  ObjSpec.assignable (l1 ++ l2) = ObjSpec.assignable l1 ++ ObjSpec.assignable l2.
Proof. apply List.filter_app. Qed.

Lemma assignable_cons k l :
  list_to_set (ObjSpec.assignable (k :: l)) =@{gset string}
  list_to_set (ObjSpec.assignable [k]) ∪ list_to_set (ObjSpec.assignable l).
Proof.
  change (k :: l) with ([k] ++ l). rewrite assignable_app, list_to_set_app_L. reflexivity.
Qed.

End ObjectFacts.

(** ** The compiler *)

Module CompilerFacts.
Import OpenAPI Compiler CompilerSpec.

(** Sets of assignable names are handled as opaque sets. *)
Ltac names_solver :=
  repeat match goal with
         | |- context [@list_to_set string (gset string) _ _ _ (assignable ?l)] =>
             generalize (@list_to_set string (gset string) _ _ _ (assignable l)); intros ?
         end;
  set_solver.

Lemma propertyNames_addParameter st param :
  propertyNames (addParameter st param) =
  propertyNames st ∪ list_to_set (assignable [p_name param]).
Proof. unfold propertyNames. cbn [addParameter properties]. rewrite keys_assign. set_solver. Qed.

Lemma propertyNames_parameters ps st :
  propertyNames (fold_left addParameter ps st) =
  propertyNames st ∪ list_to_set (assignable (map p_name ps)).
Proof.
  revert st. induction ps as [|p ps IH]; intros st; cbn [fold_left map].
  - cbn. set_solver.
  - rewrite (assignable_cons (p_name p) (map p_name ps)), IH, propertyNames_addParameter.
    names_solver.
Qed.

Lemma propertyNames_addBodyProperty req st entry :
  propertyNames (addBodyProperty req st entry) =
  propertyNames st ∪ list_to_set (assignable [fst entry]).
Proof.
  destruct entry as [k v]. unfold propertyNames. cbn [addBodyProperty properties fst].
  rewrite keys_assign. set_solver.
Qed.

Lemma propertyNames_bodyProperties req entries st :
  propertyNames (fold_left (addBodyProperty req) entries st) =
  propertyNames st ∪ list_to_set (assignable (Obj.keys entries)).
Proof.
  revert st. induction entries as [|e es IH]; intros st.
  - cbn. set_solver.
  - change (Obj.keys (e :: es)) with (fst e :: Obj.keys es). cbn [fold_left].
    rewrite (assignable_cons (fst e) (Obj.keys es)), IH, propertyNames_addBodyProperty.
    names_solver.
Qed.

Lemma properties_addMissingRequired names st :
  properties (fold_left addMissingRequired names st) = properties st.
Proof.
  revert st. induction names as [|n ns IH]; intros st; simpl; [reflexivity|].
  rewrite IH. reflexivity.
Qed.

Lemma propertyNames_addRequestBody st requestBody :
  propertyNames (addRequestBody st requestBody) =
  propertyNames st ∪ list_to_set (assignable (bodyPropertyNames requestBody)).
Proof.
  unfold addRequestBody, bodyPropertyNames.
  destruct (bodySchemaObject requestBody) as [schemaObj|]; [|cbn; set_solver].
  case_bool_decide.
  - unfold propertyNames at 1. rewrite properties_addMissingRequired.
    apply propertyNames_bodyProperties.
  - apply propertyNames_bodyProperties.
Qed.

(** X27. For every compiled operation the [required] list of the parameter
    schema is the list of the schema's property names, and as a set these
    are the injected token property, every declared parameter and every
    flattened top-level body property whose name is not [__proto__].  In
    particular a body schema that declares [required: ["string"]] over the
    properties [a] and [b], with no declared parameter, yields the required
    list [skyfire_kya_pay_token, a, b], which does not contain
    ["string"]. *)
Theorem required_is_every_stored_property :
  forall (ps : list ParameterObject) (requestBody : option RequestBodyObject),
    let schema := convertParametersToJsonSchema ps requestBody in
    js_required schema = Obj.keys (js_properties schema) /\
    list_to_set (js_required schema) =@{gset string}
      {[ token ]} ∪ list_to_set (assignable (map p_name ps)) ∪
      list_to_set (assignable (bodyPropertyNames requestBody)) /\
    forall (sa sb : OrRef SchemaObject),
      let body :=
        Some {| rb_content :=
                  Some [ ("application/json",
                          {| mt_schema :=
                               Some (Inline
                                 {| b_type := Some "object";
                                    b_properties := Some [ ("a", sa); ("b", sb) ];
                                    b_required := Some [ "string" ] |}) |}) ] |} in
      js_required (convertParametersToJsonSchema [] body) = [ token; "a"; "b" ] /\
      "string" ∉ js_required (convertParametersToJsonSchema [] body).
Proof.
  intros ps requestBody schema. split; [reflexivity|]. split.
  - subst schema. unfold convertParametersToJsonSchema, schemaLocals. simpl.
    fold (propertyNames
            (addRequestBody
               (fold_left addParameter ps
                  {| properties := [(token, {| ps_type := "string";
                        ps_description := "Skyfire KYA+PAY token for authentication";
                        ps_attrs := [] |})];
                     required := [] |}) requestBody)).
    rewrite propertyNames_addRequestBody, propertyNames_parameters.
    unfold propertyNames. cbn [properties Obj.keys map fst list_to_set]. names_solver.
  - intros sa sb body.
    assert (js_required (convertParametersToJsonSchema [] body) = [token; "a"; "b"])
      as -> by reflexivity.
    split; [reflexivity|].
    intros H. repeat (apply elem_of_cons in H as [H|H]; [discriminate H|]).
    inversion H.
Qed.

(** C4 (the code at the failing input).  An operation whose only declared
    parameter is the required path parameter [__proto__]: the assignment
    [properties['__proto__'] = ...] stores nothing, so the schema has the
    token as only property and [required] is [skyfire_kya_pay_token]; the
    declared parameter is neither a property nor required, while the local
    [required] list, which is replaced, did receive its name. *)
Theorem C4_proto_parameter_is_dropped :
  let schema := convertParametersToJsonSchema [ protoParameter ] None in
  Obj.keys (js_properties schema) = [ token ] /\
  js_required schema = [ token ] /\
  (p_name protoParameter ∉ js_required schema) /\
  required (schemaLocals [ protoParameter ] None) = [ p_name protoParameter ].
Proof.
  cbn zeta. split; [reflexivity|]. split; [reflexivity|]. split; [|reflexivity].
  intros H. apply elem_of_cons in H as [H|H]; [discriminate H | inversion H].
Qed.

(** What the special case is for: the local [required] list, which is
    logged and then replaced by all property names, holds [a] and [b]
    after a malformed [required: ["string"]]. *)
Example malformed_required_local (sa sb : OrRef SchemaObject) :
  required
    (schemaLocals []
       (Some {| rb_content :=
                  Some [ ("application/json",
                          {| mt_schema :=
                               Some (Inline
                                 {| b_type := Some "object";
                                    b_properties := Some [ ("a", sa); ("b", sb) ];
                                    b_required := Some [ "string" ] |}) |}) ] |}))
  = [ "a"; "b" ].
Proof. reflexivity. Qed.

(** *** Names *)

Lemma methodName_lower_chars m :
  Js.sall Js.isNameChar (Js.toLowerCase (methodName m)) = true.
Proof. destruct m; reflexivity. Qed.

Lemma cleanSummary_chars summary : Js.sall Js.isNameChar (cleanSummary summary) = true.
Proof. unfold cleanSummary. apply sall_removeClass. Qed.

Lemma prefixed_chars m s :
  Js.sall Js.isNameChar s = true ->
  Js.sall Js.isNameChar (Js.substring0 60 (Js.toLowerCase (methodName m) +:+ "_" +:+ s)) = true.
Proof.
  intros Hs. apply sall_substring0.
  rewrite !sall_app, methodName_lower_chars. exact Hs.
Qed.

(** C5 (amended). A name taken from a non-empty entry of the override
    mapping is returned as it is.  When the mapping has no such entry for
    the operation's key, the name [generateToolName] derives has at most 60
    characters, and it consists of characters of [[a-z0-9_]] whenever it is
    derived from the operation's summary or operation id. *)
Theorem C5_derived_name_bounded :
  forall (this : Converter) (path : string) (m : Method) (operation : OperationObject),
    let name := generateToolName this path m operation in
    match Js.truthyStr (toolNames this !! toolKey m path) with
    | Some override => name = override
    | None =>
        String.length name <= 60 /\
        implb (fromSummaryOrId operation) (Js.sall Js.isNameChar name) = true
    end.
Proof.
  intros this path m operation name. subst name.
  unfold generateToolName, fromSummaryOrId.
  destruct (Js.truthyStr (toolNames this !! toolKey m path)) as [override|]; [reflexivity|].
  destruct (Js.truthyStr (op_summary operation)) as [summary|].
  - destruct (negb (Js.includes "_" (cleanSummary summary))).
    + split; [apply length_substring0|]. cbn [implb].
      apply prefixed_chars, cleanSummary_chars.
    + split; [apply length_substring0|]. cbn [implb].
      apply sall_substring0, cleanSummary_chars.
  - destruct (Js.truthyStr (op_operationId operation)) as [operationId|].
    + split; [apply length_substring0|]. cbn [implb].
      apply prefixed_chars, sall_removeClass.
    + split; [apply length_substring0|]. reflexivity.
Qed.

Example widget_name_is_derived :
  generateToolName (new (singleGet "/widget" widgetOperation) "" None)
    "/widget" GET widgetOperation = "get_widget".
Proof. reflexivity. Qed.

Lemma summaryOverride_chars summary :
  Js.sall Js.isNameChar (summaryOverride summary) = true.
Proof.
  unfold summaryOverride.
  apply (sall_weaken (fun c => Js.isAlnumLower c || Ascii.eqb c "_")); [auto|].
  set (p := fun c => Js.isAlnumLower c || Ascii.eqb c "_").
  unfold Js.replaceClass.
  induction (Js.toLowerCase summary) as [|c s IH]; simpl; [reflexivity|].
  rewrite IH, andb_true_r. unfold p.
  destruct (Js.isAlnumLower c) eqn:Hc; simpl; [rewrite Hc|]; reflexivity.
Qed.

Lemma overrides_of_item_chars (path : string) (pathItem : PathItemObject)
    (ms : list Method) (names : gmap string string) :
  map_Forall (fun _ name => Js.sall Js.isNameChar name = true) names ->
  map_Forall (fun _ name => Js.sall Js.isNameChar name = true)
    (fold_left
       (fun names m =>
          match operationAt pathItem m ≫= op_summary with
          | Some summary => <[toolKey m path := summaryOverride summary]> names
          | None => names
          end) ms names).
Proof.
  revert names. induction ms as [|m ms IH]; intros names Hnames; simpl; [exact Hnames|].
  apply IH. destruct (operationAt pathItem m ≫= op_summary) as [summary|]; [|exact Hnames].
  apply map_Forall_insert_2; [apply summaryOverride_chars | exact Hnames].
Qed.

(** The overrides that [prepareAllTools] extracts consist of characters of
    [[a-z0-9_]]; their length is the length of the summary. *)
Lemma extractToolNames_chars d :
  map_Forall (fun _ name => Js.sall Js.isNameChar name = true) (extractToolNames d).
Proof.
  unfold extractToolNames.
  generalize (default [] (doc_paths d)). intros entries.
  assert (map_Forall (fun (_ : string) name => Js.sall Js.isNameChar name = true)
            (∅ : gmap string string)) as Hinit by apply map_Forall_empty.
  revert Hinit. generalize (∅ : gmap string string).
  induction entries as [|[path item] entries IH]; intros names Hnames; [exact Hnames|].
  cbn [fold_left]. apply IH. cbn [fst snd].
  destruct item as [pathItem|]; [|exact Hnames].
  exact (overrides_of_item_chars path pathItem methods names Hnames).
Qed.

(** C5 fails as stated: compiled with the overrides that [prepareAllTools]
    extracts, the description [longDocument] yields a tool whose name has
    77 characters. *)
Lemma C5_counterexample :
  ~ (forall name,
       name ∈ Obj.keys (createOpenApiTools longDocument ""
                          (Some (extractToolNames longDocument))) ->
       String.length name <= 64 /\ Js.sall Js.isNameChar name = true).
Proof.
  intros H.
  destruct (H "retrieve_the_complete_list_of_invoices_issued_to_a_customer_account_this_year")
    as [Hlen _].
  - vm_compute. apply list_elem_of_here.
  - vm_compute in Hlen. lia.
Qed.

(** The path-derived fallback is cut to 60 characters but not cleaned. *)
Example path_fallback_keeps_characters :
  generateToolName (new (singleGet "/api/v1.0/Items/{id}" longOperation) "" None)
    "/api/v1.0/Items/{id}" GET
    {| op_summary := None; op_description := None; op_operationId := None;
       op_parameters := None; op_requestBody := None; op_security := None |}
  = "get_api_v1.0_Items_id".
Proof. reflexivity. Qed.

(** C7. A description with exactly one operation, GET [/widget] with
    summary ["Get Widget"], no parameters (absent or empty) and no request
    body, compiles to exactly one tool; its name is [get_widget] and its
    schema has exactly one property, [skyfire_kya_pay_token], which is
    required.  This holds without overrides and with the overrides that
    [prepareAllTools] extracts, whatever the other fields are. *)
Theorem C7_get_widget :
  forall (description operationId : option string)
         (opSecurity docSecurity : option (list (Obj.JsObject (list string))))
         (servers : option (list string))
         (schemes : option (Obj.JsObject SecurityScheme))
         (emptyOperationParameters emptyPathParameters : bool) (key : string),
    let operation :=
      {| op_summary := Some "Get Widget"; op_description := description;
         op_operationId := operationId;
         op_parameters := if emptyOperationParameters then Some [] else None;
         op_requestBody := None; op_security := opSecurity |} in
    let d :=
      {| doc_servers := servers;
         doc_paths :=
           Some [ ("/widget",
                   Some {| pi_get := Some operation; pi_post := None; pi_put := None;
                           pi_delete := None; pi_patch := None;
                           pi_parameters := if emptyPathParameters then Some [] else None |}) ];
         doc_security := docSecurity;
         doc_securitySchemes := schemes |} in
    signatures (createOpenApiTools d key None) = [ ("get_widget", [ token ], [ token ]) ] /\
    signatures (createOpenApiTools d key (Some (extractToolNames d)))
      = [ ("get_widget", [ token ], [ token ]) ].
Proof.
  intros. subst d operation.
  destruct emptyOperationParameters, emptyPathParameters; split; vm_compute; reflexivity.
Qed.

End CompilerFacts.

(** ** The executor *)

Module ExecutorFacts.
Import OpenAPI Compiler Executor ExecutorSpec.

Lemma errorMessage_reported response :
  errorMessage response = Ok (reportedError response).
Proof.
  unfold errorMessage, reportedError, tryCatch.
  destruct (json response) as [[| | | | |props]|e]; reflexivity.
Qed.

Lemma run_returns pf c args :
  exists t,
    run pf c args = Ok {| content := [ {| ci_type := "text"; ci_text := t |} ] |}.
Proof.
  unfold run, tryCatch. destruct (attempt pf c args) as [outcome|e] eqn:Hattempt;
    [|eexists; reflexivity].
  unfold attempt in Hattempt.
  destruct (buildRequest pf c args) as [request|]; cbn in Hattempt; [|discriminate].
  destruct (fetch pf request) as [response|]; cbn in Hattempt; [|discriminate].
  destruct (ok response); cbn in Hattempt.
  - destruct (isJsonResponse response);
      [destruct (json response) | destruct (text response)]; cbn in Hattempt;
      try discriminate; injection Hattempt as <-; eexists; reflexivity.
  - destruct (errorMessage response) as [v|]; cbn in Hattempt; [|discriminate].
    destruct (toString v); discriminate.
Qed.

(** C6. For every compiled-tool executor and every argument record the
    executor returns an outcome and never throws, and the outcome is one
    text item.  When the request was sent and the response has a status
    outside 200-299, and the value to report (the [error] member of the
    body when the body parses as a JSON object that has a truthy one, the
    status text otherwise) converts to a string [message], the text is
    ["Error: HTTP error! status: <status>, message: <message>"].  When
    [fetch] throws, or reading the body of a successful response throws,
    the text is ["Error: "] followed by the error's message. *)
Theorem C6_executor_returns_text :
  forall (pf : Platform) (c : ExecuteClosure) (args : Obj.JsObject JValue),
    (exists t,
       run pf c args = Ok {| content := [ {| ci_type := "text"; ci_text := t |} ] |}) /\
    (forall request response message,
       buildRequest pf c args = Ok request ->
       fetch pf request = Ok response ->
       ok response = false ->
       toString (reportedError response) = Ok message ->
       run pf c args =
       Ok {| content :=
               [ {| ci_type := "text";
                    ci_text := "Error: HTTP error! status: " +:+ Js.showNat (status response)
                               +:+ ", message: " +:+ message |} ] |}) /\
    (forall request e,
       buildRequest pf c args = Ok request ->
       fetch pf request = Throw e ->
       run pf c args =
       Ok {| content :=
               [ {| ci_type := "text";
                    ci_text := "Error: " +:+ messageOr "An unknown error occurred" e |} ] |}) /\
    (forall request response e,
       buildRequest pf c args = Ok request ->
       fetch pf request = Ok response ->
       ok response = true ->
       (if isJsonResponse response
        then json response = Throw e
        else text response = Throw e) ->
       run pf c args =
       Ok {| content :=
               [ {| ci_type := "text";
                    ci_text := "Error: " +:+ messageOr "An unknown error occurred" e |} ] |}).
Proof.
  intros pf c args. split; [apply run_returns|]. split; [|split].
  - intros request response message Hbuild Hfetch Hok Hmessage.
    unfold run, attempt, tryCatch. rewrite Hbuild. cbn. rewrite Hfetch. cbn.
    rewrite Hok. cbn. rewrite errorMessage_reported. cbn. rewrite Hmessage. reflexivity.
  - intros request e Hbuild Hfetch.
    unfold run, attempt, tryCatch. rewrite Hbuild. cbn. rewrite Hfetch. reflexivity.
  - intros request response e Hbuild Hfetch Hok Hread.
    unfold run, attempt, tryCatch. rewrite Hbuild. cbn. rewrite Hfetch. cbn.
    rewrite Hok. cbn. destruct (isJsonResponse response); rewrite Hread; reflexivity.
Qed.

Example not_found_with_error_body :
  run (answering (Ok (notFound (Ok (JObj [ ("error", JStr "no such widget") ])))))
      widgetClosure []
  = Ok (oneText "Error: HTTP error! status: 404, message: no such widget").
Proof. reflexivity. Qed.

Example not_found_without_json :
  run (answering (Ok (notFound (Throw (ErrorObj "Unexpected token <"))))) widgetClosure []
  = Ok (oneText "Error: HTTP error! status: 404, message: Not Found").
Proof. reflexivity. Qed.

Example transport_failure :
  run (answering (Throw (ErrorObj "fetch failed"))) widgetClosure []
  = Ok (oneText "Error: fetch failed").
Proof. reflexivity. Qed.

(** An [error] member that is an object with a member [toString] cannot be
    converted by the template literal: the outcome is the text of the
    [TypeError], without the status. *)
Example not_found_with_unconvertible_error :
  run (answering (Ok (notFound (Ok (JObj [ ("error", JObj [ ("toString", JNum "1") ]) ])))))
      widgetClosure []
  = Ok (oneText "Error: Cannot convert object to primitive value").
Proof. reflexivity. Qed.

(** C6 (counterexample to the claim as stated).  A 404 response whose body
    parses as JSON, but has no [error] member: the message of the outcome
    is the status text, and nothing of the body. *)
Lemma C6_counterexample :
  let body := JObj [ ("message", JStr "no such widget") ] in
  let response := notFound (Ok body) in
  json response = Ok body /\
  ok response = false /\
  run (answering (Ok response)) widgetClosure [] =
    Ok {| content :=
            [ {| ci_type := "text";
                 ci_text := "Error: HTTP error! status: 404, message: "
                            +:+ statusText response |} ] |} /\
  ~ takenFrom body (statusText response).
Proof.
  cbn zeta. repeat split; try reflexivity.
  intros [H|(k & v & Hget & Hv)]; [vm_compute in H; injection H as H; discriminate H|].
  cbn [Obj.get] in Hget. destruct (String.eqb "message" k); [|discriminate Hget].
  injection Hget as <-. cbn in Hv. injection Hv as Hv. discriminate Hv.
Qed.

Lemma C6_executor_returns_text_witness :
  run (answering (Ok (notFound (Ok (JObj [ ("error", JStr "no such widget") ])))))
      widgetClosure [] =
  Ok {| content :=
          [ {| ci_type := "text";
               ci_text := "Error: HTTP error! status: 404, message: no such widget" |} ] |}.
Proof.
  pose (response := notFound (Ok (JObj [ ("error", JStr "no such widget") ]))).
  destruct (C6_executor_returns_text (answering (Ok response)) widgetClosure [])
    as (_ & Hfailed & _).
  exact (Hfailed {| rq_url := "/widget"; rq_method := "GET";
                    rq_headers := [ ("Content-Type", "application/json") ];
                    rq_body := None |}
                 response "no such widget" eq_refl eq_refl eq_refl eq_refl).
Defined.

End ExecutorFacts.

(** ** The usage counter *)

Module RedisFacts.
Import Redis RedisSpec.
Local Open Scope Z_scope.

(** C8. With a reachable store that has no entry for the current date, the
    first [incrementDailyRunCounter] sends INCR and then EXPIRE with 86400
    seconds on the date's key and returns 1; the second call on the same
    date sends only INCR and returns 2, and the expiry is still the one set
    by the first call. *)
Theorem C8_first_increment_sets_expiry :
  forall (today : string) (c : Client) (s : Server),
    redis c = Some s ->
    reachable s = true ->
    store s !! usageKey today = None ->
    exists c1 s1 c2 s2,
      incrementDailyRunCounter today c = (Ok 1, c1) /\
      redis c1 = Some s1 /\
      commands s1 = commands s ++ [ INCR (usageKey today); EXPIRE (usageKey today) 86400 ] /\
      store s1 !! usageKey today = Some {| value := "1"; ttl := Some 86400 |} /\
      incrementDailyRunCounter today c1 = (Ok 2, c2) /\
      redis c2 = Some s2 /\
      commands s2 = commands s1 ++ [ INCR (usageKey today) ] /\
      store s2 !! usageKey today = Some {| value := "2"; ttl := Some 86400 |}.
Proof.
  intros today [r cerr] [st up fl cmds] Hc Hup Hfresh. cbn in Hc, Hup, Hfresh. subst r up.
  set (key := usageKey today) in *.
  set (s1 := {| store := <[key := {| value := "1"; ttl := Some 86400 |}]>
                           (<[key := {| value := "1"; ttl := None |}]> st);
                reachable := true; failure := fl;
                commands := (cmds ++ [INCR key]) ++ [EXPIRE key 86400] |}).
  set (s2 := {| store := <[key := {| value := "2"; ttl := Some 86400 |}]> (store s1);
                reachable := true; failure := fl;
                commands := commands s1 ++ [INCR key] |}).
  exists {| redis := Some s1; redisConnectionError := cerr |}, s1,
         {| redis := Some s2; redisConnectionError := cerr |}, s2.
  assert (incrementDailyRunCounter today
            {| redis := Some {| store := st; reachable := true; failure := fl;
                                commands := cmds |};
               redisConnectionError := cerr |}
          = (Ok 1, {| redis := Some s1; redisConnectionError := cerr |})) as Hfirst.
  { unfold incrementDailyRunCounter, mbind, M_bind, ask, mtry, onRedis, incr, expire.
    cbn. fold key. rewrite Hfresh. cbn. rewrite lookup_insert_eq. reflexivity. }
  assert (incrementDailyRunCounter today {| redis := Some s1; redisConnectionError := cerr |}
          = (Ok 2, {| redis := Some s2; redisConnectionError := cerr |})) as Hsecond.
  { unfold incrementDailyRunCounter, mbind, M_bind, ask, mtry, onRedis, incr, expire.
    cbn. fold key. rewrite lookup_insert_eq. reflexivity. }
  repeat split; try assumption.
  - cbn. rewrite <- app_assoc. reflexivity.
  - cbn. apply lookup_insert_eq.
  - cbn. apply lookup_insert_eq.
Qed.

Lemma C8_first_increment_sets_expiry_witness :
  exists c1 s1 c2 s2,
    incrementDailyRunCounter "2025-06-01"
      {| redis := Some emptyServer; redisConnectionError := None |} = (Ok 1, c1) /\
    redis c1 = Some s1 /\
    commands s1 = commands emptyServer ++
                  [ INCR (usageKey "2025-06-01"); EXPIRE (usageKey "2025-06-01") 86400 ] /\
    store s1 !! usageKey "2025-06-01" = Some {| value := "1"; ttl := Some 86400 |} /\
    incrementDailyRunCounter "2025-06-01" c1 = (Ok 2, c2) /\
    redis c2 = Some s2 /\
    commands s2 = commands s1 ++ [ INCR (usageKey "2025-06-01") ] /\
    store s2 !! usageKey "2025-06-01" = Some {| value := "2"; ttl := Some 86400 |}.
Proof.
  apply (C8_first_increment_sets_expiry "2025-06-01"
           {| redis := Some emptyServer; redisConnectionError := None |} emptyServer);
    reflexivity.
Defined.

End RedisFacts.

(** ** The step formatter *)

Module FormatterFacts.
Import Agent FormatterSpec.

Lemma strictlyIncreasing_replicate n v :
  strictlyIncreasing (replicate n v) = Nat.leb n 1.
Proof.
  destruct n as [|[|n]]; try reflexivity.
  cbn [replicate strictlyIncreasing]. rewrite Nat.ltb_irrefl. reflexivity.
Qed.

Section WithExternals.
Variable ext : Externals.

Lemma formatToolCall_spec st acc i :
  exists new,
    formatToolCall ext st acc i = acc ++ new /\
    Forall (fun fs => step fs = 1) new /\
    length new = 1 + (if decodes ext st i then 1 else 0).
Proof.
  unfold formatToolCall, decodes, pushFormattedSteps.
  destruct (toolCalls st !! i) as [tc|].
  - destruct (isTokenTool (toolName tc)); cbn [andb].
    + destruct (getDecodedJWT ext (toolResults st !! i)) as [[tok [d|]]|e].
      * rewrite <- app_assoc. eexists. split; [reflexivity|].
        split; [repeat constructor | reflexivity].
      * eexists. split; [reflexivity|]. split; [repeat constructor | reflexivity].
      * eexists. split; [reflexivity|]. split; [repeat constructor | reflexivity].
    + eexists. split; [reflexivity|]. split; [repeat constructor | reflexivity].
  - eexists. split; [reflexivity|]. split; [repeat constructor | reflexivity].
Qed.

Lemma formatToolCalls_spec st l acc :
  exists new,
    fold_left (formatToolCall ext st) l acc = acc ++ new /\
    Forall (fun fs => step fs = 1) new /\
    length new = length l + length (List.filter (decodes ext st) l).
Proof.
  revert acc. induction l as [|i l IH]; intros acc; cbn [fold_left].
  - exists []. rewrite app_nil_r. repeat split. constructor.
  - destruct (formatToolCall_spec st acc i) as (n1 & -> & H1 & L1).
    destruct (IH (acc ++ n1)) as (n2 & -> & H2 & L2).
    exists (n1 ++ n2). rewrite <- app_assoc. split; [reflexivity|].
    split; [apply Forall_app; split; assumption|].
    rewrite length_app, L1, L2. cbn [List.filter].
    destruct (decodes ext st i); cbn [length]; lia.
Qed.

Lemma formatStep_spec acc st :
  exists new,
    formatStep ext acc st = acc ++ new /\
    Forall (fun fs => step fs = 1) new /\
    length new = emitted ext st.
Proof.
  unfold formatStep, emitted.
  destruct (Nat.ltb 0 (length (toolCalls st))).
  - destruct (formatToolCalls_spec st (seq 0 (length (toolCalls st))) acc)
      as (new & -> & H & L).
    exists new. rewrite L, length_seq. repeat split; assumption.
  - eexists. split; [reflexivity|]. split; [repeat constructor | reflexivity].
Qed.

Lemma formatOutput_spec sts acc :
  exists new,
    formatOutput ext sts acc = acc ++ new /\
    Forall (fun fs => step fs = 1) new /\
    length new = sum_list (map (emitted ext) sts).
Proof.
  unfold formatOutput. revert acc.
  induction sts as [|st sts IH]; intros acc; cbn [fold_left map sum_list sum_list_with].
  - exists []. rewrite app_nil_r. repeat split. constructor.
  - destruct (formatStep_spec acc st) as (n1 & -> & H1 & L1).
    destruct (IH (acc ++ n1)) as (n2 & -> & H2 & L2).
    exists (n1 ++ n2). rewrite <- app_assoc. split; [reflexivity|].
    split; [apply Forall_app; split; assumption|].
    rewrite length_app, L1, L2. reflexivity.
Qed.

Lemma length_formatOutput sts acc :
  length (formatOutput ext sts acc) = length acc + sum_list (map (emitted ext) sts).
Proof.
  destruct (formatOutput_spec sts acc) as (new & -> & _ & L).
  rewrite length_app, L. reflexivity.
Qed.

Lemma emitted_ge_1 st : 1 <= emitted ext st.
Proof.
  unfold emitted. destruct (Nat.ltb 0 (length (toolCalls st))) eqn:H; [|lia].
  apply Nat.ltb_lt in H. lia.
Qed.

Lemma constant_steps (l : list FormattedStep) :
  Forall (fun fs => step fs = 1) l -> map step l = replicate (length l) 1.
Proof.
  induction 1 as [|fs l Hfs _ IH]; [reflexivity|].
  cbn [map length replicate]. rewrite Hfs, IH. reflexivity.
Qed.

(** C9. Whatever the raw steps are, the formatter only appends to the
    trace, and every step it appends, the decoded-token steps included,
    carries the index 1: the indices of the emitted steps are the constant
    sequence 1, 1, ..., 1, which is strictly increasing only when it has
    at most one element. *)
Theorem C9_constant_step_index :
  forall (sts : list AIStep) (acc : list FormattedStep),
    exists new,
      formatOutput ext sts acc = acc ++ new /\
      map step new = replicate (length new) 1 /\
      strictlyIncreasing (map step new) = Nat.leb (length new) 1.
Proof.
  intros sts acc.
  destruct (formatOutput_spec sts acc) as (new & Heq & Hall & _).
  exists new. split; [exact Heq|].
  rewrite (constant_steps new Hall). split; [reflexivity|].
  apply strictlyIncreasing_replicate.
Qed.

End WithExternals.
End FormatterFacts.

(** ** The bootstrap detector *)

Module DetectorFacts.
Import Agent DetectorSpec.

Lemma detectSteps_calls sts d :
  fold_left detectStep sts d = fold_left detectCall (calls sts) d.
Proof.
  unfold calls. revert d. induction sts as [|st sts IH]; intros d; [reflexivity|].
  cbn [fold_left map concat]. rewrite fold_left_app. apply IH.
Qed.

(** What scanning the calls [cs] does to the context and the flags. *)
Lemma detectCalls_spec cs d :
  let d' := fold_left detectCall cs d in
  available_mcp_servers (dt_context d') = available_mcp_servers (dt_context d) /\
  conversation_history (dt_context d') = conversation_history (dt_context d) /\
  openApiSpecs (dt_context d') = openApiSpecs (dt_context d) ++ specRefs cs /\
  dynamically_mounted_server (dt_context d') =
    match last (mounts cs) with
    | Some server => [ server ]
    | None => dynamically_mounted_server (dt_context d)
    end /\
  mcpServerConnected d' = mcpServerConnected d || existsb isMount cs /\
  openApiSpecsAdded d' = openApiSpecsAdded d || existsb isConvert cs /\
  newToolsFound d' = newToolsFound d || existsb isBootstrap cs.
Proof.
  revert d. induction cs as [|tc cs IH]; intros d; cbn [fold_left].
  - cbn. rewrite app_nil_r, !orb_false_r. repeat split.
  - destruct (IH (detectCall d tc)) as (Ha & Hh & Hs & Hm & Hf1 & Hf2 & Hf3).
    cbn zeta. rewrite Ha, Hh, Hs, Hm, Hf1, Hf2, Hf3. clear.
    unfold mounts, specRefs, isBootstrap, detectCall.
    cbn [List.filter existsb].
    fold (isMount tc). fold (isConvert tc).
    destruct (isMount tc), (isConvert tc); cbn [map last dt_context setMounted pushSpec
      available_mcp_servers conversation_history openApiSpecs dynamically_mounted_server
      mcpServerConnected openApiSpecsAdded newToolsFound orb];
      rewrite <- ?app_assoc, ?orb_true_r; cbn [app];
      repeat split;
      rewrite ?last_cons;
      try (destruct (last (map mountOf (List.filter isMount cs))); reflexivity).
Qed.

Lemma existsb_bootstrap cs :
  existsb isBootstrap cs = existsb isMount cs || existsb isConvert cs.
Proof.
  induction cs as [|tc cs IH]; [reflexivity|]. cbn [existsb]. rewrite IH.
  unfold isBootstrap. destruct (isMount tc), (isConvert tc), (existsb isMount cs); reflexivity.
Qed.

Lemma existsb_filter_nil {A} (p : A -> bool) l :
  List.filter p l <> [] -> existsb p l = true.
Proof.
  induction l as [|x l IH]; cbn; [congruence|].
  destruct (p x); [reflexivity|]. exact IH.
Qed.

(** The detector, exactly: what it returns and the context it leaves. *)
Lemma detector_spec sts agentContext :
  let r := checkAndUpdateAgentContextIfConnectionIsInitiated sts agentContext in
  let cs := calls sts in
  fst r = existsb isBootstrap cs /\
  available_mcp_servers (snd r) = available_mcp_servers agentContext /\
  openApiSpecs (snd r) = openApiSpecs agentContext ++ specRefs cs /\
  dynamically_mounted_server (snd r) =
    match lastMount sts with
    | Some server => [ server ]
    | None => dynamically_mounted_server agentContext
    end /\
  conversation_history (snd r) =
    conversation_history agentContext ++
    (if existsb isBootstrap cs
     then [ {| role := RSystem; content := Some (announcement cs) |} ]
     else []).
Proof.
  cbn zeta. unfold checkAndUpdateAgentContextIfConnectionIsInitiated, lastMount.
  rewrite detectSteps_calls.
  set (d0 := {| dt_context := agentContext; newToolsFound := false;
                mcpServerConnected := false; openApiSpecsAdded := false |}).
  destruct (detectCalls_spec (calls sts) d0) as (Ha & Hh & Hs & Hm & Hf1 & Hf2 & Hf3).
  cbn zeta in *. cbn [fst snd].
  rewrite Hf1, Hf2, Hf3. subst d0. cbn [newToolsFound mcpServerConnected openApiSpecsAdded
    dt_context orb] in *.
  rewrite existsb_bootstrap. unfold announcement.
  destruct (existsb isMount (calls sts)), (existsb isConvert (calls sts));
    cbn [orb andb pushHistory available_mcp_servers openApiSpecs dynamically_mounted_server
         conversation_history];
    rewrite ?Ha, ?Hh, ?Hs, ?Hm, ?app_nil_r; repeat split.
Qed.

(** C2 (amended). In a round with at least one bootstrap call the detector
    reports new tools; the static servers are unchanged; every description
    call has appended one reference, in call order; when there is a
    server-mount call, the server of the last one is mounted afterwards;
    and exactly one system message is appended to the history for the
    whole round, worded after the kinds of call that occurred. *)
Theorem C2_detector_updates_context :
  forall (sts : list AIStep) (agentContext : AgentContext),
    bootstrapCalls sts <> [] ->
    let r := checkAndUpdateAgentContextIfConnectionIsInitiated sts agentContext in
    fst r = true /\
    available_mcp_servers (snd r) = available_mcp_servers agentContext /\
    openApiSpecs (snd r) = openApiSpecs agentContext ++ specRefs (calls sts) /\
    match lastMount sts with
    | Some server => server ∈ dynamically_mounted_server (snd r)
    | None => dynamically_mounted_server (snd r) = dynamically_mounted_server agentContext
    end /\
    conversation_history (snd r) =
      conversation_history agentContext ++
      [ {| role := RSystem; content := Some (announcement (calls sts)) |} ].
Proof.
  intros sts agentContext Hn r.
  destruct (detector_spec sts agentContext) as (Hf & Ha & Hs & Hm & Hh).
  fold r in Hf, Ha, Hs, Hm, Hh.
  apply existsb_filter_nil in Hn. rewrite Hn in Hf, Hh.
  repeat split; try assumption.
  rewrite Hm. destruct (lastMount sts); [apply list_elem_of_here | reflexivity].
Qed.

Lemma C2_detector_updates_context_witness :
  let r := checkAndUpdateAgentContextIfConnectionIsInitiated twoMounts emptyContext in
  bootstrapCalls twoMounts <> [] /\
  (fst r = true /\
   available_mcp_servers (snd r) = available_mcp_servers emptyContext /\
   openApiSpecs (snd r) = openApiSpecs emptyContext ++ specRefs (calls twoMounts) /\
   match lastMount twoMounts with
   | Some server => server ∈ dynamically_mounted_server (snd r)
   | None => dynamically_mounted_server (snd r) = dynamically_mounted_server emptyContext
   end /\
   conversation_history (snd r) =
     conversation_history emptyContext ++
     [ {| role := RSystem; content := Some (announcement (calls twoMounts)) |} ]).
Proof.
  split; [discriminate|].
  apply (C2_detector_updates_context twoMounts emptyContext). discriminate.
Defined.

(** C2 fails as stated: after a round with two server-mount calls the
    first server is not mounted, and one system message was appended, not
    two. *)
Lemma C2_counterexample :
  let r := checkAndUpdateAgentContextIfConnectionIsInitiated twoMounts emptyContext in
  length (bootstrapCalls twoMounts) = 2 /\
  dynamically_mounted_server (snd r)
    = [ {| url := Some "https://b.example/mcp"; headers := [] |} ] /\
  ({| url := Some "https://a.example/mcp"; headers := [] |}
     ∉ dynamically_mounted_server (snd r)) /\
  length (conversation_history (snd r)) = length (conversation_history emptyContext) + 1.
Proof.
  cbn zeta. repeat split.
  intros H. vm_compute in H. apply list_elem_of_singleton in H. discriminate H.
Qed.

End DetectorFacts.

(** ** The registry builder and the orchestration loop *)

Module RunFacts.
Import Agent DetectorSpec FormatterSpec RunSpec DetectorFacts FormatterFacts.

Lemma rounds_app evs1 evs2 : rounds (evs1 ++ evs2) = rounds evs1 + rounds evs2.
Proof. unfold rounds. rewrite List.filter_app, length_app. reflexivity. Qed.

Lemma rounds_registry evs : Forall registryEvent evs -> rounds evs = 0.
Proof.
  induction 1 as [|e evs He _ IH]; [reflexivity|].
  unfold rounds in *. cbn [List.filter]. destruct e; cbn in He; try contradiction; exact IH.
Qed.

(** Unfold one [x ← m; k] applied to a world. *)
Lemma bind_apply {S A B} (m : M S A) (k : A -> M S B) (s : S) :
  (m ≫= k) s =
  match m s with
  | (Ok a, s') => k a s'
  | (Throw e, s') => (Throw e, s')
  end.
Proof. reflexivity. Qed.

Lemma ret_apply {S A} (a : A) (s : S) : (mret a : M S A) s = (Ok a, s).
Proof. reflexivity. Qed.

Lemma call_events {A} ev (f : nat -> Result A) w :
  events (snd (call ev f w)) = events w ++ [ ev ].
Proof. reflexivity. Qed.

Section WithExternals.
Variable ext : Externals.

Lemma addSpecTools_events allTools ref w :
  events (snd (addSpecTools ext allTools ref w)) = events w ++ [ FetchSpec (spec_url ref) ].
Proof.
  unfold addSpecTools. rewrite bind_apply.
  destruct (call _ _ w) as [[d|e] w1] eqn:Hcall;
    apply (f_equal snd) in Hcall; cbn [snd] in Hcall; rewrite <- Hcall; reflexivity.
Qed.

Lemma addSpecs_events refs allTools w :
  exists evs,
    events (snd (forEachM (addSpecTools ext) refs allTools w)) = events w ++ evs /\
    Forall registryEvent evs.
Proof.
  revert allTools w. induction refs as [|ref refs IH]; intros allTools w; cbn [forEachM].
  - exists []. rewrite app_nil_r. split; [reflexivity | constructor].
  - rewrite bind_apply. pose proof (addSpecTools_events allTools ref w) as H1.
    destruct (addSpecTools ext allTools ref w) as [[tools1|e] w1]; cbn [snd] in H1.
    + destruct (IH tools1 w1) as (evs & H2 & Hall).
      exists (FetchSpec (spec_url ref) :: evs). rewrite H2, H1, <- app_assoc.
      split; [reflexivity | constructor; [exact I | exact Hall]].
    + exists [ FetchSpec (spec_url ref) ]. cbn [snd].
      split; [exact H1 | repeat constructor].
Qed.

(** One server: the connection is attempted first; the resources are read
    only when the tools were obtained. *)
Lemma connectServer_events st server w :
  exists evs,
    events (snd (connectServer ext st server w))
      = events w ++ ConnectServer (url server) :: evs /\
    Forall registryEvent evs.
Proof.
  unfold connectServer. destruct st as [allTools agentContext].
  rewrite bind_apply. unfold call at 1.
  destruct (mcpTools ext (clock w) server) as [toolSet|e].
  - exists [ ReadResources (url server) ]. rewrite bind_apply. unfold call, logged. cbn.
    rewrite <- app_assoc. split; [reflexivity | repeat constructor].
  - exists []. cbn. split; [reflexivity | constructor].
Qed.

Lemma connectServers_events servers st w :
  exists evs,
    events (snd (forEachM (connectServer ext) servers st w)) = events w ++ evs /\
    Forall registryEvent evs /\
    (isOk (fst (forEachM (connectServer ext) servers st w)) = true ->
     forall server, server ∈ servers -> ConnectServer (url server) ∈ evs).
Proof.
  revert st w. induction servers as [|server servers IH]; intros st w; cbn [forEachM].
  - exists []. rewrite app_nil_r. split; [reflexivity|]. split; [constructor|].
    intros _ server H. inversion H.
  - rewrite bind_apply. destruct (connectServer_events st server w) as (evs1 & H1 & Hall1).
    destruct (connectServer ext st server w) as [[st1|e] w1]; cbn [snd] in H1.
    + destruct (IH st1 w1) as (evs2 & H2 & Hall2 & Hin).
      exists ((ConnectServer (url server) :: evs1) ++ evs2).
      rewrite H2, H1, <- app_assoc. split; [reflexivity|]. split.
      * apply Forall_app. split; [constructor; [exact I | exact Hall1] | exact Hall2].
      * intros Hok s [->|Hs]%elem_of_cons.
        -- apply elem_of_app. left. apply list_elem_of_here.
        -- apply elem_of_app. right. apply Hin; assumption.
    + exists (ConnectServer (url server) :: evs1). cbn [snd fst isOk].
      split; [exact H1|]. split; [constructor; [exact I | exact Hall1]|]. discriminate.
Qed.

Lemma filterServers_keeps allServers kept server u :
  filterServers allServers = Ok kept ->
  server ∈ allServers -> url server = Some u -> isMcpServerUrl u = true ->
  server ∈ kept.
Proof.
  revert kept. induction allServers as [|s rest IH]; intros kept Hf Hin Hu Hmcp.
  - inversion Hin.
  - cbn [filterServers] in Hf. destruct (url s) as [us|] eqn:Hus; [|discriminate].
    destruct (filterServers rest) as [kept'|e]; [|discriminate].
    cbn in Hf. injection Hf as <-.
    apply elem_of_cons in Hin as [->|Hin].
    + rewrite Hu in Hus. injection Hus as <-. rewrite Hmcp. apply list_elem_of_here.
    + specialize (IH kept' eq_refl Hin Hu Hmcp).
      destruct (isMcpServerUrl us); [apply list_elem_of_further|]; exact IH.
Qed.

(** A registry build only fetches descriptions, connects to servers and
    reads resources; when it completes it has connected to every mounted
    server whose URL passes the filter. *)
Lemma prepareAllTools_events agentContext w :
  exists evs,
    events (snd (prepareAllTools ext agentContext w)) = events w ++ evs /\
    Forall registryEvent evs /\
    (isOk (fst (prepareAllTools ext agentContext w)) = true ->
     forall server u,
       server ∈ available_mcp_servers agentContext ++ dynamically_mounted_server agentContext ->
       url server = Some u -> isMcpServerUrl u = true ->
       ConnectServer (Some u) ∈ evs).
Proof.
  unfold prepareAllTools. rewrite bind_apply.
  destruct (addSpecs_events (openApiSpecs agentContext) builtInTools w) as (evs1 & H1 & Hall1).
  destruct (forEachM (addSpecTools ext) (openApiSpecs agentContext) builtInTools w)
    as [[allTools|e] w1]; cbn [snd] in H1.
  2:{ exists evs1. cbn [fst snd isOk]. split; [exact H1|]. split; [exact Hall1 | discriminate]. }
  rewrite bind_apply.
  destruct (filterServers (available_mcp_servers agentContext ++
                           dynamically_mounted_server agentContext)) as [mcpServers|e] eqn:Hf.
  2:{ exists evs1. cbn [fst snd isOk]. split; [exact H1|]. split; [exact Hall1 | discriminate]. }
  rewrite bind_apply.
  destruct (connectServers_events mcpServers (allTools, agentContext) w1)
    as (evs2 & H2 & Hall2 & Hin).
  destruct (forEachM (connectServer ext) mcpServers (allTools, agentContext) w1)
    as [[[allTools2 agentContext2]|e] w2]; cbn [fst snd] in H2, Hin.
  - exists (evs1 ++ evs2). rewrite ret_apply. cbn [fst snd]. rewrite H2, H1, <- app_assoc.
    split; [reflexivity|]. split; [apply Forall_app; split; assumption|].
    intros _ server u Hs Hu Hmcp. apply elem_of_app. right.
    rewrite <- Hu. apply Hin; [reflexivity|].
    eapply filterServers_keeps; eassumption.
  - exists (evs1 ++ evs2). cbn [fst snd isOk]. rewrite H2, H1, <- app_assoc.
    split; [reflexivity|]. split; [apply Forall_app; split; assumption | discriminate].
Qed.





Lemma filter_nil_existsb {A} (p : A -> bool) l :
  List.filter p l = [] -> existsb p l = false.
Proof.
  induction l as [|x l IH]; cbn; [reflexivity|].
  destruct (p x); [discriminate|]. exact IH.
Qed.

(** One round of [runAgent], spelled out. *)
Lemma runAgent_unfold fuel apiKey input agentContext acc w :
  runAgent ext (S fuel) apiKey input agentContext acc w =
  match prepareAllTools ext agentContext (logged StartingAgentRun w) with
  | (Throw e, w1) => (Throw e, w1)
  | (Ok (allTools, ctx1), w1) =>
      let ctx2 := pushHistory [ {| role := RUser; content := input |} ] ctx1 in
      let w2 := logged (InvokeModel (Obj.keys allTools)) w1 in
      match generateText ext (clock w1) (Obj.keys allTools) (conversation_history ctx2) with
      | Throw e => (Throw e, w2)
      | Ok out =>
          let formattedSteps := formatOutput ext (mo_steps out) acc in
          let detected :=
            checkAndUpdateAgentContextIfConnectionIsInitiated (mo_steps out)
              (pushHistory (mo_messages out) ctx2) in
          if fst detected then
            match runAgent ext fuel apiKey input (snd detected) formattedSteps w2 with
            | (Ok (Some modelResponse), w3) =>
                (Ok (Some {| answer := mo_text out; steps := steps modelResponse;
                             usage := mo_usage out;
                             agentContext := Agent.agentContext modelResponse |}), w3)
            | (Ok None, w3) => (Ok None, w3)
            | (Throw e, w3) => (Throw e, w3)
            end
          else
            (Ok (Some {| answer := mo_text out; steps := formattedSteps;
                         usage := mo_usage out; agentContext := snd detected |}), w2)
      end
  end.
Proof.
  cbn [runAgent]. rewrite bind_apply. unfold emit at 1, call at 1. rewrite bind_apply.
  destruct (prepareAllTools ext agentContext (logged StartingAgentRun w))
    as [[[allTools ctx1]|e] w1]; [|reflexivity].
  rewrite bind_apply. unfold call at 1.
  destruct (generateText ext (clock w1) (Obj.keys allTools) _) as [out|e]; [|reflexivity].
  cbn zeta.
  destruct (checkAndUpdateAgentContextIfConnectionIsInitiated _ _) as [[|] ctx3];
    cbn [fst snd]; [|reflexivity].
  rewrite bind_apply.
  destruct (runAgent ext fuel apiKey input ctx3 _ _) as [[[modelResponse|]|e] w3]; reflexivity.
Qed.

(** C1 (amended). With a stub model that never asks for a bootstrap tool,
    [runAgent] starts exactly one round and makes no recursive call (any
    positive fuel is enough).  When it returns a document, that is when
    neither the registry build nor the model call throws, the steps of the
    document are the initial steps followed by what the formatter emits
    for the steps [out] the stub returned: one entry for a step without
    tool calls, and for a step with tool calls one entry per call plus one
    per decoded token. *)
Theorem C1_one_round_without_bootstrap :
  noBootstrap ext ->
  forall (fuel : nat) (apiKey : string) (input : option string)
         (agentContext : AgentContext) (acc : list FormattedStep) (w : World),
    let r := runAgent ext (S fuel) apiKey input agentContext acc w in
    exists evs,
      events (snd r) = events w ++ evs /\
      rounds evs = 1 /\
      match fst r with
      | Ok None => False
      | Ok (Some document) =>
          exists t tools msgs out,
            generateText ext t tools msgs = Ok out /\
            steps document = formatOutput ext (mo_steps out) acc /\
            length (steps document)
              = length acc + sum_list (map (emitted ext) (mo_steps out))
      | Throw _ => True
      end.
Proof.
  intros Hstub fuel apiKey input agentContext acc w r. subst r.
  rewrite runAgent_unfold.
  destruct (prepareAllTools_events agentContext (logged StartingAgentRun w))
    as (evs1 & H1 & Hall1 & _).
  destruct (prepareAllTools ext agentContext (logged StartingAgentRun w))
    as [[[allTools ctx1]|e] w1]; cbn [snd] in H1; cbn [logged events] in H1.
  { cbn zeta.
    set (msgs := conversation_history
                   (pushHistory [ {| role := RUser; content := input |} ] ctx1)).
    assert (rounds (StartingAgentRun :: evs1 ++ [InvokeModel (Obj.keys allTools)]) = 1)
      as Hrounds.
    { change (StartingAgentRun :: evs1 ++ [InvokeModel (Obj.keys allTools)])
        with ([StartingAgentRun] ++ evs1 ++ [InvokeModel (Obj.keys allTools)]).
      rewrite !rounds_app, (rounds_registry _ Hall1). reflexivity. }
    assert (events (logged (InvokeModel (Obj.keys allTools)) w1)
            = events w ++ StartingAgentRun :: evs1 ++ [InvokeModel (Obj.keys allTools)])
      as Hev.
    { cbn [logged events]. rewrite H1, <- !app_assoc. reflexivity. }
    destruct (generateText ext (clock w1) (Obj.keys allTools) msgs) as [out|e] eqn:Hmodel.
    - pose proof (Hstub _ _ _ _ Hmodel) as Hnone.
      destruct (detector_spec (mo_steps out)
                  (pushHistory (mo_messages out)
                     (pushHistory [ {| role := RUser; content := input |} ] ctx1)))
        as (Hfound & _).
      cbn zeta in Hfound. rewrite (filter_nil_existsb _ _ Hnone) in Hfound.
      rewrite Hfound. cbn [fst snd steps].
      eexists. split; [exact Hev|]. split; [exact Hrounds|].
      exists (clock w1), (Obj.keys allTools), msgs, out.
      split; [exact Hmodel|]. split; [reflexivity|]. apply length_formatOutput.
    - cbn [fst snd]. eexists. split; [exact Hev|]. split; [exact Hrounds | exact I]. }
  { cbn [fst snd]. exists (StartingAgentRun :: evs1). rewrite H1, <- app_assoc.
    split; [reflexivity|]. split; [|exact I].
    change (StartingAgentRun :: evs1) with ([StartingAgentRun] ++ evs1).
    rewrite rounds_app, (rounds_registry _ Hall1). reflexivity. }
Qed.

(** [runAgent] in terms of its first round. *)
Lemma runAgent_firstRound fuel apiKey input agentContext acc w :
  runAgent ext (S fuel) apiKey input agentContext acc w =
  match firstRound ext input agentContext w with
  | (Throw e, w2) => (Throw e, w2)
  | (Ok (out, ctxAfter), w2) =>
      if existsb isBootstrap (calls (mo_steps out)) then
        outer out (runAgent ext fuel apiKey input ctxAfter
                     (formatOutput ext (mo_steps out) acc) w2)
      else
        (Ok (Some {| answer := mo_text out;
                     steps := formatOutput ext (mo_steps out) acc;
                     usage := mo_usage out; agentContext := ctxAfter |}), w2)
  end.
Proof.
  rewrite runAgent_unfold. unfold firstRound.
  rewrite bind_apply. unfold emit at 1, call at 1. rewrite bind_apply.
  destruct (prepareAllTools ext agentContext (logged StartingAgentRun w))
    as [[[allTools ctx1]|e] w1]; [|reflexivity].
  rewrite bind_apply. unfold call at 1. cbn zeta.
  destruct (generateText ext (clock w1) (Obj.keys allTools) _) as [out|e]; [|reflexivity].
  rewrite ret_apply.
  destruct (detector_spec (mo_steps out)
              (pushHistory (mo_messages out)
                 (pushHistory [ {| role := RUser; content := input |} ] ctx1)))
    as (Hfound & _).
  cbn zeta in Hfound. rewrite Hfound. reflexivity.
Qed.




End WithExternals.

(** *** Concrete runs *)

Lemma twoCallStub_noBootstrap : noBootstrap (scripted twoCallStub).
Proof. intros t tools msgs out H. injection H as <-. reflexivity. Qed.

Lemma C1_one_round_without_bootstrap_witness :
  noBootstrap (scripted twoCallStub) /\
  let r := runAgent (scripted twoCallStub) 1 "key" (Some "prompt") startContext [] startWorld in
  exists evs,
    events (snd r) = events startWorld ++ evs /\
    rounds evs = 1 /\
    match fst r with
    | Ok None => False
    | Ok (Some document) =>
        exists t tools msgs out,
          generateText (scripted twoCallStub) t tools msgs = Ok out /\
          steps document = formatOutput (scripted twoCallStub) (mo_steps out) [] /\
          length (steps document)
            = length (@nil FormattedStep)
              + sum_list (map (emitted (scripted twoCallStub)) (mo_steps out))
    | Throw _ => True
    end.
Proof.
  split; [exact twoCallStub_noBootstrap|].
  exact (C1_one_round_without_bootstrap (scripted twoCallStub) twoCallStub_noBootstrap
           0 "key" (Some "prompt") startContext [] startWorld).
Defined.

(** C1 fails as stated: the stub returns one step and no bootstrap call,
    the loop runs one round, and the returned trace has two entries. *)
Lemma C1_counterexample :
  noBootstrap (scripted twoCallStub) /\
  exists document w',
    runAgent (scripted twoCallStub) 1 "key" (Some "prompt") startContext [] startWorld
      = (Ok (Some document), w') /\
    rounds (events w') = 1 /\
    length (mo_steps twoCalls) = 1 /\
    length (steps document) = 2.
Proof.
  split; [exact twoCallStub_noBootstrap|].
  eexists. eexists. split; [vm_compute; reflexivity|].
  repeat split.
Qed.


(** The run of the witness connects to the mounted server in its second
    round. *)
Example mounted_server_run :
  events (snd (runAgent (scripted (mountThenStop sellerMcp)) 2 "key" (Some "prompt")
                 startContext [] startWorld)) =
  [ StartingAgentRun; ConnectServer (Some skyfire); ReadResources (Some skyfire);
    InvokeModel [ connectTool; convertTool ];
    StartingAgentRun; ConnectServer (Some skyfire); ReadResources (Some skyfire);
    ConnectServer (Some sellerMcp); ReadResources (Some sellerMcp);
    InvokeModel [ connectTool; convertTool ] ].
Proof. vm_compute. reflexivity. Qed.


End RunFacts.

(** ** The invocation boundary *)

Module InvocationFacts.
Import Agent InvocationSpec.

(** C10. Outside test mode, when the usage-counter store cannot be reached
    or the daily limit is reached, [getAgent] returns an error document
    whose [agentContext] is the context the caller passed, with no steps;
    no round is started, so the fresh context with the system prompt and
    the Skyfire server is never built. *)
Theorem C10_failed_preflight_keeps_context :
  forall (ext : Externals) (env : ProcessEnv) (fuel : nat) (apiKey : string)
         (input : Input) (agentContext : AgentContext) (w : World),
    TEST_MODE env <> Some "true" ->
    counterUnreachable (redisClient w)
    || limitReached (dateString ext (S (clock w))) (dailyCap env) (redisClient w) = true ->
    exists document w',
      getAgent ext env fuel apiKey input agentContext w = (Ok (Some document), w') /\
      isErrorDocument document = true /\
      documentContext document = agentContext /\
      documentSteps document = [] /\
      events w' = events w.
Proof.
  intros ext env fuel apiKey input agentContext [[r cerr] clk evs] Htest Hfail.
  unfold getAgent, preflight. rewrite RunFacts.bind_apply.
  case_bool_decide as Ht; [contradiction|]. cbn [negb].
  rewrite RunFacts.bind_apply.
  unfold onCounter at 1. cbn [redisClient clock events] in *.
  unfold counterUnreachable, limitReached in Hfail. cbn [Redis.redis] in Hfail.
  destruct r as [[st up fl cmds]|].
  - cbn [Redis.reachable] in Hfail. destruct up.
    + cbn [negb orb andb] in Hfail.
      unfold Redis.checkRedisConnection, mbind, M_bind, ask, mtry, Redis.onRedis, Redis.ping.
      cbn. unfold onCounter, today, Redis.checkDailyRunLimit, mbind, M_bind, ask, mtry,
        Redis.onRedis, Redis.get.
      cbn. unfold usageOn, dailyCap in Hfail. cbn [Redis.store] in Hfail.
      rewrite Hfail. cbn.
      eexists. eexists. split; [reflexivity|]. repeat split.
    + unfold Redis.checkRedisConnection, mbind, M_bind, ask, mtry, Redis.onRedis, Redis.ping.
      cbn. eexists. eexists. split; [reflexivity|]. repeat split.
  - unfold Redis.checkRedisConnection, mbind, M_bind, ask. cbn.
    eexists. eexists. split; [reflexivity|]. repeat split.
Qed.

(** When both checks pass, the run starts from the fresh context, not from
    the caller's. *)
Lemma getAgent_passes ext env fuel apiKey o agentContext w w1 :
  preflight ext env agentContext w = (Ok None, w1) ->
  getAgent ext env fuel apiKey (InputObject o) agentContext w =
  let key := if Compiler.nonEmpty apiKey then apiKey else Js.orElse (SKYFIRE_API_KEY env) "" in
  match runAgent ext fuel key (Obj.get "prompt" o) (freshContext env key) [] w1 with
  | (Ok document, w2) => (Ok (Completed <$> document), w2)
  | (Throw e, w2) => (Throw e, w2)
  end.
Proof.
  intros Hpre. unfold getAgent. rewrite RunFacts.bind_apply, Hpre.
  rewrite RunFacts.bind_apply, RunFacts.ret_apply, RunFacts.bind_apply. cbn zeta.
  destruct (runAgent ext fuel _ _ _ _ w1) as [[document|e] w2]; reflexivity.
Qed.

Lemma C10_failed_preflight_keeps_context_witness :
  let ext := RunSpec.scripted RunSpec.twoCallStub in
  let go w :=
    exists document w',
      getAgent ext production 5 "key" (InputObject [ ("prompt", "hello") ])
        DetectorSpec.emptyContext w = (Ok (Some document), w') /\
      isErrorDocument document = true /\
      documentContext document = DetectorSpec.emptyContext /\
      documentSteps document = [] /\
      events w' = events w in
  TEST_MODE production <> Some "true" /\
  counterUnreachable (redisClient RunSpec.startWorld)
  || limitReached (dateString ext (S (clock RunSpec.startWorld))) (dailyCap production)
       (redisClient RunSpec.startWorld) = true /\
  counterUnreachable (redisClient exhausted)
  || limitReached (dateString ext (S (clock exhausted))) (dailyCap production)
       (redisClient exhausted) = true /\
  go RunSpec.startWorld /\ go exhausted.
Proof.
  cbn zeta.
  split; [discriminate|]. split; [reflexivity|]. split; [vm_compute; reflexivity|].
  split.
  - apply (C10_failed_preflight_keeps_context (RunSpec.scripted RunSpec.twoCallStub)
             production 5 "key" (InputObject [ ("prompt", "hello") ])
             DetectorSpec.emptyContext RunSpec.startWorld);
      [discriminate | reflexivity].
  - apply (C10_failed_preflight_keeps_context (RunSpec.scripted RunSpec.twoCallStub)
             production 5 "key" (InputObject [ ("prompt", "hello") ])
             DetectorSpec.emptyContext exhausted);
      [discriminate | vm_compute; reflexivity].
Defined.

(** The two error documents of the witness. *)
Example redis_error_document :
  fst (getAgent (RunSpec.scripted RunSpec.twoCallStub) production 5 "key"
         (InputObject [ ("prompt", "hello") ]) DetectorSpec.emptyContext RunSpec.startWorld)
  = Ok (Some (RedisError
                "Redis connection failed: No Redis URL provided. The agent cannot run without Redis. Please check your Redis configuration."
                DetectorSpec.emptyContext)).
Proof. vm_compute. reflexivity. Qed.

Example daily_limit_document :
  fst (getAgent (RunSpec.scripted RunSpec.twoCallStub) production 5 "key"
         (InputObject [ ("prompt", "hello") ]) DetectorSpec.emptyContext exhausted)
  = Ok (Some (DailyLimit
                "Daily run limit exceeded. Maximum 250 runs per day allowed. Please try again tomorrow."
                (Some 250%Z) (Some 250%Z) DetectorSpec.emptyContext)).
Proof. vm_compute. reflexivity. Qed.

End InvocationFacts.

(** ** More on objects *)

Section ObjectFoldFacts.
Context {V : Type}.

Lemma get_set (k k' : string) (v : V) (o : Obj.JsObject V) :
  Obj.get k (Obj.set k' v o) = if String.eqb k' k then Some v else Obj.get k o.
Proof.
  induction o as [|[k0 v0] o IH]; cbn.
  - destruct (String.eqb k' k); reflexivity.
  - destruct (String.eqb k0 k') eqn:H0; cbn.
    + apply String.eqb_eq in H0. subst k0.
      destruct (String.eqb k' k); reflexivity.
    + destruct (String.eqb k0 k) eqn:H1; [|exact IH].
      apply String.eqb_eq in H1. subst k0. rewrite String.eqb_sym, H0. reflexivity.
Qed.

Lemma length_set (k : string) (v : V) (o : Obj.JsObject V) :
  length (Obj.set k v o) <= S (length o).
Proof.
  induction o as [|[k0 v0] o IH]; cbn; [lia|].
  destruct (String.eqb k0 k); cbn; lia.
Qed.

Lemma get_None_keys (k : string) (o : Obj.JsObject V) :
  Obj.get k o = None <-> k ∉ Obj.keys o.
Proof.
  unfold Obj.keys. induction o as [|[k0 v0] o IH]; cbn.
  - split; [intros _ H; inversion H | reflexivity].
  - destruct (String.eqb k0 k) eqn:H0.
    + apply String.eqb_eq in H0. subst k0. split; [discriminate|].
      intros H. exfalso. apply H. apply list_elem_of_here.
    + apply String.eqb_neq in H0. rewrite IH. split.
      * intros Hn [->|H]%elem_of_cons; [congruence | exact (Hn H)].
      * intros Hn H. apply Hn. apply list_elem_of_further, H.
Qed.

Lemma NoDup_keys_set (k : string) (v : V) (o : Obj.JsObject V) :
  NoDup (Obj.keys o) -> NoDup (Obj.keys (Obj.set k v o)).
Proof.
  unfold Obj.keys. induction o as [|[k0 v0] o IH]; cbn; intros Hnd.
  - apply NoDup_singleton.
  - apply NoDup_cons in Hnd as [Hk0 Hnd].
    destruct (String.eqb k0 k) eqn:H0; cbn.
    + apply NoDup_cons. split; assumption.
    + apply NoDup_cons. split; [|apply IH, Hnd].
      intros Hin. apply Hk0.
      assert (k0 ∈ (list_to_set (map fst (Obj.set k v o)) : gset string)) as Hs
        by (apply elem_of_list_to_set, Hin).
      pose proof (keys_set_set k v o) as Heq. unfold Obj.keys in Heq.
      rewrite Heq in Hs. apply String.eqb_neq in H0.
      apply elem_of_union in Hs as [Hs|Hs].
      * apply elem_of_singleton in Hs. congruence.
      * apply elem_of_list_to_set in Hs. exact Hs.
Qed.

Lemma get_assign (k k' : string) (v : V) (o : Obj.JsObject V) :
  Obj.get k (Obj.assign k' v o) =
  if String.eqb k' Obj.protoKey then Obj.get k o
  else if String.eqb k' k then Some v else Obj.get k o.
Proof.
  unfold Obj.assign. destruct (String.eqb k' Obj.protoKey); [reflexivity | apply get_set].
Qed.

Lemma NoDup_keys_assign (k : string) (v : V) (o : Obj.JsObject V) :
  NoDup (Obj.keys o) -> NoDup (Obj.keys (Obj.assign k v o)).
Proof.
  unfold Obj.assign. destruct (String.eqb k Obj.protoKey); [auto | apply NoDup_keys_set].
Qed.

Lemma length_assign (k : string) (v : V) (o : Obj.JsObject V) :
  length (Obj.assign k v o) <= S (length o).
Proof.
  unfold Obj.assign. destruct (String.eqb k Obj.protoKey); [lia | apply length_set].
Qed.

Section Fold.
Context {X : Type} (key : X -> string) (val : X -> V).

Lemma get_setAll (k : string) (l : list X) (o : Obj.JsObject V) :
  Obj.get k (ObjSpec.setAll key val l o) =
  match last (List.filter (fun x => String.eqb (key x) k) l) with
  | Some x => Some (val x)
  | None => Obj.get k o
  end.
Proof.
  unfold ObjSpec.setAll. revert o.
  induction l as [|x l IH]; intros o; cbn [fold_left List.filter].
  - reflexivity.
  - rewrite IH, get_set. destruct (String.eqb (key x) k); [|reflexivity].
    rewrite last_cons. destruct (last (List.filter _ l)); reflexivity.
Qed.

Lemma keys_setAll (l : list X) (o : Obj.JsObject V) :
  list_to_set (Obj.keys (ObjSpec.setAll key val l o)) =@{gset string}
  list_to_set (Obj.keys o) ∪ list_to_set (map key l).
Proof.
  unfold ObjSpec.setAll. revert o. induction l as [|x l IH]; intros o; cbn [fold_left map].
  - set_solver.
  - rewrite IH, keys_set_set. set_solver.
Qed.

Lemma NoDup_setAll (l : list X) (o : Obj.JsObject V) :
  NoDup (Obj.keys o) -> NoDup (Obj.keys (ObjSpec.setAll key val l o)).
Proof.
  unfold ObjSpec.setAll. revert o. induction l as [|x l IH]; intros o Hnd; cbn [fold_left].
  - exact Hnd.
  - apply IH, NoDup_keys_set, Hnd.
Qed.

Lemma length_setAll (l : list X) (o : Obj.JsObject V) :
  length (ObjSpec.setAll key val l o) <= length o + length l.
Proof.
  unfold ObjSpec.setAll. revert o. induction l as [|x l IH]; intros o; cbn [fold_left length].
  - lia.
  - specialize (IH (Obj.set (key x) (val x) o)).
    pose proof (length_set (key x) (val x) o). lia.
Qed.

(** Under every name but [__proto__] a sequence of assignments leaves the
    value assigned last; under [__proto__] it leaves what was there. *)
Lemma get_assignAll (k : string) (l : list X) (o : Obj.JsObject V) :
  Obj.get k (ObjSpec.assignAll key val l o) =
  if String.eqb k Obj.protoKey then Obj.get k o
  else match last (List.filter (fun x => String.eqb (key x) k) l) with
       | Some x => Some (val x)
       | None => Obj.get k o
       end.
Proof.
  unfold ObjSpec.assignAll. revert o.
  induction l as [|x l IH]; intros o; cbn [fold_left List.filter].
  - destruct (String.eqb k Obj.protoKey); reflexivity.
  - rewrite IH, get_assign.
    destruct (String.eqb k Obj.protoKey) eqn:Hk.
    + apply String.eqb_eq in Hk. subst k.
      destruct (String.eqb (key x) Obj.protoKey); reflexivity.
    + destruct (String.eqb (key x) k) eqn:Hx.
      * apply String.eqb_eq in Hx. rewrite Hx, Hk, last_cons.
        destruct (last (List.filter _ l)); reflexivity.
      * destruct (String.eqb (key x) Obj.protoKey); reflexivity.
Qed.

Lemma keys_assignAll (l : list X) (o : Obj.JsObject V) :
  list_to_set (Obj.keys (ObjSpec.assignAll key val l o)) =@{gset string}
  list_to_set (Obj.keys o) ∪ list_to_set (ObjSpec.assignable (map key l)).
Proof.
  unfold ObjSpec.assignAll. revert o. induction l as [|x l IH]; intros o; cbn [fold_left map].
  - cbn. set_solver.
  - rewrite IH, keys_assign, (assignable_cons (key x) (map key l)).
    generalize (list_to_set (ObjSpec.assignable [key x]) : gset string).
    generalize (list_to_set (ObjSpec.assignable (map key l)) : gset string).
    set_solver.
Qed.

Lemma NoDup_assignAll (l : list X) (o : Obj.JsObject V) :
  NoDup (Obj.keys o) -> NoDup (Obj.keys (ObjSpec.assignAll key val l o)).
Proof.
  unfold ObjSpec.assignAll. revert o. induction l as [|x l IH]; intros o Hnd; cbn [fold_left].
  - exact Hnd.
  - apply IH, NoDup_keys_assign, Hnd.
Qed.

Lemma length_assignAll (l : list X) (o : Obj.JsObject V) :
  length (ObjSpec.assignAll key val l o) <= length o + length l.
Proof.
  unfold ObjSpec.assignAll. revert o.
  induction l as [|x l IH]; intros o; cbn [fold_left length].
  - lia.
  - specialize (IH (Obj.assign (key x) (val x) o)).
    pose proof (length_assign (key x) (val x) o). lia.
Qed.

End Fold.
End ObjectFoldFacts.

(** ** More on the compiler *)

Module CompilerMore.
Import OpenAPI Compiler CompilerSpec CompilerMoreSpec.

Lemma fold_left_flat_map {A B C} (f : C -> B -> C) (g : A -> list B) (l : list A) (c : C) :
  fold_left f (flat_map g l) c = fold_left (fun c x => fold_left f (g x) c) l c.
Proof.
  revert c. induction l as [|x l IH]; intros c; cbn [flat_map fold_left]; [reflexivity|].
  rewrite fold_left_app. apply IH.
Qed.

Lemma fold_left_omap {A B C} (f : C -> B -> C) (g : A -> option B) (l : list A) (c : C) :
  fold_left f (omap g l) c =
  fold_left (fun c x => match g x with Some y => f c y | None => c end) l c.
Proof.
  revert c. induction l as [|x l IH]; intros c; [reflexivity|].
  cbn. destruct (g x); cbn; apply IH.
Qed.

Lemma fold_left_ext {A C} (f g : C -> A -> C) (l : list A) (c : C) :
  (forall c x, f c x = g c x) -> fold_left f l c = fold_left g l c.
Proof.
  intros H. revert c. induction l as [|x l IH]; intros c; cbn [fold_left]; [reflexivity|].
  rewrite H. apply IH.
Qed.

(** [generateTools] assigns, operation by operation, the tool of the
    operation to the property named by its generated name. *)
Lemma generateTools_assignAll this :
  generateTools this =
  assignAll (nameOf this) (compiledTool this) (operations (spec this)) [].
Proof.
  unfold generateTools, assignAll, operations.
  rewrite fold_left_flat_map. apply fold_left_ext. intros tools [path [pathItem|]];
    cbn [fst snd fold_left]; [|reflexivity].
  unfold operationsOfItem. rewrite fold_left_omap. apply fold_left_ext.
  intros tools' m. unfold compileOperation.
  destruct (operationAt pathItem m) as [operation|]; reflexivity.
Qed.

(** X1. [generateTools] yields one tool per distinct generated name other
    than [__proto__]: its tool names are pairwise distinct, as a set they
    are the generated names of the operations of the description except
    [__proto__] (the assignment [tools['__proto__'] = ...] stores no tool),
    and under each of these names stands the tool of the last operation,
    in document order, that generates this name (an earlier operation with
    the same name is overwritten). *)
Theorem generateTools_last_operation_wins :
  forall (this : Converter),
    let tools := generateTools this in
    let ops := operations (spec this) in
    NoDup (Obj.keys tools) /\
    list_to_set (Obj.keys tools) =@{gset string}
      list_to_set (assignable (map (nameOf this) ops)) /\
    length tools <= length ops /\
    forall name : string,
      Obj.get name tools =
      if String.eqb name Obj.protoKey then None
      else compiledTool this <$> last (List.filter (namedBy this name) ops).
Proof.
  intros this tools ops. subst tools ops. rewrite generateTools_assignAll.
  split; [apply NoDup_assignAll, NoDup_nil_2|].
  split; [rewrite keys_assignAll; cbn [Obj.keys map list_to_set]; apply (left_id_L ∅ (∪))|].
  split; [apply (length_assignAll (nameOf this) (compiledTool this) _ [])|].
  intros name. rewrite get_assignAll. unfold namedBy. cbn [Obj.get].
  destruct (String.eqb name Obj.protoKey); [reflexivity|].
  destruct (last _); reflexivity.
Qed.

(** An operation whose summary is [__proto__] leaves no tool, with or
    without the extracted overrides. *)
Example proto_summary_leaves_no_tool :
  let operation :=
    {| op_summary := Some "__proto__"; op_description := None; op_operationId := None;
       op_parameters := None; op_requestBody := None; op_security := None |} in
  let d := singleGet "/widget" operation in
  createOpenApiTools d "" (Some (extractToolNames d)) = [] /\
  map (nameOf (specConverter d "")) (operations d) = [ "__proto__" ].
Proof. split; reflexivity. Qed.

(** Two operations with the same summary: the second replaces the first. *)
Example same_summary_collides :
  let d :=
    {| doc_servers := None;
       doc_paths :=
         Some [ ("/a", Some {| pi_get := Some widgetOperation; pi_post := None;
                               pi_put := None; pi_delete := None; pi_patch := None;
                               pi_parameters := None |});
                ("/b", Some {| pi_get := Some widgetOperation; pi_post := None;
                               pi_put := None; pi_delete := None; pi_patch := None;
                               pi_parameters := None |}) ];
       doc_security := None; doc_securitySchemes := None |} in
  map (fun kv => (fst kv, ex_path (execute (snd kv)))) (createOpenApiTools d "" None)
  = [ ("get_widget", "/b") ].
Proof. reflexivity. Qed.

(** The locals [properties] of [convertParametersToJsonSchema] as one
    sequence of assignments. *)
Lemma properties_schemaLocals ps requestBody :
  properties (schemaLocals ps requestBody) =
  assignAll fst (fun e => bodyProperty (fst e) (snd e)) (bodyEntries requestBody)
    (assignAll p_name convertParameterToJsonSchema ps [ (token, tokenSchema) ]).
Proof.
  unfold schemaLocals, addRequestBody, bodyEntries, assignAll.
  assert (forall l st,
            properties (fold_left addParameter l st)
            = fold_left (fun acc x => Obj.assign (p_name x) (convertParameterToJsonSchema x) acc)
                l (properties st)) as Hps.
  { induction l as [|x l IH]; intros st; cbn [fold_left]; [reflexivity|]. apply IH. }
  assert (forall req l st,
            properties (fold_left (addBodyProperty req) l st)
            = fold_left (fun acc e => Obj.assign (fst e) (bodyProperty (fst e) (snd e)) acc)
                l (properties st)) as Hbody.
  { intros req. induction l as [|[k v] l IH]; intros st; cbn [fold_left]; [reflexivity|].
    rewrite IH. reflexivity. }
  destruct (bodySchemaObject requestBody) as [schemaObj|].
  - case_bool_decide.
    + rewrite CompilerFacts.properties_addMissingRequired, Hbody, Hps. reflexivity.
    + rewrite Hbody, Hps. reflexivity.
  - cbn [fold_left]. rewrite Hps. reflexivity.
Qed.

(** X2. Which schema a property of the compiled parameter schema has.  No
    property is called [__proto__] (the assignment stores none).  Under
    every other name, a flattened body property shadows a declared
    parameter of the same name, which shadows the injected token property;
    among several entries with the same name the last one counts.  In
    particular the token property keeps its fixed schema exactly when no
    parameter and no body property is named [skyfire_kya_pay_token]. *)
Theorem schema_property_precedence :
  forall (ps : list ParameterObject) (requestBody : option RequestBodyObject) (name : string),
    Obj.get name (js_properties (convertParametersToJsonSchema ps requestBody)) =
    if String.eqb name Obj.protoKey then None
    else
      match last (List.filter (fun e => String.eqb (fst e) name) (bodyEntries requestBody)) with
      | Some e => Some (bodyProperty (fst e) (snd e))
      | None =>
          match last (List.filter (fun p => String.eqb (p_name p) name) ps) with
          | Some p => Some (convertParameterToJsonSchema p)
          | None => if String.eqb token name then Some tokenSchema else None
          end
      end.
Proof.
  intros ps requestBody name. unfold convertParametersToJsonSchema. cbn [js_properties].
  rewrite properties_schemaLocals, !get_assignAll. cbn [Obj.get].
  destruct (String.eqb name Obj.protoKey) eqn:Hname; [|reflexivity].
  apply String.eqb_eq in Hname. subst name. reflexivity.
Qed.



(** *** Overrides *)










End CompilerMore.

(** ** More on the usage counter *)

Module RedisMore.
Import Redis RedisSpec RedisMoreSpec.
Local Open Scope Z_scope.

(** *** Decimal numerals *)

Lemma digitsPrefix_digits d a :
  digitsPrefix (NilEmpty.string_of_uint d) (Some a) = Some (digitsValue d a).
Proof.
  revert a. induction d; intros a; cbn [NilEmpty.string_of_uint digitsPrefix digitsValue];
    try reflexivity; apply IHd.
Qed.

Lemma digitsValue_acc d acc :
  Z.pos (Pos.of_uint_acc d acc) = digitsValue d (Z.pos acc).
Proof.
  revert acc. induction d; intros acc; cbn [Pos.of_uint_acc digitsValue];
    try reflexivity; rewrite IHd; f_equal; lia.
Qed.

Lemma digitsValue_0 d : digitsValue d 0 = Z.of_N (Pos.of_uint d).
Proof.
  induction d; cbn [Pos.of_uint digitsValue]; try reflexivity;
    try exact IHd; cbn [Z.of_N]; rewrite digitsValue_acc; reflexivity.
Qed.

Lemma to_uint_not_Nil p : Pos.to_uint p <> Decimal.Nil.
Proof.
  intros H. pose proof (DecimalPos.Unsigned.of_to p) as Hp. rewrite H in Hp. discriminate.
Qed.

Lemma digitsPrefix_positive p :
  digitsPrefix (NilEmpty.string_of_uint (Pos.to_uint p)) None = Some (Z.pos p).
Proof.
  pose proof (DecimalPos.Unsigned.of_to p) as Hp.
  pose proof (to_uint_not_Nil p) as Hn.
  assert (digitsValue (Pos.to_uint p) 0 = Z.pos p) as Hv
    by (rewrite digitsValue_0, Hp; reflexivity).
  destruct (Pos.to_uint p) as [|l|l|l|l|l|l|l|l|l|l]; [congruence|..];
    cbn [NilEmpty.string_of_uint digitsPrefix];
    cbn [digitsValue] in Hv; rewrite <- Hv; apply digitsPrefix_digits.
Qed.

Lemma string_of_positive p :
  NilZero.string_of_uint (Pos.to_uint p) = NilEmpty.string_of_uint (Pos.to_uint p).
Proof.
  pose proof (to_uint_not_Nil p). destruct (Pos.to_uint p); [congruence|..]; reflexivity.
Qed.

Lemma first_digit_kept p :
  exists c s, NilEmpty.string_of_uint (Pos.to_uint p) = String c s /\
              Js.isDigit c = true.
Proof.
  pose proof (to_uint_not_Nil p).
  destruct (Pos.to_uint p); [congruence|..]; eexists _, _; split; reflexivity.
Qed.

Lemma parseInteger_digits c s :
  Js.isDigit c = true -> parseInteger (String c s) = digitsPrefix (String c s) None.
Proof.
  intros Hc. unfold parseInteger.
  assert (Js.isSpace c = false /\ c <> "-"%char /\ c <> "+"%char) as (Hs & Hm & Hp).
  { repeat split; [|intros ->; discriminate|intros ->; discriminate].
    destruct c as [[] [] [] [] [] [] [] []]; try discriminate; reflexivity. }
  cbn [Js.dropWhile]. rewrite Hs.
  destruct c as [[] [] [] [] [] [] [] []]; try reflexivity; congruence.
Qed.

(** The decimal rendering of an integer is read back by [parseInt], as
    the nearest number. *)
Lemma parseInteger_showZ z : parseInteger (showZ z) = Some z.
Proof.
  unfold showZ. destruct z as [|p|p]; [reflexivity|..];
    cbn [Z.to_int NilZero.string_of_int]; rewrite string_of_positive.
  - destruct (first_digit_kept p) as (c & s & Heq & Hc).
    rewrite <- (digitsPrefix_positive p), Heq. apply parseInteger_digits, Hc.
  - change (parseInteger (String "-" ?s)) with (Z.opp <$> digitsPrefix s None).
    rewrite digitsPrefix_positive. reflexivity.
Qed.

Lemma parseInt10_showZ z : parseInt10 (showZ z) = Some (toDouble z).
Proof. unfold parseInt10. rewrite parseInteger_showZ. reflexivity. Qed.

(** An integer of at most 53 bits is a number. *)
Lemma toDouble_small z : Z.abs z <= 2 ^ 53 -> toDouble z = z.
Proof.
  intros Hz. unfold toDouble. destruct (Z.leb_spec (Z.abs z) (2 ^ 53)); [reflexivity | lia].
Qed.

(** ... and accepted by INCR when it fits in 64 bits. *)
Lemma storedInt_showZ z :
  - 2 ^ 63 <= z <= 2 ^ 63 - 1 -> storedInt (showZ z) = Some z.
Proof.
  intros Hz. unfold storedInt, showZ.
  rewrite NilZero.isi.
  - cbn [fmap option_fmap option_map mbind option_bind].
    rewrite DecimalZ.of_to, String.eqb_refl.
    destruct (Z.leb_spec (- 2 ^ 63) z); [|lia].
    destruct (Z.leb_spec z (2 ^ 63 - 1)); [|lia]. reflexivity.
  - destruct z; cbn; [discriminate| |discriminate].
    intros [= H]. exact (to_uint_not_Nil _ H).
  - destruct z; cbn; [discriminate|discriminate|].
    intros [= H]. exact (to_uint_not_Nil _ H).
Qed.

(** *** The counter *)

Ltac run_counter :=
  unfold incrementDailyRunCounter, checkDailyRunLimit, getCurrentDailyUsage,
    checkRedisConnection, mbind, M_bind, mret, M_ret, ask, mtry, onRedis, incr, expire,
    get, ping, client;
  cbn.

Lemma increment_first today st fl cmds cerr :
  st !! usageKey today = None ->
  incrementDailyRunCounter today (client st fl cmds cerr) =
  (Ok 1, client (<[usageKey today := {| value := "1"; ttl := Some 86400 |}]> st) fl
           (cmds ++ [ INCR (usageKey today); EXPIRE (usageKey today) 86400 ]) cerr).
Proof.
  intros Hfresh. run_counter. rewrite Hfresh. cbn.
  rewrite lookup_insert_eq, insert_insert_eq. unfold withStore, sent. cbn.
  rewrite <- app_assoc. reflexivity.
Qed.

Lemma increment_next today st fl cmds cerr e n :
  st !! usageKey today = Some e ->
  storedInt (value e) = Some n ->
  1 <= n < 2 ^ 53 ->
  incrementDailyRunCounter today (client st fl cmds cerr) =
  (Ok (n + 1),
   client (<[usageKey today := {| value := showZ (n + 1); ttl := ttl e |}]> st) fl
     (cmds ++ [ INCR (usageKey today) ]) cerr).
Proof.
  intros He Hn Hrange. run_counter. rewrite He. cbn. rewrite Hn.
  destruct (Z.ltb_spec n (2 ^ 63 - 1)) as [_|]; [|lia]. cbn.
  rewrite toDouble_small by lia.
  destruct (Z.eqb_spec (n + 1) 1) as [|_]; [lia|]. unfold withStore, sent. reflexivity.
Qed.

Lemma increments_from today fl cerr j :
  forall st cmds (n : nat) t,
    st !! usageKey today = Some {| value := showZ (Z.of_nat n); ttl := t |} ->
    (1 <= n)%nat ->
    Z.of_nat (n + j) <= 2 ^ 53 ->
    increments j today (client st fl cmds cerr) =
    (Ok (Z.of_nat <$> seq (S n) j),
     client (<[usageKey today := {| value := showZ (Z.of_nat (n + j)); ttl := t |}]> st) fl
       (cmds ++ replicate j (INCR (usageKey today))) cerr).
Proof.
  induction j as [|j IH]; intros st cmds n t Hst Hn Hj.
  - cbn [increments seq replicate fmap list_fmap].
    rewrite Nat.add_0_r, app_nil_r, insert_id by exact Hst. reflexivity.
  - cbn [increments]. unfold mbind at 1, M_bind at 1.
    rewrite (increment_next today st fl cmds cerr _ (Z.of_nat n) Hst);
      [|cbn [value]; apply storedInt_showZ; lia|lia].
    cbn [ttl]. replace (Z.of_nat n + 1) with (Z.of_nat (S n)) by lia.
    unfold mbind at 1, M_bind at 1.
    rewrite (IH _ _ (S n) t); [|apply lookup_insert_eq|lia|lia].
    rewrite insert_insert_eq, <- app_assoc.
    replace (S n + j)%nat with (n + S j)%nat by lia. reflexivity.
Qed.

(** X5. The counter counts.  Starting from a store that answers and has
    no entry for the date, [k] calls of [incrementDailyRunCounter], for
    [k] up to 2^53, return 1, 2, ..., [k]; afterwards the entry holds the decimal numeral of [k]
    with the expiry of 86400 seconds set by the first call, no other key
    has changed, and EXPIRE was sent once.  [checkDailyRunLimit] then reads
    the count [k] back and reports the limit as exceeded exactly when the
    cap is a number not greater than [k]. *)
Theorem increments_are_counted :
  forall (today : string) (c : Client) (s : Server) (k : nat) (dailyCap : option Z),
    redis c = Some s ->
    reachable s = true ->
    store s !! usageKey today = None ->
    (0 < k)%nat ->
    Z.of_nat k <= 2 ^ 53 ->
    exists c' s' c'' limit,
      increments k today c = (Ok (Z.of_nat <$> seq 1 k), c') /\
      redis c' = Some s' /\
      store s' = <[usageKey today := {| value := showZ (Z.of_nat k); ttl := Some 86400 |}]>
                   (store s) /\
      commands s' = commands s ++ INCR (usageKey today) :: EXPIRE (usageKey today) 86400
                                  :: replicate (k - 1) (INCR (usageKey today)) /\
      checkDailyRunLimit today dailyCap c' = (Ok limit, c'') /\
      limitExceeded limit = geNum (Some (Z.of_nat k)) dailyCap /\
      currentUsage limit = Some (Z.of_nat k).
Proof.
  intros today [r cerr] [st up fl cmds] k dailyCap Hc Hup Hfresh Hk Hrange.
  cbn in Hc, Hup, Hfresh. subst r up. destruct k as [|k]; [lia|].
  set (key := usageKey today) in *.
  pose (st1 := <[key := {| value := "1"; ttl := Some 86400 |}]> st).
  pose (stk := <[key := {| value := showZ (Z.of_nat (S k)); ttl := Some 86400 |}]> st).
  pose (cmdsk := (cmds ++ [ INCR key; EXPIRE key 86400 ]) ++ replicate k (INCR key)).
  assert (increments (S k) today (client st fl cmds cerr)
          = (Ok (Z.of_nat <$> seq 1 (S k)), client stk fl cmdsk cerr)) as Hrun.
  { cbn [increments]. unfold mbind at 1, M_bind at 1.
    rewrite (increment_first today st fl cmds cerr Hfresh). fold key.
    unfold mbind at 1, M_bind at 1.
    rewrite (increments_from today fl cerr k _ _ 1%nat (Some 86400));
      [|apply lookup_insert_eq|lia|lia].
    fold key. rewrite insert_insert_eq. reflexivity. }
  assert (Js.truthyStr (value <$> stk !! key) = Some (showZ (Z.of_nat (S k)))) as Hread.
  { subst stk. rewrite lookup_insert_eq. cbn [fmap option_fmap option_map value].
    pose proof (parseInt10_showZ (Z.of_nat (S k))) as Hp.
    destruct (showZ (Z.of_nat (S k))); [discriminate Hp | reflexivity]. }
  assert (checkDailyRunLimit today dailyCap (client stk fl cmdsk cerr)
          = (Ok {| limitExceeded := geNum (Some (Z.of_nat (S k))) dailyCap;
                   lr_error := None; currentUsage := Some (Z.of_nat (S k)) |},
             client stk fl (cmdsk ++ [ GET key ]) cerr)) as Hcheck.
  { run_counter. fold key. rewrite Hread, parseInt10_showZ, toDouble_small by lia.
    unfold sent. cbn. destruct (geNum (Some (Z.of_nat (S k))) dailyCap) eqn:Hge;
      cbn in Hge |- *; rewrite ?Hge; reflexivity. }
  exists (client stk fl cmdsk cerr),
         {| store := stk; reachable := true; failure := fl; commands := cmdsk |}.
  eexists. eexists.
  split; [exact Hrun|]. split; [reflexivity|]. split; [reflexivity|].
  split; [cbn; subst cmdsk; rewrite <- app_assoc, Nat.sub_0_r; reflexivity|].
  split; [exact Hcheck|]. split; reflexivity.
Qed.

Lemma increments_are_counted_witness :
  let c := {| redis := Some emptyServer; redisConnectionError := None |} in
  exists c' s' c'' limit,
    increments 3 "2025-06-01" c = (Ok [1; 2; 3], c') /\
    redis c' = Some s' /\
    store s' = <[usageKey "2025-06-01" := {| value := "3"; ttl := Some 86400 |}]> ∅ /\
    commands s' = [ INCR (usageKey "2025-06-01"); EXPIRE (usageKey "2025-06-01") 86400;
                    INCR (usageKey "2025-06-01"); INCR (usageKey "2025-06-01") ] /\
    checkDailyRunLimit "2025-06-01" (Some 3) c' = (Ok limit, c'') /\
    limitExceeded limit = true /\
    currentUsage limit = Some 3.
Proof.
  apply (increments_are_counted "2025-06-01"
           {| redis := Some emptyServer; redisConnectionError := None |} emptyServer 3 (Some 3));
    [reflexivity | reflexivity | reflexivity | lia | lia].
Defined.

Lemma increment_total today c :
  exists n c', incrementDailyRunCounter today c = (Ok n, c').
Proof.
  destruct c as [[[st up fl cmds]|] cerr]; [destruct up|]; run_counter;
    try (eexists; eexists; reflexivity).
  destruct (st !! usageKey today) as [e|]; cbn.
  - destruct (storedInt (value e)) as [n|]; cbn; [|eexists; eexists; reflexivity].
    destruct (n <? 2 ^ 63 - 1); cbn; [|eexists; eexists; reflexivity].
    destruct (toDouble (n + 1) =? 1); cbn; [|eexists; eexists; reflexivity].
    rewrite lookup_insert_eq. cbn. eexists; eexists; reflexivity.
  - rewrite lookup_insert_eq. cbn. eexists; eexists; reflexivity.
Qed.

(** X6. [checkDailyRunLimit] never throws and never changes a stored
    value.  It reports the limit as exceeded exactly when the store answers
    and the count read for the date is a number that has reached the cap;
    when there is no client or the store does not answer it lets the run
    pass, with an error text and a usage of 0.  [getCurrentDailyUsage]
    returns the same usage. *)
Theorem checkDailyRunLimit_fails_open :
  forall (today : string) (dailyCap : option Z) (c : Client),
    exists limit c',
      checkDailyRunLimit today dailyCap c = (Ok limit, c') /\
      store <$> redis c' = store <$> redis c /\
      limitExceeded limit = InvocationSpec.limitReached today dailyCap c /\
      (InvocationSpec.counterUnreachable c = true ->
       limitExceeded limit = false /\ lr_error limit <> None /\
       currentUsage limit = Some 0) /\
      getCurrentDailyUsage today c = (Ok (currentUsage limit), c').
Proof.
  intros today dailyCap [[[st up fl cmds]|] cerr];
    unfold InvocationSpec.limitReached, InvocationSpec.counterUnreachable,
      InvocationSpec.usageOn; cbn [redis reachable store].
  - destruct up.
    + run_counter.
      destruct (geNum _ dailyCap) eqn:Hge; cbn in Hge |- *; rewrite ?Hge;
        (eexists; eexists; split; [reflexivity|]);
        (split; [reflexivity|]); (split; [reflexivity|]);
        (split; [discriminate | reflexivity]).
    + run_counter. eexists. eexists. split; [reflexivity|].
      split; [reflexivity|]. split; [reflexivity|].
      split; [|reflexivity]. intros _. repeat split. discriminate.
  - run_counter. eexists. eexists. split; [reflexivity|].
    split; [reflexivity|]. split; [reflexivity|].
    split; [|reflexivity]. intros _. repeat split. discriminate.
Qed.

(** A store that does not answer: the run passes the limit check. *)
Lemma checkDailyRunLimit_fails_open_witness :
  let c := {| redis := Some {| store := {[ usageKey "2025-06-01" :=
                                             {| value := "999"; ttl := None |} ]};
                               reachable := false;
                               failure := ErrorObj "Connection is closed.";
                               commands := [] |};
              redisConnectionError := None |} in
  exists limit c',
    checkDailyRunLimit "2025-06-01" (Some 250) c = (Ok limit, c') /\
    store <$> redis c' = store <$> redis c /\
    limitExceeded limit = false /\
    lr_error limit = Some "Connection is closed." /\
    currentUsage limit = Some 0 /\
    getCurrentDailyUsage "2025-06-01" c = (Ok (Some 0), c').
Proof.
  cbn zeta.
  destruct (checkDailyRunLimit_fails_open "2025-06-01" (Some 250)
              {| redis := Some {| store := {[ usageKey "2025-06-01" :=
                                                {| value := "999"; ttl := None |} ]};
                                  reachable := false;
                                  failure := ErrorObj "Connection is closed.";
                                  commands := [] |};
                 redisConnectionError := None |})
    as (limit & c' & Hrun & Hstore & _ & Hopen & Husage).
  destruct (Hopen eq_refl) as (Hlimit & _ & Hzero).
  exists limit, c'. split; [exact Hrun|]. split; [exact Hstore|]. split; [exact Hlimit|].
  split; [|split; [exact Hzero | rewrite <- Hzero; exact Husage]].
  vm_compute in Hrun. injection Hrun as <- _. reflexivity.
Defined.

(** X7. [incrementDailyRunCounter] never throws.  When there is no
    client, the store does not answer, or the stored value is not an
    integer that INCR can increase, it returns 1 (the count of a first run)
    and sends no EXPIRE; the stored values are as before. *)
Theorem failed_increment_reports_one :
  forall (today : string) (c : Client),
    InvocationSpec.counterUnreachable c = true \/
    (exists s e, redis c = Some s /\ store s !! usageKey today = Some e /\
                 (storedInt (value e) = None \/ storedInt (value e) = Some (2 ^ 63 - 1))) ->
    exists c',
      incrementDailyRunCounter today c = (Ok 1, c') /\
      store <$> redis c' = store <$> redis c /\
      (forall s s', redis c = Some s -> redis c' = Some s' ->
                    commands s' = commands s ++ [ INCR (usageKey today) ]).
Proof.
  intros today [[[st up fl cmds]|] cerr] H;
    unfold InvocationSpec.counterUnreachable in H; cbn [redis reachable] in H.
  - destruct up.
    + destruct H as [H|(s & e & [= <-] & He & Hv)]; [discriminate|]. cbn [store] in He.
      run_counter. rewrite He. cbn.
      destruct Hv as [-> | ->]; cbn;
        (eexists; split; [reflexivity|]; split; [reflexivity|]);
        intros s s' [= <-] [= <-]; reflexivity.
    + run_counter. eexists. split; [reflexivity|]. split; [reflexivity|].
      intros s s' [= <-] [= <-]. reflexivity.
  - run_counter. eexists. split; [reflexivity|]. split; [reflexivity|].
    intros s s' [=].
Qed.

(** A counter that holds a text which is not a number. *)
Lemma failed_increment_reports_one_witness :
  let c := client {[ usageKey "2025-06-01" := {| value := "many"; ttl := None |} ]}
             NonError [] None in
  exists c',
    incrementDailyRunCounter "2025-06-01" c = (Ok 1, c') /\
    store <$> redis c' = store <$> redis c /\
    (forall s s', redis c = Some s -> redis c' = Some s' ->
                  commands s' = commands s ++ [ INCR (usageKey "2025-06-01") ]).
Proof.
  apply (failed_increment_reports_one "2025-06-01"). right.
  eexists. exists {| value := "many"; ttl := None |}.
  split; [reflexivity|]. split; [reflexivity|]. left. reflexivity.
Defined.

End RedisMore.

(** ** More on the invocation *)

Module InvocationMore.
Import Agent InvocationSpec.

Ltac run_preflight :=
  unfold preflight, onCounter, today, Redis.checkRedisConnection, Redis.checkDailyRunLimit,
    Redis.incrementDailyRunCounter, mbind, M_bind, mret, M_ret, ask, mtry, Redis.onRedis,
    Redis.ping, Redis.get, Redis.incr, Redis.expire;
  cbn.

(** X8. Without a Redis URL in the environment the module has no client,
    and outside test mode every invocation is refused with the Redis error
    document that names the missing URL: no round is started and nothing
    is counted. *)
Theorem missing_url_refuses_every_run :
  forall (ext : Externals) (env : ProcessEnv) (renv : Redis.RedisEnv)
         (construct : string -> Result Redis.Server)
         (fuel : nat) (apiKey : string) (input : Input) (agentContext : AgentContext)
         (time : nat) (evs : list Event),
    TEST_MODE env <> Some "true" ->
    Js.truthyStr (Redis.getRedisUrl renv) = None ->
    let w := {| redisClient := Redis.loadModule renv construct; clock := time;
                events := evs |} in
    exists w',
      getAgent ext env fuel apiKey input agentContext w =
      (Ok (Some (RedisError
                   ("Redis connection failed: No Redis URL provided" +:+
                    ". The agent cannot run without Redis. Please check your Redis configuration.")
                   agentContext)), w') /\
      redisClient w' = redisClient w /\ events w' = evs.
Proof.
  intros ext env renv construct fuel apiKey input agentContext time evs Htest Hurl w.
  subst w. unfold Redis.loadModule. rewrite Hurl.
  unfold getAgent. rewrite RunFacts.bind_apply.
  unfold preflight. case_bool_decide; [contradiction|]. cbn [negb].
  run_preflight. eexists. split; [reflexivity|]. split; reflexivity.
Qed.

Lemma missing_url_refuses_every_run_witness :
  let renv := {| Redis.RENDER := None; Redis.NODE_ENV := Some "production";
                 Redis.REDIS_URL_PROD := None;
                 Redis.REDIS_URL_LOCAL := Some "redis://localhost:6379";
                 Redis.REDIS_URL := Some "" |} in
  exists w',
    getAgent (RunSpec.scripted RunSpec.twoCallStub) production 5 "key"
      (InputObject [ ("prompt", "hello") ]) DetectorSpec.emptyContext
      {| redisClient := Redis.loadModule renv (fun _ => Ok RedisSpec.emptyServer);
         clock := 0; events := [] |}
    = (Ok (Some (RedisError
                   "Redis connection failed: No Redis URL provided. The agent cannot run without Redis. Please check your Redis configuration."
                   DetectorSpec.emptyContext)), w') /\
    redisClient w' = Redis.loadModule renv (fun _ => Ok RedisSpec.emptyServer) /\
    events w' = [].
Proof.
  cbn zeta.
  refine (missing_url_refuses_every_run (RunSpec.scripted RunSpec.twoCallStub) production
            _ (fun _ => Ok RedisSpec.emptyServer) 5 "key" (InputObject [ ("prompt", "hello") ])
            DetectorSpec.emptyContext 0 [] _ _); [discriminate | reflexivity].
Defined.

(** X9. A cap or a stored count that is not a number switches the daily
    limit off: when the store answers and [DAILY_RUN_CAP] does not start
    with a number, or the value stored for the date does not, both
    comparisons with [NaN] are false and the checks before the run pass,
    whatever the count is. *)
Theorem unreadable_number_disables_limit :
  forall (ext : Externals) (env : ProcessEnv) (agentContext : AgentContext)
         (w : World) (s : Redis.Server),
    TEST_MODE env <> Some "true" ->
    Redis.redis (redisClient w) = Some s ->
    Redis.reachable s = true ->
    dailyCap env = None \/ usageOn (dateString ext (S (clock w))) s = None ->
    exists w', preflight ext env agentContext w = (Ok None, w').
Proof.
  intros ext env agentContext [[r cerr] clk evs] [st up fl cmds] Htest Hr Hup Hnan.
  cbn in Hr, Hup, Hnan. subst r up.
  unfold preflight. case_bool_decide; [contradiction|]. cbn [negb].
  unfold dailyCap, usageOn in Hnan. cbn [Redis.store] in Hnan.
  unfold onCounter, today, Redis.checkRedisConnection, Redis.checkDailyRunLimit,
    mbind, M_bind, mret, M_ret, ask, mtry, Redis.onRedis, Redis.ping, Redis.get.
  cbn.
  assert (Redis.geNum
            match Js.truthyStr (Redis.value <$> st !! Redis.usageKey (dateString ext (S clk))) with
            | Some v => Redis.parseInt10 v
            | None => Some 0%Z
            end
            (Redis.parseInt10 (Js.orElse (DAILY_RUN_CAP env) "250")) = false) as Hge.
  { destruct Hnan as [-> | ->]; [|reflexivity].
    destruct (match Js.truthyStr _ with Some v => _ | None => _ end); reflexivity. }
  rewrite Hge. cbn.
  match goal with
  | |- context [Redis.incrementDailyRunCounter ?d ?c] =>
      destruct (RedisMore.increment_total d c) as (n & c' & ->)
  end.
  eexists. reflexivity.
Qed.

Lemma unreadable_number_disables_limit_witness :
  let env := {| SKYFIRE_API_KEY := None; SKYFIRE_MCP_URL := None; TEST_MODE := None;
                DAILY_RUN_CAP := Some "unlimited" |} in
  dailyCap env = None /\
  limitReached "2025-06-01" (dailyCap production) (redisClient exhausted) = true /\
  exists w',
    preflight (RunSpec.scripted RunSpec.twoCallStub) env DetectorSpec.emptyContext exhausted
    = (Ok None, w').
Proof.
  cbn zeta. split; [reflexivity|]. split; [vm_compute; reflexivity|].
  refine (unreadable_number_disables_limit (RunSpec.scripted RunSpec.twoCallStub) _
            DetectorSpec.emptyContext exhausted _ _ eq_refl eq_refl _);
    [discriminate | left; reflexivity].
Defined.

Lemma preflight_context ext env ctx ctx' w :
  match preflight ext env ctx w with
  | (Ok None, w') => preflight ext env ctx' w = (Ok None, w')
  | (Ok (Some document), w') =>
      exists document',
        preflight ext env ctx' w = (Ok (Some document'), w') /\
        documentContext document = ctx /\ documentContext document' = ctx'
  | (Throw e, w') => preflight ext env ctx' w = (Throw e, w')
  end.
Proof.
  unfold preflight. case_bool_decide; cbn [negb]; [reflexivity|].
  rewrite !RunFacts.bind_apply.
  destruct (onCounter Redis.checkRedisConnection w) as [[status|e] w1]; [|reflexivity].
  destruct (negb (Redis.connected status)).
  { rewrite !RunFacts.ret_apply. eexists. split; [reflexivity|]. split; reflexivity. }
  rewrite !RunFacts.bind_apply.
  destruct (today ext w1) as [[date|e] w2]; [|reflexivity].
  rewrite !RunFacts.bind_apply.
  destruct (onCounter (Redis.checkDailyRunLimit date _) w2) as [[limit|e] w3]; [|reflexivity].
  destruct (Redis.limitExceeded limit).
  { rewrite !RunFacts.ret_apply. eexists. split; [reflexivity|]. split; reflexivity. }
  rewrite !RunFacts.bind_apply.
  destruct (today ext w3) as [[date'|e] w4]; [|reflexivity].
  rewrite !RunFacts.bind_apply.
  destruct (onCounter (Redis.incrementDailyRunCounter date') w4) as [[n|e] w5]; reflexivity.
Qed.

(** X10. The context the caller passes does not reach the run: whenever
    the checks before the run let the invocation pass, [getAgent] gives
    the same result and leaves the same state for any two contexts, and
    the run starts from the fresh context with the system prompt as only
    message. *)
Theorem passed_context_is_discarded :
  forall (ext : Externals) (env : ProcessEnv) (fuel : nat) (apiKey : string)
         (input : Input) (agentContext agentContext' : AgentContext) (w w1 : World),
    preflight ext env agentContext w = (Ok None, w1) ->
    getAgent ext env fuel apiKey input agentContext' w =
    getAgent ext env fuel apiKey input agentContext w.
Proof.
  intros ext env fuel apiKey input ctx ctx' w w1 Hpre.
  pose proof (preflight_context ext env ctx ctx' w) as H. rewrite Hpre in H.
  unfold getAgent. rewrite !RunFacts.bind_apply, Hpre, H. reflexivity.
Qed.

Lemma passed_context_is_discarded_witness :
  let env := {| SKYFIRE_API_KEY := None; SKYFIRE_MCP_URL := Some RunSpec.skyfire;
                TEST_MODE := Some "true"; DAILY_RUN_CAP := None |} in
  let ext := RunSpec.scripted RunSpec.twoCallStub in
  getAgent ext env 5 "key" (InputObject [ ("prompt", "hello") ]) DetectorSpec.twoMountsContext
    RunSpec.startWorld =
  getAgent ext env 5 "key" (InputObject [ ("prompt", "hello") ]) DetectorSpec.emptyContext
    RunSpec.startWorld.
Proof.
  cbn zeta.
  apply (passed_context_is_discarded _ _ 5 "key" _ DetectorSpec.emptyContext
           DetectorSpec.twoMountsContext RunSpec.startWorld RunSpec.startWorld).
  reflexivity.
Defined.

End InvocationMore.

(** ** More on the registry *)

Module RegistryMore.
Import Agent DetectorSpec RunSpec RunMoreSpec RunFacts.

Lemma keys_spread {V} (a b : Obj.JsObject V) :
  list_to_set (Obj.keys (Obj.spread a b)) =@{gset string}
  list_to_set (Obj.keys a) ∪ list_to_set (Obj.keys b).
Proof. apply (keys_setAll fst snd b a). Qed.

Lemma NoDup_spread {V} (a b : Obj.JsObject V) :
  NoDup (Obj.keys a) -> NoDup (Obj.keys (Obj.spread a b)).
Proof. apply (NoDup_setAll fst snd b a). Qed.

Lemma toolsGrow_spread (a b : Registry) : toolsGrow a (Obj.spread a b).
Proof.
  split; [apply NoDup_spread|].
  intros k Hk. pose proof (keys_spread a b) as H.
  assert (k ∈ (list_to_set (Obj.keys (Obj.spread a b)) : gset string)) as Hin
    by (rewrite H; apply elem_of_union_l, elem_of_list_to_set, Hk).
  apply elem_of_list_to_set in Hin. exact Hin.
Qed.

Lemma toolsGrow_refl a : toolsGrow a a.
Proof. split; auto. Qed.

Lemma toolsGrow_trans a b c : toolsGrow a b -> toolsGrow b c -> toolsGrow a c.
Proof. intros [H1 H2] [H3 H4]. split; auto. Qed.

Lemma resourcesAdded_refl ctx : resourcesAdded ctx ctx.
Proof. repeat split. exists []. cbn. rewrite app_nil_r. reflexivity. Qed.

Lemma resourcesAdded_trans a b c :
  resourcesAdded a b -> resourcesAdded b c -> resourcesAdded a c.
Proof.
  intros (H1 & H2 & H3 & t1 & H4) (H5 & H6 & H7 & t2 & H8).
  repeat split; try congruence.
  exists (t1 ++ t2). rewrite H8, H4, map_app, app_assoc. reflexivity.
Qed.

(** What a loop keeps, from what each of its rounds keeps. *)
Lemma forEachM_keeps {S A B} (f : B -> A -> M S B) (R : B -> B -> Prop) (RS : S -> S -> Prop) :
  (forall b, R b b) -> (forall a b c, R a b -> R b c -> R a c) ->
  (forall s, RS s s) -> (forall a b c, RS a b -> RS b c -> RS a c) ->
  (forall b x s, RS s (snd (f b x s)) /\
                 forall b', fst (f b x s) = Ok b' -> R b b') ->
  forall l b s, RS s (snd (forEachM f l b s)) /\
                forall b', fst (forEachM f l b s) = Ok b' -> R b b'.
Proof.
  intros Rrefl Rtrans Srefl Strans Hf. induction l as [|x l IH]; intros b s; cbn [forEachM].
  - rewrite ret_apply. cbn. split; [apply Srefl|]. intros b' [= <-]. apply Rrefl.
  - rewrite bind_apply. destruct (Hf b x s) as [Hs Hb].
    destruct (f b x s) as [[b1|e] s1]; cbn [fst snd] in *.
    + destruct (IH b1 s1) as [Hs' Hb']. split; [eapply Strans; eassumption|].
      intros b' Hok. eapply Rtrans; [apply Hb; reflexivity | apply Hb', Hok].
    + split; [exact Hs|]. discriminate.
Qed.

Section WithExternals.
Variable ext : Externals.

Lemma addSpecTools_keeps allTools ref w :
  redisClient (snd (addSpecTools ext allTools ref w)) = redisClient w /\
  forall allTools', fst (addSpecTools ext allTools ref w) = Ok allTools' ->
                    toolsGrow allTools allTools'.
Proof.
  unfold addSpecTools. rewrite bind_apply. unfold call, logged.
  destruct (fetchSpec ext (clock w) (spec_url ref)) as [d|e]; cbn.
  - split; [reflexivity|]. intros t [= <-]. apply toolsGrow_spread.
  - split; [reflexivity|]. discriminate.
Qed.

Lemma connectServer_keeps st server w :
  redisClient (snd (connectServer ext st server w)) = redisClient w /\
  forall st', fst (connectServer ext st server w) = Ok st' ->
              toolsGrow (fst st) (fst st') /\ resourcesAdded (snd st) (snd st').
Proof.
  unfold connectServer. destruct st as [allTools agentContext].
  rewrite bind_apply. unfold call, logged.
  destruct (mcpTools ext (clock w) server) as [toolSet|e]; cbn.
  - split; [reflexivity|]. intros st' [= <-]. cbn [fst snd].
    split; [apply toolsGrow_spread|].
    repeat split. eexists. reflexivity.
  - split; [reflexivity|]. discriminate.
Qed.



(** The registry build in one piece: what it returns and what it leaves. *)
Lemma prepareAllTools_keeps agentContext w :
  redisClient (snd (prepareAllTools ext agentContext w)) = redisClient w /\
  forall allTools agentContext',
    fst (prepareAllTools ext agentContext w) = Ok (allTools, agentContext') ->
    resourcesAdded agentContext agentContext' /\
    exists unfiltered,
      allTools = validTools unfiltered /\ toolsGrow builtInTools unfiltered.
Proof.
  unfold prepareAllTools. rewrite bind_apply.
  destruct (forEachM_keeps (addSpecTools ext) toolsGrow
              (fun w w' => redisClient w' = redisClient w)
              toolsGrow_refl toolsGrow_trans (fun _ => eq_refl)
              (fun a b c H1 H2 => eq_trans H2 H1)
              addSpecTools_keeps (openApiSpecs agentContext) builtInTools w) as [Hs1 Hb1].
  destruct (forEachM (addSpecTools ext) _ builtInTools w) as [[t1|e] w1]; cbn [fst snd] in *;
    [|split; [exact Hs1 | discriminate]].
  rewrite bind_apply.
  destruct (filterServers _) as [mcpServers|e]; [|split; [exact Hs1 | discriminate]].
  rewrite bind_apply.
  destruct (forEachM_keeps (connectServer ext)
              (fun st st' => toolsGrow (fst st) (fst st') /\ resourcesAdded (snd st) (snd st'))
              (fun w w' => redisClient w' = redisClient w)
              (fun st => conj (toolsGrow_refl _) (resourcesAdded_refl _))
              (fun a b c H1 H2 =>
                 conj (toolsGrow_trans _ _ _ (proj1 H1) (proj1 H2))
                      (resourcesAdded_trans _ _ _ (proj2 H1) (proj2 H2)))
              (fun _ => eq_refl) (fun a b c H1 H2 => eq_trans H2 H1)
              connectServer_keeps mcpServers (t1, agentContext) w1) as [Hs2 Hb2].
  destruct (forEachM (connectServer ext) mcpServers _ w1) as [[[t2 ctx2]|e] w2];
    cbn [fst snd] in *; [|split; [congruence | discriminate]].
  rewrite ret_apply. cbn [fst snd]. split; [congruence|].
  intros allTools ctx' [= <- <-]. destruct (Hb2 _ eq_refl) as [Hg Hr]. cbn [fst snd] in *.
  split; [exact Hr|]. exists t2. split; [reflexivity|].
  eapply toolsGrow_trans; [apply Hb1; reflexivity | exact Hg].
Qed.


(** X12. A registry build changes the context only by appending system
    messages (the resource texts) to the history: the servers, the mounted
    server and the description references stay as they are. *)
Theorem registry_build_only_adds_resources :
  forall (agentContext agentContext' : AgentContext) (w w' : World) (allTools : Registry),
    prepareAllTools ext agentContext w = (Ok (allTools, agentContext'), w') ->
    resourcesAdded agentContext agentContext'.
Proof.
  intros ctx ctx' w w' allTools Hrun.
  destruct (prepareAllTools_keeps ctx w) as [_ H]. rewrite Hrun in H.
  apply (H _ _ eq_refl).
Qed.

(** *** Which servers are connected to *)

Lemma newEvents_app w w' evs :
  events w' = events w ++ evs -> newEvents w w' = evs.
Proof. intros H. unfold newEvents. rewrite H. apply drop_app_length. Qed.

Lemma addSpecs_no_connect refs allTools w :
  exists evs,
    events (snd (forEachM (addSpecTools ext) refs allTools w)) = events w ++ evs /\
    forall u, ConnectServer u ∉ evs.
Proof.
  revert allTools w. induction refs as [|ref refs IH]; intros allTools w; cbn [forEachM].
  - exists []. rewrite app_nil_r. split; [reflexivity|]. intros u H. inversion H.
  - rewrite bind_apply. pose proof (addSpecTools_events ext allTools ref w) as H1.
    destruct (addSpecTools ext allTools ref w) as [[tools1|e] w1]; cbn [snd] in H1.
    + destruct (IH tools1 w1) as (evs & H2 & Hno).
      exists (FetchSpec (spec_url ref) :: evs). rewrite H2, H1, <- app_assoc.
      split; [reflexivity|]. intros u [Hu|Hu]%elem_of_cons; [discriminate | exact (Hno u Hu)].
    + exists [ FetchSpec (spec_url ref) ]. cbn [snd]. split; [exact H1|].
      intros u [Hu|Hu]%elem_of_cons; [discriminate | inversion Hu].
Qed.

Lemma connectServers_connect servers st w :
  exists evs,
    events (snd (forEachM (connectServer ext) servers st w)) = events w ++ evs /\
    forall u, ConnectServer u ∈ evs -> exists server, server ∈ servers /\ url server = u.
Proof.
  revert st w. induction servers as [|server servers IH]; intros st w; cbn [forEachM].
  - exists []. rewrite app_nil_r. split; [reflexivity|]. intros u H. inversion H.
  - rewrite bind_apply.
    assert (exists evs1,
              events (snd (connectServer ext st server w))
                = events w ++ ConnectServer (url server) :: evs1 /\
              forall u, ConnectServer u ∉ evs1) as (evs1 & H1 & Hno1).
    { unfold connectServer. destruct st as [allTools agentContext].
      rewrite bind_apply. unfold call at 1.
      destruct (mcpTools ext (clock w) server) as [toolSet|e].
      - exists [ ReadResources (url server) ]. rewrite bind_apply. unfold call, logged. cbn.
        rewrite <- app_assoc. split; [reflexivity|].
        intros u [Hu|Hu]%elem_of_cons; [discriminate | inversion Hu].
      - exists []. cbn. split; [reflexivity|]. intros u H. inversion H. }
    destruct (connectServer ext st server w) as [[st1|e] w1]; cbn [snd] in H1.
    + destruct (IH st1 w1) as (evs2 & H2 & Hin).
      exists ((ConnectServer (url server) :: evs1) ++ evs2).
      rewrite H2, H1, <- app_assoc. split; [reflexivity|].
      intros u [Hu|Hu]%elem_of_app.
      * apply elem_of_cons in Hu as [[= ->]|Hu]; [|destruct (Hno1 u Hu)].
        exists server. split; [apply list_elem_of_here | reflexivity].
      * destruct (Hin u Hu) as (sv & Hsv & Hurl).
        exists sv. split; [apply list_elem_of_further, Hsv | exact Hurl].
    + exists (ConnectServer (url server) :: evs1). cbn [snd]. split; [exact H1|].
      intros u [[= ->]|Hu]%elem_of_cons; [|destruct (Hno1 u Hu)].
      exists server. split; [apply list_elem_of_here | reflexivity].
Qed.

Lemma filterServers_sound all kept :
  filterServers all = Ok kept ->
  forall server, server ∈ kept ->
    server ∈ all /\ exists s, url server = Some s /\ isMcpServerUrl s = true.
Proof.
  revert kept. induction all as [|sv rest IH]; intros kept Hf server Hin.
  - cbn in Hf. injection Hf as <-. inversion Hin.
  - cbn [filterServers] in Hf. destruct (url sv) as [us|] eqn:Hus; [|discriminate].
    destruct (filterServers rest) as [kept'|e]; [|discriminate].
    cbn in Hf. injection Hf as <-.
    destruct (isMcpServerUrl us) eqn:Hmcp.
    + apply elem_of_cons in Hin as [->|Hin].
      * split; [apply list_elem_of_here | eauto].
      * destruct (IH kept' eq_refl server Hin) as [H1 H2].
        split; [apply list_elem_of_further, H1 | exact H2].
    + destruct (IH kept' eq_refl server Hin) as [H1 H2].
      split; [apply list_elem_of_further, H1 | exact H2].
Qed.

Lemma filterServers_throws all server :
  server ∈ all -> url server = None -> exists e, filterServers all = Throw e.
Proof.
  induction all as [|sv rest IH]; intros Hin Hurl; [inversion Hin|].
  cbn [filterServers]. apply elem_of_cons in Hin as [<-|Hin].
  - rewrite Hurl. eexists. reflexivity.
  - destruct (url sv); [|eexists; reflexivity].
    destruct (IH Hin Hurl) as (e & ->). eexists. reflexivity.
Qed.

Lemma isMcpServerUrl_not_json s :
  isMcpServerUrl s = true ->
  Js.endsWith ".json" s = false /\
  (Js.includes ".json" s = true -> Js.endsWith "/mcp" s || Js.endsWith "/sse" s = true).
Proof.
  unfold isMcpServerUrl. destruct (Js.endsWith ".json" s); [discriminate|].
  cbn [negb andb]. intros H. split; [reflexivity|]. intros Hinc. rewrite Hinc in H.
  cbn [negb] in H. rewrite orb_false_r in H. exact H.
Qed.

(** X13. A registry build connects only to servers of the context that
    pass the filter: a connection is never opened to a URL that ends in
    [.json], nor to one that contains [.json] unless it ends in [/mcp] or
    [/sse]. *)
Theorem connections_pass_filter :
  forall (agentContext : AgentContext) (w : World) (u : option string),
    ConnectServer u ∈ newEvents w (snd (prepareAllTools ext agentContext w)) ->
    exists server s,
      server ∈ allServers agentContext /\ url server = Some s /\ u = Some s /\
      Js.endsWith ".json" s = false /\
      (Js.includes ".json" s = true -> Js.endsWith "/mcp" s || Js.endsWith "/sse" s = true).
Proof.
  intros ctx w u. unfold prepareAllTools. rewrite bind_apply.
  destruct (addSpecs_no_connect (openApiSpecs ctx) builtInTools w) as (evs1 & H1 & Hno1).
  destruct (forEachM (addSpecTools ext) (openApiSpecs ctx) builtInTools w)
    as [[allTools|e] w1]; cbn [snd] in H1.
  2:{ cbn [snd]. rewrite (newEvents_app _ _ _ H1). intros H. destruct (Hno1 u H). }
  rewrite bind_apply. fold (allServers ctx).
  destruct (filterServers (allServers ctx)) as [mcpServers|e] eqn:Hf.
  2:{ cbn [snd]. rewrite (newEvents_app _ _ _ H1). intros H. destruct (Hno1 u H). }
  rewrite bind_apply.
  destruct (connectServers_connect mcpServers (allTools, ctx) w1) as (evs2 & H2 & Hin).
  assert (forall w', events w' = events w1 ++ evs2 ->
                     ConnectServer u ∈ newEvents w w' -> ConnectServer u ∈ evs1 ++ evs2) as Hev.
  { intros w' Hw'. rewrite (newEvents_app w w' (evs1 ++ evs2)); [auto|].
    rewrite Hw', H1, <- app_assoc. reflexivity. }
  destruct (forEachM (connectServer ext) mcpServers (allTools, ctx) w1)
    as [[[allTools2 ctx2]|e] w2]; cbn [snd] in H2; rewrite ?ret_apply; cbn [snd];
    intros Hu; apply (Hev _ H2) in Hu;
    (apply elem_of_app in Hu as [Hu|Hu]; [destruct (Hno1 u Hu)|]).
  all: destruct (Hin u Hu) as (server & Hs & Hurl);
    destruct (filterServers_sound _ _ Hf server Hs) as (Hall & s & Hsome & Hmcp);
    destruct (isMcpServerUrl_not_json s Hmcp) as [Hj Hi];
    exists server, s; repeat split; try assumption; congruence.
Qed.

(** X14. A server without a URL breaks every later round.  A server-mount
    call without the [mcpServerUrl] argument leaves such a server in the
    context; from then on the registry build throws when it filters the
    servers, before any connection is opened, and [runAgent] throws with
    it. *)
Theorem server_without_url_breaks_run :
  forall (agentContext : AgentContext) (server : McpServer),
    server ∈ allServers agentContext ->
    url server = None ->
    forall (fuel : nat) (apiKey : string) (input : option string)
           (acc : list FormattedStep) (w : World),
    exists e,
      fst (runAgent ext (S fuel) apiKey input agentContext acc w) = Throw e /\
      forall u, ConnectServer u ∉
                newEvents w (snd (runAgent ext (S fuel) apiKey input agentContext acc w)).
Proof.
  intros ctx server Hin Hurl fuel apiKey input acc w.
  rewrite runAgent_unfold. set (w0 := logged StartingAgentRun w).
  assert (exists e evs,
            fst (prepareAllTools ext ctx w0) = Throw e /\
            events (snd (prepareAllTools ext ctx w0)) = events w0 ++ evs /\
            forall u, ConnectServer u ∉ evs) as (e & evs & Hthrow & Hev & Hno).
  { unfold prepareAllTools. rewrite bind_apply.
    destruct (addSpecs_no_connect (openApiSpecs ctx) builtInTools w0) as (evs1 & H1 & Hno1).
    destruct (forEachM (addSpecTools ext) (openApiSpecs ctx) builtInTools w0)
      as [[allTools|e] w1]; cbn [snd] in H1.
    2:{ exists e, evs1. cbn [fst snd]. auto. }
    rewrite bind_apply. fold (allServers ctx).
    destruct (filterServers_throws _ _ Hin Hurl) as (e & ->).
    exists e, evs1. cbn [fst snd]. auto. }
  destruct (prepareAllTools ext ctx w0) as [[[allTools ctx1]|e'] w1]; cbn [fst snd] in *;
    [discriminate|].
  exists e'. split; [reflexivity|]. intros u.
  assert (events w1 = events w ++ StartingAgentRun :: evs) as Hev'.
  { rewrite Hev. subst w0. cbn [logged events]. rewrite <- app_assoc. reflexivity. }
  rewrite (newEvents_app _ _ _ Hev').
  intros [Hu|Hu]%elem_of_cons; [discriminate | exact (Hno u Hu)].
Qed.

End WithExternals.

Lemma connections_pass_filter_witness :
  let ctx :=
    {| available_mcp_servers := [ {| url := Some sellerMcp; headers := [] |} ];
       dynamically_mounted_server := [ {| url := Some sellerJson; headers := [] |} ];
       openApiSpecs := []; conversation_history := [] |} in
  newEvents startWorld (snd (prepareAllTools (scripted twoCallStub) ctx startWorld))
    = [ ConnectServer (Some sellerMcp); ReadResources (Some sellerMcp) ] /\
  exists server s,
    server ∈ allServers ctx /\ url server = Some s /\ Some sellerMcp = Some s /\
    Js.endsWith ".json" s = false /\
    (Js.includes ".json" s = true -> Js.endsWith "/mcp" s || Js.endsWith "/sse" s = true).
Proof.
  cbn zeta. split; [reflexivity|].
  apply (connections_pass_filter (scripted twoCallStub) _ startWorld (Some sellerMcp)).
  apply list_elem_of_here.
Defined.

Lemma server_without_url_breaks_run_witness :
  let ctx := snd (checkAndUpdateAgentContextIfConnectionIsInitiated mountWithoutUrl
                    startContext) in
  dynamically_mounted_server ctx = [ {| url := None; headers := [] |} ] /\
  exists e,
    fst (runAgent (scripted twoCallStub) 3 "key" (Some "hello") ctx [] startWorld) = Throw e /\
    forall u, ConnectServer u ∉
              newEvents startWorld
                (snd (runAgent (scripted twoCallStub) 3 "key" (Some "hello") ctx [] startWorld)).
Proof.
  cbn zeta. split; [reflexivity|].
  apply (server_without_url_breaks_run (scripted twoCallStub) _
           {| url := None; headers := [] |}); [|reflexivity].
  apply list_elem_of_further, list_elem_of_here.
Defined.


Lemma registry_build_only_adds_resources_witness :
  exists allTools agentContext' w',
    prepareAllTools (scripted twoCallStub) startContext startWorld
      = (Ok (allTools, agentContext'), w') /\
    resourcesAdded startContext agentContext'.
Proof.
  eexists. eexists. eexists. split; [reflexivity|].
  eapply (registry_build_only_adds_resources (scripted twoCallStub) startContext _ startWorld).
  reflexivity.
Defined.

End RegistryMore.

(** ** More on the loop *)

Module RunMore.
Import Agent DetectorSpec FormatterSpec RunSpec RunMoreSpec DetectorFacts FormatterFacts
  RunFacts RegistryMore.

Section WithExternals.
Variable ext : Externals.

(** [runAgent] never uses the usage counter. *)
Lemma runAgent_keeps_counter fuel :
  forall apiKey input agentContext acc w,
    redisClient (snd (runAgent ext fuel apiKey input agentContext acc w)) = redisClient w.
Proof.
  induction fuel as [|fuel IH]; intros apiKey input ctx acc w; [reflexivity|].
  rewrite runAgent_unfold.
  destruct (prepareAllTools_keeps ext ctx (logged StartingAgentRun w)) as [Hredis _].
  destruct (prepareAllTools ext ctx (logged StartingAgentRun w)) as [[[allTools ctx1]|e] w1];
    cbn [snd] in Hredis; [|exact Hredis].
  cbn zeta. destruct (generateText ext _ _ _) as [out|e]; [|exact Hredis].
  destruct (fst (checkAndUpdateAgentContextIfConnectionIsInitiated _ _)); [|exact Hredis].
  specialize (IH apiKey input
                (snd (checkAndUpdateAgentContextIfConnectionIsInitiated (mo_steps out)
                        (pushHistory (mo_messages out)
                           (pushHistory [ {| role := RUser; content := input |} ] ctx1))))
                (formatOutput ext (mo_steps out) acc)
                (logged (InvokeModel (Obj.keys allTools)) w1)).
  destruct (runAgent ext fuel _ _ _ _ _) as [[[modelResponse|]|e] w3]; cbn [snd] in *;
    rewrite IH; exact Hredis.
Qed.

(** A run only adds events. *)
Lemma runAgent_events fuel :
  forall apiKey input agentContext acc w,
    exists evs,
      events (snd (runAgent ext fuel apiKey input agentContext acc w)) = events w ++ evs.
Proof.
  induction fuel as [|fuel IH]; intros apiKey input ctx acc w.
  - exists []. cbn. now rewrite app_nil_r.
  - rewrite runAgent_unfold.
    destruct (prepareAllTools_events ext ctx (logged StartingAgentRun w))
      as (evs1 & H1 & _).
    destruct (prepareAllTools ext ctx (logged StartingAgentRun w)) as [[[allTools ctx1]|e] w1];
      cbn [fst snd] in *; cbn [logged events] in H1;
      [|eexists; rewrite H1, <- app_assoc; reflexivity].
    cbn zeta.
    assert (events (logged (InvokeModel (Obj.keys allTools)) w1)
            = events w ++ StartingAgentRun :: evs1 ++ [InvokeModel (Obj.keys allTools)]) as H2.
    { cbn [logged events]. rewrite H1, <- !app_assoc. reflexivity. }
    destruct (generateText ext _ _ _) as [out|e]; [|eexists; exact H2].
    destruct (fst (checkAndUpdateAgentContextIfConnectionIsInitiated _ _));
      [|eexists; exact H2].
    destruct (IH apiKey input
                (snd (checkAndUpdateAgentContextIfConnectionIsInitiated (mo_steps out)
                        (pushHistory (mo_messages out)
                           (pushHistory [ {| role := RUser; content := input |} ] ctx1))))
                (formatOutput ext (mo_steps out) acc)
                (logged (InvokeModel (Obj.keys allTools)) w1)) as (evs3 & H3).
    destruct (runAgent ext fuel _ _ _ _ _) as [[[modelResponse|]|e] w3]; cbn [snd] in *;
      eexists; rewrite H3, H2, <- app_assoc; reflexivity.
Qed.

(** X15. What a run of several rounds returns.  The steps of the document
    begin with the steps the call was given, and every step added by any
    round carries the index 1.  The context of the document has the static
    servers of the initial context; its history and its description
    references begin with those of the initial context, so the rounds only
    ever append to them. *)
Theorem run_only_appends :
  forall (fuel : nat) (apiKey : string) (input : option string)
         (agentContext : AgentContext) (acc : list FormattedStep) (w w' : World)
         (document : RunDocument),
    runAgent ext fuel apiKey input agentContext acc w = (Ok (Some document), w') ->
    (exists new, steps document = acc ++ new /\ Forall (fun fs => step fs = 1) new) /\
    available_mcp_servers (Agent.agentContext document) = available_mcp_servers agentContext /\
    (exists messages,
       conversation_history (Agent.agentContext document)
       = conversation_history agentContext ++ messages) /\
    (exists refs,
       openApiSpecs (Agent.agentContext document) = openApiSpecs agentContext ++ refs).
Proof.
  induction fuel as [|fuel IH]; intros apiKey input ctx acc w w' document Hrun;
    [discriminate|].
  rewrite runAgent_unfold in Hrun.
  destruct (prepareAllTools_keeps ext ctx (logged StartingAgentRun w)) as [_ Hctx].
  destruct (prepareAllTools ext ctx (logged StartingAgentRun w)) as [[[allTools ctx1]|e] w1];
    [|discriminate].
  destruct (Hctx _ _ eq_refl) as ((Ha & _ & Hspecs & texts & Hh) & _). clear Hctx.
  cbn zeta in Hrun. destruct (generateText ext _ _ _) as [out|e]; [|discriminate].
  set (ctx2 := pushHistory (mo_messages out)
                 (pushHistory [ {| role := RUser; content := input |} ] ctx1)) in *.
  destruct (detector_spec (mo_steps out) ctx2) as (_ & Da & Ds & _ & Dh).
  cbn zeta in Da, Ds, Dh.
  destruct (formatOutput_spec ext (mo_steps out) acc) as (new1 & Hfmt & Hone & _).
  set (ctx3 := snd (checkAndUpdateAgentContextIfConnectionIsInitiated (mo_steps out) ctx2)) in *.
  assert (available_mcp_servers ctx3 = available_mcp_servers ctx) as Ha3
    by (rewrite Da; exact Ha).
  assert (exists messages, conversation_history ctx3 = conversation_history ctx ++ messages)
    as (m3 & Hh3).
  { rewrite Dh. subst ctx2. cbn [pushHistory conversation_history]. rewrite Hh.
    eexists. rewrite <- !app_assoc. reflexivity. }
  assert (exists refs, openApiSpecs ctx3 = openApiSpecs ctx ++ refs) as (r3 & Hs3).
  { rewrite Ds. subst ctx2. cbn [pushHistory openApiSpecs]. rewrite Hspecs.
    eexists. reflexivity. }
  destruct (fst (checkAndUpdateAgentContextIfConnectionIsInitiated (mo_steps out) ctx2)).
  - destruct (runAgent ext fuel apiKey input ctx3 _ _) as [[[modelResponse|]|e] w3] eqn:Hinner;
      try discriminate.
    injection Hrun as <- <-. cbn [steps Agent.agentContext].
    destruct (IH _ _ _ _ _ _ _ Hinner) as ((new2 & Hst & Hone2) & Ha4 & (m4 & Hh4) & (r4 & Hs4)).
    split.
    { exists (new1 ++ new2). rewrite Hst, Hfmt, <- app_assoc.
      split; [reflexivity | apply Forall_app; split; assumption]. }
    split; [congruence|].
    split; [exists (m3 ++ m4); rewrite Hh4, Hh3, <- app_assoc; reflexivity|].
    exists (r3 ++ r4). rewrite Hs4, Hs3, <- app_assoc. reflexivity.
  - injection Hrun as <- <-. cbn [steps Agent.agentContext].
    split; [exists new1; split; assumption|].
    split; [exact Ha3|]. split; [exists m3; exact Hh3 | exists r3; exact Hs3].
Qed.

(** X16. The answer and the usage of the document are those of the first
    round.  Whatever the later rounds produce, [runAgent] returns the text
    and the token usage of the model call of its own round: of a run of
    several rounds the answer is the text the model gave when it asked for
    the bootstrap tool. *)
Theorem answer_is_of_first_round :
  forall (fuel : nat) (apiKey : string) (input : option string)
         (agentContext : AgentContext) (acc : list FormattedStep) (w w' : World)
         (document : RunDocument),
    runAgent ext fuel apiKey input agentContext acc w = (Ok (Some document), w') ->
    exists out ctxAfter,
      fst (firstRound ext input agentContext w) = Ok (out, ctxAfter) /\
      answer document = mo_text out /\
      usage document = mo_usage out.
Proof.
  intros fuel apiKey input ctx acc w w' document Hrun.
  destruct fuel as [|fuel]; [discriminate|].
  rewrite runAgent_firstRound in Hrun.
  destruct (firstRound ext input ctx w) as [[[out ctxAfter]|e] w2]; [|discriminate].
  exists out, ctxAfter. split; [reflexivity|].
  destruct (existsb isBootstrap (calls (mo_steps out))).
  - unfold outer in Hrun.
    destruct (runAgent ext fuel apiKey input ctxAfter _ w2) as [[[modelResponse|]|e] w3];
      try discriminate.
    injection Hrun as <- <-. split; reflexivity.
  - injection Hrun as <- <-. split; reflexivity.
Qed.

(** X17. Nothing bounds the number of rounds.  With a model that asks for
    a bootstrap tool whenever it answers, [runAgent] never returns a
    document: for every bound on the depth of the recursion it either
    throws or is still recursing when the bound is reached, having started
    as many rounds as the bound allows. *)
Theorem bootstrap_loop_never_returns :
  alwaysBootstraps ext ->
  forall (fuel : nat) (apiKey : string) (input : option string)
         (agentContext : AgentContext) (acc : list FormattedStep) (w : World),
    let r := runAgent ext fuel apiKey input agentContext acc w in
    match fst r with
    | Ok (Some _) => False
    | Ok None => rounds (newEvents w (snd r)) = fuel
    | Throw _ => True
    end.
Proof.
  intros Hmodel. induction fuel as [|fuel IH]; intros apiKey input ctx acc w r; subst r.
  - cbn [runAgent]. rewrite ret_apply. cbn [fst snd].
    rewrite (newEvents_app w w []); [reflexivity | now rewrite app_nil_r].
  - rewrite runAgent_unfold.
    destruct (prepareAllTools_events ext ctx (logged StartingAgentRun w))
      as (evs1 & H1 & Hall1 & _).
    destruct (prepareAllTools ext ctx (logged StartingAgentRun w)) as [[[allTools ctx1]|e] w1];
      cbn [fst snd] in *; [|exact I].
    cbn zeta. destruct (generateText ext _ _ _) as [out|e] eqn:Hout; [|exact I].
    destruct (detector_spec (mo_steps out)
                (pushHistory (mo_messages out)
                   (pushHistory [ {| role := RUser; content := input |} ] ctx1)))
      as (Hfound & _).
    cbn zeta in Hfound. rewrite (Hmodel _ _ _ _ Hout) in Hfound. rewrite Hfound.
    set (w2 := logged (InvokeModel (Obj.keys allTools)) w1).
    specialize (IH apiKey input
                  (snd (checkAndUpdateAgentContextIfConnectionIsInitiated (mo_steps out)
                          (pushHistory (mo_messages out)
                             (pushHistory [ {| role := RUser; content := input |} ] ctx1))))
                  (formatOutput ext (mo_steps out) acc) w2).
    cbn zeta in IH.
    assert (exists evs, events (snd (runAgent ext fuel apiKey input
                  (snd (checkAndUpdateAgentContextIfConnectionIsInitiated (mo_steps out)
                          (pushHistory (mo_messages out)
                             (pushHistory [ {| role := RUser; content := input |} ] ctx1))))
                  (formatOutput ext (mo_steps out) acc) w2)) = events w2 ++ evs)
      as (evs2 & H2) by apply runAgent_events.
    destruct (runAgent ext fuel apiKey input _ _ w2) as [[[modelResponse|]|e] w3];
      cbn [fst snd] in *; [contradiction| |exact I].
    rewrite (newEvents_app _ _ _ H2) in IH.
    assert (events w3 = events w ++
              (StartingAgentRun :: evs1 ++ [InvokeModel (Obj.keys allTools)]) ++ evs2) as Hev.
    { rewrite H2. subst w2. cbn [logged events]. rewrite H1. cbn [logged events].
      rewrite <- !app_assoc. cbn [app]. rewrite <- !app_assoc. reflexivity. }
    rewrite (newEvents_app _ _ _ Hev).
    change (StartingAgentRun :: evs1 ++ [InvokeModel (Obj.keys allTools)])
      with ([StartingAgentRun] ++ evs1 ++ [InvokeModel (Obj.keys allTools)]).
    rewrite !rounds_app, (rounds_registry _ Hall1), IH. reflexivity.
Qed.

End WithExternals.

Lemma run_only_appends_witness :
  exists document w',
    runAgent (scripted (mountThenStop sellerMcp)) 3 "key" (Some "hello") startContext []
      startWorld = (Ok (Some document), w') /\
    map tool (steps document) = [ connectTool; "thinking" ] /\
    (exists new, steps document = [] ++ new /\ Forall (fun fs => step fs = 1) new) /\
    available_mcp_servers (agentContext document) = available_mcp_servers startContext /\
    (exists messages,
       conversation_history (agentContext document)
       = conversation_history startContext ++ messages) /\
    (exists refs, openApiSpecs (agentContext document) = openApiSpecs startContext ++ refs).
Proof.
  destruct (runAgent (scripted (mountThenStop sellerMcp)) 3 "key" (Some "hello") startContext []
              startWorld) as [[[document|]|e] w'] eqn:Hrun;
    [|vm_compute in Hrun; discriminate Hrun..].
  exists document, w'. split; [reflexivity|].
  split; [vm_compute in Hrun; injection Hrun as <- _; reflexivity|].
  exact (run_only_appends (scripted (mountThenStop sellerMcp)) 3 "key" (Some "hello")
           startContext [] startWorld w' document Hrun).
Defined.

Lemma answer_is_of_first_round_witness :
  exists document w' out ctxAfter,
    runAgent (scripted (mountThenStop sellerMcp)) 3 "key" (Some "hello") startContext []
      startWorld = (Ok (Some document), w') /\
    fst (firstRound (scripted (mountThenStop sellerMcp)) (Some "hello") startContext startWorld)
      = Ok (out, ctxAfter) /\
    answer document = mo_text out /\
    usage document = mo_usage out /\
    answer document = "".
Proof.
  destruct (runAgent (scripted (mountThenStop sellerMcp)) 3 "key" (Some "hello") startContext []
              startWorld) as [[[document|]|e] w'] eqn:Hrun;
    [|vm_compute in Hrun; discriminate Hrun..].
  destruct (answer_is_of_first_round (scripted (mountThenStop sellerMcp)) 3 "key"
              (Some "hello") startContext [] startWorld w' document Hrun)
    as (out & ctxAfter & H1 & H2 & H3).
  exists document, w', out, ctxAfter.
  split; [reflexivity|]. split; [exact H1|]. split; [exact H2|]. split; [exact H3|].
  vm_compute in Hrun. injection Hrun as <- _. reflexivity.
Defined.

Lemma bootstrap_loop_never_returns_witness :
  alwaysBootstraps (scripted alwaysMounts) /\
  let r := runAgent (scripted alwaysMounts) 4 "key" (Some "hello") startContext [] startWorld in
  fst r = Ok None /\
  match fst r with
  | Ok (Some _) => False
  | Ok None => rounds (newEvents startWorld (snd r)) = 4
  | Throw _ => True
  end.
Proof.
  assert (alwaysBootstraps (scripted alwaysMounts)) as Hmodel.
  { intros t tools msgs out H. cbn in H. injection H as <-. reflexivity. }
  split; [exact Hmodel|]. cbn zeta. split; [reflexivity|].
  apply (bootstrap_loop_never_returns (scripted alwaysMounts) Hmodel 4 "key" (Some "hello")
           startContext [] startWorld).
Defined.

End RunMore.

(** ** The invocation and the counter *)

Module CountingMore.
Import Agent InvocationSpec RunMoreSpec.

Lemma increment_sends today c s :
  Redis.redis c = Some s ->
  exists n c' s',
    Redis.incrementDailyRunCounter today c = (Ok n, c') /\
    Redis.redis c' = Some s' /\
    Redis.INCR (Redis.usageKey today) ∈ Redis.commands s'.
Proof.
  destruct c as [r cerr]. destruct s as [st up fl cmds]. cbn. intros ->.
  unfold Redis.incrementDailyRunCounter, mbind, M_bind, mret, M_ret, ask, mtry, Redis.onRedis,
    Redis.incr, Redis.expire, Redis.withStore, Redis.sent.
  cbn. destruct up; cbn.
  2:{ eexists _, _, _. split; [reflexivity|]. split; [reflexivity|]. cbn. set_solver. }
  destruct (st !! Redis.usageKey today) as [e|]; cbn.
  - destruct (Redis.storedInt (Redis.value e)) as [n|]; cbn.
    + destruct (n <? 2 ^ 63 - 1)%Z; cbn.
      * destruct (Redis.toDouble (n + 1) =? 1)%Z; cbn.
        -- rewrite lookup_insert_eq. cbn.
           eexists _, _, _. split; [reflexivity|]. split; [reflexivity|]. cbn. set_solver.
        -- eexists _, _, _. split; [reflexivity|]. split; [reflexivity|]. cbn. set_solver.
      * eexists _, _, _. split; [reflexivity|]. split; [reflexivity|]. cbn. set_solver.
    + eexists _, _, _. split; [reflexivity|]. split; [reflexivity|]. cbn. set_solver.
  - rewrite lookup_insert_eq. cbn.
    eexists _, _, _. split; [reflexivity|]. split; [reflexivity|]. cbn. set_solver.
Qed.

(** X18. In test mode the usage counter is out of the picture: with
    [TEST_MODE] set to [true], [getAgent] sends no command to the store and
    leaves the client as it is, whatever the run does. *)
Theorem test_mode_skips_counter :
  forall (ext : Externals) (env : ProcessEnv) (fuel : nat) (apiKey : string)
         (input : Input) (agentContext : AgentContext) (w : World),
    TEST_MODE env = Some "true" ->
    redisClient (snd (getAgent ext env fuel apiKey input agentContext w)) = redisClient w.
Proof.
  intros ext env fuel apiKey input ctx w Htest.
  unfold getAgent. rewrite RunFacts.bind_apply.
  unfold preflight. case_bool_decide; [|contradiction]. cbn [negb].
  rewrite RunFacts.ret_apply, RunFacts.bind_apply.
  destruct input as [str|o].
  - destruct (JSON_parse ext str) as [o|e]; [|reflexivity].
    rewrite RunFacts.bind_apply.
    pose proof (RunMore.runAgent_keeps_counter ext fuel
                  (if Compiler.nonEmpty apiKey then apiKey
                   else Js.orElse (SKYFIRE_API_KEY env) "")
                  (Obj.get "prompt" o)
                  (freshContext env (if Compiler.nonEmpty apiKey then apiKey
                                     else Js.orElse (SKYFIRE_API_KEY env) ""))
                  [] w) as Hkeep.
    destruct (runAgent ext fuel _ _ _ _ w) as [[r|e] w2]; exact Hkeep.
  - rewrite RunFacts.ret_apply, RunFacts.bind_apply.
    pose proof (RunMore.runAgent_keeps_counter ext fuel
                  (if Compiler.nonEmpty apiKey then apiKey
                   else Js.orElse (SKYFIRE_API_KEY env) "")
                  (Obj.get "prompt" o)
                  (freshContext env (if Compiler.nonEmpty apiKey then apiKey
                                     else Js.orElse (SKYFIRE_API_KEY env) ""))
                  [] w) as Hkeep.
    destruct (runAgent ext fuel _ _ _ _ w) as [[r|e] w2]; exact Hkeep.
Qed.

Lemma test_mode_skips_counter_witness :
  let env := {| SKYFIRE_API_KEY := None; SKYFIRE_MCP_URL := Some RunSpec.skyfire;
                TEST_MODE := Some "true"; DAILY_RUN_CAP := None |} in
  redisClient (snd (getAgent (RunSpec.scripted RunSpec.twoCallStub) env 5 "key"
                      (InputObject [ ("prompt", "hello") ]) DetectorSpec.emptyContext
                      exhausted))
  = redisClient exhausted.
Proof.
  apply test_mode_skips_counter. reflexivity.
Defined.

(** X19. A run is counted before its input is read.  Outside test mode,
    when the store answers and the limit is not reached, an input string
    that [JSON.parse] rejects makes [getAgent] throw, but only after INCR
    was sent for the date: the failed invocation has used up one of the
    day's runs, and no round was started. *)
Theorem malformed_input_is_counted :
  forall (ext : Externals) (env : ProcessEnv) (fuel : nat) (apiKey : string)
         (str : string) (agentContext : AgentContext) (w : World)
         (s : Redis.Server) (e : Thrown),
    TEST_MODE env <> Some "true" ->
    Redis.redis (redisClient w) = Some s ->
    Redis.reachable s = true ->
    limitReached (dateString ext (S (clock w))) (dailyCap env) (redisClient w) = false ->
    JSON_parse ext str = Throw e ->
    exists w1 s1,
      getAgent ext env fuel apiKey (InputString str) agentContext w = (Throw e, w1) /\
      Redis.redis (redisClient w1) = Some s1 /\
      Redis.INCR (Redis.usageKey (dateString ext (S (S (clock w))))) ∈ Redis.commands s1 /\
      events w1 = events w.
Proof.
  intros ext env fuel apiKey str ctx [[r cerr] clk evs] [st up fl cmds] e
    Htest Hr Hup Hlimit Hparse.
  cbn in Hr, Hup, Hlimit. subst r up.
  unfold limitReached, usageOn, dailyCap in Hlimit. cbn in Hlimit.
  unfold getAgent. rewrite RunFacts.bind_apply.
  unfold preflight. case_bool_decide; [contradiction|]. cbn [negb].
  unfold onCounter, today, Redis.checkRedisConnection, Redis.checkDailyRunLimit,
    mbind, M_bind, mret, M_ret, ask, mtry, Redis.onRedis, Redis.ping, Redis.get.
  cbn. rewrite Hlimit. cbn.
  match goal with
  | |- context [Redis.incrementDailyRunCounter ?d ?c] =>
      destruct (increment_sends d c _ eq_refl) as (n & c' & s' & -> & Hc' & Hin)
  end.
  rewrite Hparse. eexists. exists s'. split; [reflexivity|].
  split; [exact Hc'|]. split; [exact Hin | reflexivity].
Qed.

Lemma malformed_input_is_counted_witness :
  exists w1 s1,
    getAgent rejecting production 5 "key" (InputString "hello") DetectorSpec.emptyContext
      freshWorld
      = (Throw (ErrorObj "Unexpected token h in JSON at position 0"), w1) /\
    Redis.redis (redisClient w1) = Some s1 /\
    Redis.INCR (Redis.usageKey "2025-06-01") ∈ Redis.commands s1 /\
    events w1 = [].
Proof.
  refine (malformed_input_is_counted rejecting production 5 "key" "hello"
            DetectorSpec.emptyContext freshWorld RedisSpec.emptyServer _ _
            eq_refl eq_refl _ eq_refl);
    [discriminate | reflexivity].
Defined.

End CountingMore.

(** ** More on the formatter *)

Module FormatterMore.
Import Agent FormatterSpec FormatterMoreSpec FormatterFacts.

Lemma splitChar_nonempty sep s : Js.splitChar sep s <> [].
Proof.
  destruct s as [|c s]; cbn; [discriminate|].
  destruct (Ascii.eqb c sep); [discriminate|].
  destruct (Js.splitChar sep s); discriminate.
Qed.

Lemma splitChar_no_separator t :
  noSpace t = true -> Js.splitChar " " t = [ t ].
Proof.
  unfold noSpace. induction t as [|c t IH]; cbn; [reflexivity|].
  intros [Hc Ht]%andb_prop. apply negb_true_iff in Hc. rewrite Hc, (IH Ht). reflexivity.
Qed.

Lemma last_cons_nonempty {A} (x : A) l d : l <> [] -> List.last (x :: l) d = List.last l d.
Proof. destruct l; [congruence | reflexivity]. Qed.

Lemma splitChar_after_separator p t d :
  exists h l,
    Js.splitChar " " (p +:+ String " " t) = h :: l /\ l <> [] /\
    List.last l d = List.last (Js.splitChar " " t) d.
Proof.
  induction p as [|c p (h & l & Heq & Hl & Hlast)].
  - exists "", (Js.splitChar " " t). split; [reflexivity|].
    split; [apply splitChar_nonempty | reflexivity].
  - change (String c p +:+ String " " t) with (String c (p +:+ String " " t)).
    cbn [Js.splitChar]. rewrite Heq. destruct (Ascii.eqb c " ").
    + exists "", (h :: l). split; [reflexivity|]. split; [discriminate|].
      rewrite last_cons_nonempty by exact Hl. exact Hlast.
    + exists (String c h), l. auto.
Qed.

Lemma last_word p t :
  noSpace t = true -> List.last (Js.splitChar " " (p +:+ " " +:+ t)) "" = t.
Proof.
  intros Ht. destruct (splitChar_after_separator p t "") as (h & l & Heq & Hl & Hlast).
  change (p +:+ " " +:+ t) with (p +:+ String " " t).
  rewrite Heq, last_cons_nonempty, Hlast, (splitChar_no_separator t Ht) by exact Hl.
  reflexivity.
Qed.

Section WithExternals.
Variable ext : Externals.

(** X20. The token [getDecodedJWT] looks at is the last word of the text
    of the first content item: for a text that ends, after a space, in a
    word [t] without spaces (or that is such a word), the token is [t]; it
    is decoded, header and payload, exactly when [isJWT] accepts it, and
    returned undecoded otherwise. *)
Theorem token_is_last_word :
  forall (text t ty : string) (rest : list ContentItem),
    noSpace t = true ->
    text = t \/ (exists p, text = p +:+ " " +:+ t) ->
    getDecodedJWT ext (Some (textResult ty text rest)) =
    if isJWT ext t
    then jwtHeader ← jwtDecode ext true t;
         jwtPayload ← jwtDecode ext false t;
         Ok (t, Some (jwtHeader, jwtPayload))
    else Ok (t, None).
Proof.
  intros text t ty rest Ht Htext.
  assert (List.last (Js.splitChar " " text) "" = t) as Hlast.
  { destruct Htext as [-> | (p & ->)].
    - rewrite (splitChar_no_separator t Ht). reflexivity.
    - apply last_word, Ht. }
  unfold getDecodedJWT, textResult. cbn -[Js.splitChar]. rewrite Hlast. reflexivity.
Qed.

(** *** The trace *)

Lemma formatToolCall_acc st acc i :
  formatToolCall ext st acc i = acc ++ formatToolCall ext st [] i.
Proof.
  unfold formatToolCall, pushFormattedSteps. cbn [app].
  destruct (toolCalls st !! i) as [tc|]; [|reflexivity].
  destruct (isTokenTool (toolName tc)); [|reflexivity].
  destruct (getDecodedJWT ext (toolResults st !! i)) as [[tok [d|]]|e];
    rewrite <- ?app_assoc; reflexivity.
Qed.

Lemma formatToolCalls_acc st l acc :
  fold_left (formatToolCall ext st) l acc = acc ++ fold_left (formatToolCall ext st) l [].
Proof.
  revert acc. induction l as [|i l IH]; intros acc; cbn [fold_left].
  - now rewrite app_nil_r.
  - rewrite IH, (IH (formatToolCall ext st [] i)), formatToolCall_acc, <- app_assoc.
    reflexivity.
Qed.

Lemma formatStep_acc acc st : formatStep ext acc st = acc ++ formatStep ext [] st.
Proof.
  unfold formatStep. destruct (Nat.ltb 0 (length (toolCalls st))); [|reflexivity].
  apply formatToolCalls_acc.
Qed.

Lemma formatOutput_acc sts acc : formatOutput ext sts acc = acc ++ formatOutput ext sts [].
Proof.
  unfold formatOutput. revert acc. induction sts as [|st sts IH]; intros acc; cbn [fold_left].
  - now rewrite app_nil_r.
  - rewrite IH, (IH (formatStep ext [] st)), formatStep_acc, <- app_assoc. reflexivity.
Qed.

(** X21. Formatting is done step by step and does not look at what is
    already in the trace: the trace after formatting the steps [sts1 ++
    sts2] onto [acc] is [acc], then the entries of [sts1], then the
    entries of [sts2], each formatted on its own. *)
Theorem formatting_is_compositional :
  forall (sts1 sts2 : list AIStep) (acc : list FormattedStep),
    formatOutput ext (sts1 ++ sts2) acc =
    acc ++ formatOutput ext sts1 [] ++ formatOutput ext sts2 [].
Proof.
  intros sts1 sts2 acc. unfold formatOutput. rewrite fold_left_app.
  fold (formatOutput ext sts1 acc).
  fold (formatOutput ext sts2 (formatOutput ext sts1 acc)).
  rewrite (formatOutput_acc sts2), (formatOutput_acc sts1 acc), <- app_assoc. reflexivity.
Qed.

Lemma callEntries_app l1 l2 : callEntries (l1 ++ l2) = callEntries l1 ++ callEntries l2.
Proof. apply List.filter_app. Qed.

Lemma formatToolCall_names st i tc :
  toolCalls st !! i = Some tc ->
  map tool (callEntries (formatToolCall ext st [] i)) = [ shownName tc ].
Proof.
  intros Htc. unfold formatToolCall, pushFormattedSteps. rewrite Htc. cbn [app].
  assert (forall r : option ToolResult,
            isDecodeEntry
              {| step := 1; text := getStepDescription st (Some tc);
                 tool := if Compiler.nonEmpty (toolName tc) then toolName tc else "thinking";
                 input := args tc;
                 result := match r with Some r => ResultTool r | None => ResultUndefined end |}
            = false) as Hcall by (intros [r|]; reflexivity).
  destruct (isTokenTool (toolName tc)).
  - destruct (getDecodedJWT ext (toolResults st !! i)) as [[tok [d|]]|e];
      unfold callEntries; cbn [List.filter app]; rewrite Hcall; reflexivity.
  - unfold callEntries. cbn [List.filter]. rewrite Hcall. reflexivity.
Qed.

Lemma formatToolCalls_names st k :
  forall a,
    a + k <= length (toolCalls st) ->
    map tool (callEntries (fold_left (formatToolCall ext st) (seq a k) []))
    = map shownName (take k (drop a (toolCalls st))).
Proof.
  induction k as [|k IH]; intros a Hlen; [reflexivity|].
  cbn [seq fold_left].
  destruct (lookup_lt_is_Some_2 (toolCalls st) a) as [tc Htc]; [lia|].
  rewrite formatToolCalls_acc, callEntries_app, map_app,
    (formatToolCall_names st a tc Htc), IH by lia.
  rewrite (drop_S _ _ _ Htc). reflexivity.
Qed.

(** X22. The trace shows the tools in the order they were called.  Apart
    from the entries for decoded tokens, formatting a round yields, step
    by step, one entry per tool call that shows the name of the call
    ([thinking] for a call without a name), and a single [thinking] entry
    for a step without calls. *)
Theorem trace_lists_calls_in_order :
  forall (sts : list AIStep),
    map tool (callEntries (formatOutput ext sts [])) = flat_map shownTools sts.
Proof.
  induction sts as [|st sts IH]; [reflexivity|].
  change (formatOutput ext (st :: sts) []) with (formatOutput ext sts (formatStep ext [] st)).
  rewrite formatOutput_acc, callEntries_app, map_app, IH.
  cbn [flat_map app]. f_equal.
  unfold formatStep, shownTools.
  destruct (Nat.ltb_spec 0 (length (toolCalls st))) as [Hpos|Hzero].
  - rewrite (formatToolCalls_names st (length (toolCalls st)) 0) by lia.
    rewrite drop_0, firstn_all.
    destruct (toolCalls st); [cbn in Hpos; lia | reflexivity].
  - destruct (toolCalls st); [reflexivity | cbn in Hzero; lia].
Qed.

End WithExternals.

Lemma token_is_last_word_witness :
  getDecodedJWT (RunSpec.scripted RunSpec.twoCallStub)
    (Some (textResult "text" "Your token is: eyJhbGciOi.eyJzdWIiOi.c2ln" []))
  = Ok ("eyJhbGciOi.eyJzdWIiOi.c2ln", None).
Proof.
  refine (token_is_last_word (RunSpec.scripted RunSpec.twoCallStub) _
            "eyJhbGciOi.eyJzdWIiOi.c2ln" "text" [] eq_refl _).
  right. exists "Your token is:". reflexivity.
Defined.

End FormatterMore.

(** ** More on the executor *)

Module ExecutorMore.
Import OpenAPI Compiler Executor ExecutorSpec ExecutorMoreSpec.

Lemma get_conditional_fold {V} (cond : string -> bool) (l acc : Obj.JsObject V) k :
  NoDup (Obj.keys l) ->
  Obj.get k (fold_left (fun acc e => if cond (fst e) then Obj.assign (fst e) (snd e) acc
                                     else acc) l acc)
  = match (if cond k && negb (String.eqb k Obj.protoKey) then Obj.get k l else None) with
    | Some v => Some v
    | None => Obj.get k acc
    end.
Proof.
  revert acc. induction l as [|[k0 v0] l IH]; intros acc Hnd.
  - cbn. destruct (cond k && negb (String.eqb k Obj.protoKey)); reflexivity.
  - change (Obj.keys ((k0, v0) :: l)) with (k0 :: Obj.keys l) in Hnd.
    apply NoDup_cons in Hnd as [Hk0 Hnd]. cbn [fold_left fst snd Obj.get].
    rewrite (IH _ Hnd). destruct (String.eqb k0 k) eqn:Heq.
    + apply String.eqb_eq in Heq. subst k0.
      apply get_None_keys in Hk0. rewrite Hk0.
      destruct (cond k); cbn [andb]; [|reflexivity].
      rewrite get_assign, String.eqb_refl.
      destruct (String.eqb k Obj.protoKey); reflexivity.
    + destruct (cond k0); [|reflexivity]. rewrite get_assign, Heq.
      destruct (String.eqb k0 Obj.protoKey); reflexivity.
Qed.

Lemma NoDup_conditional_fold {V} (cond : string -> bool) (l acc : Obj.JsObject V) :
  NoDup (Obj.keys acc) ->
  NoDup (Obj.keys (fold_left (fun acc e => if cond (fst e) then Obj.assign (fst e) (snd e) acc
                                           else acc) l acc)).
Proof.
  revert acc. induction l as [|[k0 v0] l IH]; intros acc Hnd; cbn [fold_left fst snd];
    [exact Hnd|].
  apply IH. destruct (cond k0); [apply NoDup_keys_assign|]; exact Hnd.
Qed.

Section WithPlatform.
Variable pf : Platform.

(** What [buildRequest] returns when it does not throw. *)
Lemma buildRequest_Ok c args request :
  buildRequest pf c args = Ok request ->
  exists headers b,
    match Obj.get token args with
    | Some v =>
        if truthy v
        then (t ← toString v;
              Ok (Obj.set token t (getSecurityHeaders pf (ex_this c) (ex_operation c))))
        else Ok (getSecurityHeaders pf (ex_this c) (ex_operation c))
    | None => Ok (getSecurityHeaders pf (ex_this c) (ex_operation c))
    end = Ok headers /\
    applyParameters pf args (ex_parameters c)
      {| bl_url := baseUrl (ex_this c) +:+ ex_path c; bl_query := [];
         bl_headers := headers |} = Ok b /\
    rq_headers request = bl_headers b /\
    rq_body request =
      if hasBody (ex_method c) then
        match bodyParams (ex_parameters c) args with
        | [] => None
        | bp => Some (JSON_stringify pf (JObj bp))
        end
      else None.
Proof.
  unfold buildRequest.
  destruct (match Obj.get token args with
            | Some v => _
            | None => _
            end) as [headers|] eqn:Hheaders; cbn [mbind result_bind bind]; [|discriminate].
  destruct (applyParameters pf args (ex_parameters c) _) as [b|] eqn:Hb;
    cbn [mbind result_bind bind]; [|discriminate].
  intros [= <-]. exists headers, b. cbn [rq_headers rq_body]. auto.
Qed.

(** X23. What is sent as the body.  A request for GET or DELETE has no
    body.  For POST, PUT and PATCH the body is the JSON text of an object
    that holds exactly the arguments that are neither named like a declared
    parameter (of any kind, cookie parameters included) nor the pay token
    nor [__proto__], with their values; when no such argument is given, no
    body is sent.  The pay token is never part of the body. *)
Theorem body_is_the_undeclared_arguments :
  forall (c : ExecuteClosure) (args : Obj.JsObject JValue) (request : Request),
    NoDup (Obj.keys args) ->
    buildRequest pf c args = Ok request ->
    match rq_body request with
    | Some text =>
        ex_method c ∈ [ POST; PUT; PATCH ] /\
        exists bodyParams,
          bodyParams <> [] /\
          text = JSON_stringify pf (JObj bodyParams) /\
          NoDup (Obj.keys bodyParams) /\
          forall k, Obj.get k bodyParams =
                    if declared (ex_parameters c) k || String.eqb k token
                       || String.eqb k Obj.protoKey
                    then None else Obj.get k args
    | None =>
        ex_method c ∈ [ GET; DELETE ] \/
        forall k, Obj.get k args <> None ->
                  declared (ex_parameters c) k || String.eqb k token
                  || String.eqb k Obj.protoKey = true
    end.
Proof.
  intros c args request Hnd Hbuild.
  apply buildRequest_Ok in Hbuild as (headers & b & _ & _ & _ & ->).
  assert (forall k, Obj.get k (bodyParams (ex_parameters c) args) =
                    if declared (ex_parameters c) k || String.eqb k token
                       || String.eqb k Obj.protoKey
                    then None else Obj.get k args) as Hget.
  { intros k. unfold bodyParams, declared.
    rewrite (get_conditional_fold
               (fun key => negb (includesStr key (map p_name (ex_parameters c)))
                           && negb (String.eqb key token)) args [] k Hnd).
    rewrite <- !negb_orb.
    destruct (includesStr k (map p_name (ex_parameters c)) || String.eqb k token
              || String.eqb k Obj.protoKey);
      cbn [negb]; [reflexivity|].
    destruct (Obj.get k args); reflexivity. }
  assert (NoDup (Obj.keys (bodyParams (ex_parameters c) args))) as Hnd'
    by (apply (NoDup_conditional_fold
                 (fun key => negb (includesStr key (map p_name (ex_parameters c)))
                             && negb (String.eqb key token)) args []); constructor).
  destruct (ex_method c) eqn:Hm; cbn [hasBody methodName Js.toLowerCase];
    try (left; set_solver).
  all: change (hasBody ?m) with true; cbv iota.
  all: destruct (bodyParams (ex_parameters c) args) as [|e bp] eqn:Hbp.
  all: try (right; intros k Hk; specialize (Hget k); cbn in Hget;
            destruct (declared (ex_parameters c) k || String.eqb k token
                      || String.eqb k Obj.protoKey);
            [reflexivity | congruence]).
  all: split; [set_solver|]; exists (e :: bp);
    split; [discriminate|]; split; [reflexivity|]; split; [exact Hnd' | exact Hget].
Qed.

(** X24. The security headers carry nothing but the API key.  Every
    header [getSecurityHeaders] returns is either the fixed [Content-Type]
    or has as value the key itself, [Bearer] followed by the key, or
    [Basic] followed by the encoded key; with an empty key the content
    type is the only header, whatever schemes the description declares. *)
Theorem security_headers_carry_only_the_key :
  forall (this : Converter) (operation : OperationObject),
    (forall h v,
       Obj.get h (getSecurityHeaders pf this operation) = Some v ->
       (h = "Content-Type" /\ v = "application/json") \/
       v = apiKey this \/ v = "Bearer " +:+ apiKey this \/
       v = "Basic " +:+ base64 pf (apiKey this)) /\
    (apiKey this = "" ->
     getSecurityHeaders pf this operation = [ ("Content-Type", "application/json") ]).
Proof.
  intros this operation.
  set (allowed := fun (h v : string) =>
         (h = "Content-Type" /\ v = "application/json") \/
         v = apiKey this \/ v = "Bearer " +:+ apiKey this \/
         v = "Basic " +:+ base64 pf (apiKey this)).
  assert (forall headers scheme,
            (forall h v, Obj.get h headers = Some v -> allowed h v) ->
            forall h v, Obj.get h (applyScheme pf (apiKey this) headers scheme) = Some v ->
                        allowed h v) as Hscheme.
  { intros headers scheme Hinv h v. unfold applyScheme, Obj.assign.
    repeat (match goal with
            | |- context [if ?b then _ else _] => destruct b
            end); try apply Hinv;
      rewrite get_set; (destruct (String.eqb _ h); [|apply Hinv]);
      intros [= <-]; unfold allowed; auto. }
  split.
  - change (forall h v, Obj.get h (getSecurityHeaders pf this operation) = Some v -> allowed h v).
    unfold getSecurityHeaders.
    assert (forall h v, Obj.get h [ ("Content-Type", "application/json") ] = Some v ->
                        allowed h v) as Hstart.
    { intros h v. cbn [Obj.get]. destruct (String.eqb "Content-Type" h) eqn:Hh; [|discriminate].
      apply String.eqb_eq in Hh. intros [= <-]. left. auto. }
    destruct (String.eqb (apiKey this) ""); [exact Hstart|].
    generalize dependent [ ("Content-Type", "application/json") ].
    induction (match op_security operation with
               | Some reqs => reqs
               | None => default [] (doc_security (spec this))
               end) as [|requirement reqs IH]; intros headers Hinv; cbn [fold_left];
      [exact Hinv|].
    apply IH. clear IH. revert headers Hinv.
    induction requirement as [|entry requirement IH]; intros headers Hinv; cbn [fold_left];
      [exact Hinv|].
    apply IH. destruct (Obj.get (fst entry) (securitySchemes this)) as [scheme|];
      [apply Hscheme, Hinv | exact Hinv].
  - intros Hkey. unfold getSecurityHeaders. rewrite Hkey. reflexivity.
Qed.

Lemma headers_after_parameter args h p b b1 :
  applyParameter pf args b p = Ok b1 ->
  Obj.get h (bl_headers b1) =
  match (if headerParam h p && negb (String.eqb h Obj.protoKey)
         then argumentText pf args h else None) with
  | Some converted => rendered converted
  | None => Obj.get h (bl_headers b)
  end.
Proof.
  unfold applyParameter, headerParam.
  destruct (argumentText pf args (p_name p)) as [[value|e]|] eqn:Harg;
    cbn [mbind result_bind bind]; [| discriminate |].
  - intros [= <-].
    destruct (p_in p); cbn [bl_headers andb]; try reflexivity.
    rewrite get_assign.
    destruct (String.eqb (p_name p) h) eqn:Hname; cbn [andb].
    + apply String.eqb_eq in Hname. subst h.
      destruct (String.eqb (p_name p) Obj.protoKey); cbn [negb]; [reflexivity|].
      rewrite Harg. reflexivity.
    + destruct (String.eqb (p_name p) Obj.protoKey); reflexivity.
  - intros [= <-].
    destruct (p_in p); cbn [andb]; try reflexivity.
    destruct (String.eqb (p_name p) h) eqn:Hname; cbn [andb]; [|reflexivity].
    apply String.eqb_eq in Hname. subst h. rewrite Harg.
    destruct (negb (String.eqb (p_name p) Obj.protoKey)); reflexivity.
Qed.

Lemma headers_after_parameters args h ps :
  forall b b',
    applyParameters pf args ps b = Ok b' ->
    Obj.get h (bl_headers b') =
    match (if headerSlot ps h then argumentText pf args h else None) with
    | Some converted => rendered converted
    | None => Obj.get h (bl_headers b)
    end.
Proof.
  unfold headerSlot.
  induction ps as [|p ps IH]; intros b b'; cbn [applyParameters existsb].
  - intros [= <-]. reflexivity.
  - destruct (applyParameter pf args b p) as [b1|] eqn:Hstep;
      cbn [mbind result_bind bind]; [|discriminate].
    intros Hrest. rewrite (IH _ _ Hrest), (headers_after_parameter _ _ _ _ _ Hstep).
    destruct (headerParam h p), (existsb (headerParam h) ps),
      (negb (String.eqb h Obj.protoKey)); cbn [andb orb]; try reflexivity.
    destruct (argumentText pf args h); reflexivity.
Qed.

(** X25. Where a request header comes from, when the request is built.
    A header named like a declared header parameter (other than
    [__proto__]) carries the argument of that name converted to a string,
    when there is one; without such an argument, a header parameter named
    like a property that every object inherits carries the rendering of
    that property; otherwise the header [skyfire_kya_pay_token] carries
    the pay token when that argument is truthy; every other header is as
    [getSecurityHeaders] computes it. *)
Theorem header_precedence :
  forall (c : ExecuteClosure) (args : Obj.JsObject JValue) (request : Request) (h : string),
    buildRequest pf c args = Ok request ->
    Obj.get h (rq_headers request) =
    match (if headerSlot (ex_parameters c) h then Obj.get h args else None) with
    | Some v => rendered (toString v)
    | None =>
        if headerSlot (ex_parameters c) h && Obj.isInherited h
        then Some (String_inherited pf h)
        else
          match (if String.eqb h token then Obj.get token args else None) with
          | Some v =>
              if truthy v then rendered (toString v)
              else Obj.get h (getSecurityHeaders pf (ex_this c) (ex_operation c))
          | None => Obj.get h (getSecurityHeaders pf (ex_this c) (ex_operation c))
          end
    end.
Proof.
  intros c args request h Hbuild.
  apply buildRequest_Ok in Hbuild as (headers & b & Hheaders & Hb & -> & _).
  rewrite (headers_after_parameters _ _ _ _ _ Hb). cbn [bl_headers].
  assert (Obj.get h headers =
          match (if String.eqb h token then Obj.get token args else None) with
          | Some v =>
              if truthy v then rendered (toString v)
              else Obj.get h (getSecurityHeaders pf (ex_this c) (ex_operation c))
          | None => Obj.get h (getSecurityHeaders pf (ex_this c) (ex_operation c))
          end) as ->.
  { destruct (String.eqb h token) eqn:Hh;
      (destruct (Obj.get token args) as [v|];
       [destruct (truthy v);
        [destruct (toString v) as [t|]; cbn [mbind result_bind bind] in Hheaders;
         [|discriminate] |] |]);
      injection Hheaders as <-;
      rewrite ?get_set, ?(String.eqb_sym token h), ?Hh; reflexivity. }
  unfold argumentText, Obj.hasIn, Obj.has.
  destruct (headerSlot (ex_parameters c) h); cbn [andb]; [|reflexivity].
  destruct (Obj.get h args); [reflexivity|].
  destruct (Obj.isInherited h); reflexivity.
Qed.

End WithPlatform.

Lemma security_headers_carry_only_the_key_witness :
  let pf := answering (Throw NonError) in
  getSecurityHeaders pf (new securedDocument "secret" None) orderOperation
    = [ ("Content-Type", "application/json"); ("Authorization", "Bearer secret");
        ("X-Api-Key", "secret") ] /\
  ("Bearer secret" = "secret" \/ "Bearer secret" = "Bearer secret") /\
  getSecurityHeaders pf (new securedDocument "" None) orderOperation
    = [ ("Content-Type", "application/json") ].
Proof.
  cbn zeta. split; [reflexivity|].
  destruct (security_headers_carry_only_the_key (answering (Throw NonError))
              (new securedDocument "secret" None) orderOperation) as [Hvalues _].
  destruct (security_headers_carry_only_the_key (answering (Throw NonError))
              (new securedDocument "" None) orderOperation) as [_ Hempty].
  split; [|exact (Hempty eq_refl)].
  destruct (Hvalues "Authorization" "Bearer secret" eq_refl) as [[H _]|[H|[H|H]]];
    [discriminate H | left; exact H | right; exact H | discriminate H].
Defined.

Lemma body_is_the_undeclared_arguments_witness :
  let pf := answering (Throw NonError) in
  NoDup (Obj.keys orderArgs) /\
  buildRequest pf orderClosure orderArgs = Ok orderRequest /\
  match rq_body orderRequest with
  | Some text =>
      ex_method orderClosure ∈ [ POST; PUT; PATCH ] /\
      exists bodyParams,
        bodyParams <> [] /\
        text = JSON_stringify pf (JObj bodyParams) /\
        NoDup (Obj.keys bodyParams) /\
        forall k, Obj.get k bodyParams =
                  if declared (ex_parameters orderClosure) k || String.eqb k token
                     || String.eqb k Obj.protoKey
                  then None else Obj.get k orderArgs
  | None =>
      ex_method orderClosure ∈ [ GET; DELETE ] \/
      forall k, Obj.get k orderArgs <> None ->
                declared (ex_parameters orderClosure) k || String.eqb k token
                || String.eqb k Obj.protoKey = true
  end.
Proof.
  cbn zeta.
  assert (NoDup (Obj.keys orderArgs)) as Hnd by (cbn; repeat constructor; set_solver).
  split; [exact Hnd|]. split; [reflexivity|].
  exact (body_is_the_undeclared_arguments (answering (Throw NonError)) orderClosure orderArgs
           orderRequest Hnd eq_refl).
Defined.

Lemma header_precedence_witness :
  let pf := answering (Throw NonError) in
  buildRequest pf orderClosure orderArgs = Ok orderRequest /\
  Obj.get "X-Trace" (rq_headers orderRequest) = Some "abc" /\
  Obj.get "skyfire_kya_pay_token" (rq_headers orderRequest) = Some "tok".
Proof.
  cbn zeta. split; [reflexivity|]. split.
  - rewrite (header_precedence (answering (Throw NonError)) orderClosure orderArgs
               orderRequest "X-Trace" eq_refl). reflexivity.
  - rewrite (header_precedence (answering (Throw NonError)) orderClosure orderArgs
               orderRequest "skyfire_kya_pay_token" eq_refl). reflexivity.
Defined.

(** The body of the request for the order. *)
Example order_body :
  rq_body orderRequest = Some ("{" +:+ quote +:+ "item" +:+ quote +:+ ":"
                               +:+ quote +:+ "book" +:+ quote +:+ "}").
Proof. reflexivity. Qed.

(** An argument [__proto__] stays out of the body, and a declared header
    parameter of that name sets no header. *)
Example proto_argument_is_not_sent :
  buildRequest (answering (Throw NonError)) orderClosure
    (orderArgs ++ [ ("__proto__", JObj [ ("admin", JBool true) ]) ])
  = Ok orderRequest.
Proof. reflexivity. Qed.

(** A header parameter named like an inherited property is sent although
    no such argument is given, and a dollar pattern in a path argument is
    expanded by [replace]. *)
Example inherited_header_and_expanded_path :
  buildRequest (answering (Throw NonError)) fileClosure [ ("name", JStr "a$&b") ]
  = Ok {| rq_url := "/files/a{name}b"; rq_method := "GET";
          rq_headers := [ ("Content-Type", "application/json");
                          ("constructor", "function constructor() { [native code] }") ];
          rq_body := None |}.
Proof. reflexivity. Qed.

(** An argument that cannot be converted to a string ends the call before
    any request is sent. *)
Example unconvertible_argument :
  run (answering (Ok (notFound (Throw NonError)))) orderClosure
    [ ("id", JObj [ ("toString", JNull) ]) ]
  = Ok (oneText "Error: Cannot convert object to primitive value").
Proof. reflexivity. Qed.

End ExecutorMore.

(** ** The page *)

Module AgentSandboxFacts.
Import Agent AgentSandbox AgentSandboxSpec.
Local Open Scope Z_scope.

Lemma steps_renumbered l :
  forall offset,
    map tl_step (imap (renumber offset) l)
    = map (fun i => offset + Z.of_nat i) (seq 1 (length l)).
Proof.
  induction l as [|x l IH]; intros offset; [reflexivity|].
  cbn [imap map length seq]. f_equal; [cbn; lia|].
  rewrite (imap_ext _ (renumber (offset + 1))) by (intros; unfold renumber; cbn; f_equal; lia).
  rewrite IH, <- (List.seq_shift (length l) 1), List.map_map.
  apply List.map_ext. intros i. lia.
Qed.

Lemma nonnegative_numbers offset n :
  0 <= offset ->
  List.filter (fun z => 0 <=? z) (map (fun i => offset + Z.of_nat i) (seq 1 n))
  = map (fun i => offset + Z.of_nat i) (seq 1 n).
Proof.
  intros Ho. generalize 1%nat. induction n as [|n IH]; intros a; [reflexivity|].
  cbn [seq map List.filter]. destruct (Z.leb_spec 0 (offset + Z.of_nat a)); [|lia].
  rewrite IH. reflexivity.
Qed.

Lemma last_renumbered l offset :
  match last (imap (renumber offset) l) with
  | Some s => tl_step s
  | None => offset
  end = offset + Z.of_nat (length l).
Proof.
  pose proof (steps_renumbered l offset) as H.
  assert (last (map tl_step (imap (renumber offset) l))
          = tl_step <$> last (imap (renumber offset) l)) as Hl by apply fmap_last.
  rewrite H in Hl. destruct (length l) as [|n] eqn:Hn.
  - destruct l; [cbn; lia | discriminate].
  - rewrite seq_S, map_app in Hl. cbn [map] in Hl. rewrite last_snoc in Hl.
    destruct (last (imap (renumber offset) l)) as [s|]; [|discriminate].
    cbn in Hl. injection Hl as <-. lia.
Qed.

Lemma showRun_numbers prompt parsedSteps pg :
  0 <= stepOffset pg ->
  shownNumbers (showRun prompt parsedSteps pg)
  = shownNumbers pg ++
    map (fun i => stepOffset pg + Z.of_nat i) (seq 1 (length parsedSteps)) /\
  stepOffset (showRun prompt parsedSteps pg) = stepOffset pg + Z.of_nat (length parsedSteps) /\
  promptEntries (showRun prompt parsedSteps pg) = promptEntries pg ++ [ prompt ].
Proof.
  intros Ho. unfold shownNumbers, promptEntries, showRun. cbn [timeline stepOffset].
  split; [|split].
  - rewrite map_app, List.filter_app. cbn [map List.filter tl_step].
    change (0 <=? -1) with false. cbv iota.
    rewrite steps_renumbered, nonnegative_numbers by exact Ho. reflexivity.
  - apply last_renumbered.
  - rewrite List.filter_app, map_app. cbn [List.filter tl_step].
    change (-1 =? -1) with true. cbv iota. cbn [map tl_text]. f_equal. f_equal.
    assert (forall l o, 0 <= o ->
              List.filter (fun s => tl_step s =? -1) (imap (renumber o) l) = []) as Hnone.
    { induction l as [|x l IH]; intros o Hpos; [reflexivity|].
      cbn [imap List.filter]. unfold renumber at 1. cbn [tl_step].
      destruct (Z.eqb_spec (o + Z.of_nat 0 + 1) (-1)); [lia|].
      rewrite (imap_ext _ (renumber (o + 1)))
        by (intros; unfold renumber; cbn; f_equal; lia).
      apply IH. lia. }
    rewrite Hnone by exact Ho. reflexivity.
Qed.

(** X26. The page numbers the agent steps consecutively across runs.
    Starting from the empty timeline, after the documents of any sequence
    of runs were shown, the agent steps in the timeline carry the numbers
    1, 2, ..., N in this order, where N is the number of steps of all
    documents, whatever index the formatter wrote into the steps; the
    offset kept for the next run is N, and the timeline holds one prompt
    entry (numbered -1) per run, error documents included. *)
Theorem timeline_numbers_are_consecutive :
  forall (runs : list (string * AgentDocument)),
    let pg := fold_left showDocument runs initialPage in
    shownNumbers pg = map Z.of_nat (seq 1 (totalSteps runs)) /\
    stepOffset pg = Z.of_nat (totalSteps runs) /\
    promptEntries pg = map fst runs.
Proof.
  intros runs.
  assert (forall pg0 (n0 : nat),
            stepOffset pg0 = Z.of_nat n0 ->
            let pg := fold_left showDocument runs pg0 in
            shownNumbers pg
              = shownNumbers pg0 ++ map Z.of_nat (seq (S n0) (totalSteps runs)) /\
            stepOffset pg = Z.of_nat (n0 + totalSteps runs) /\
            promptEntries pg = promptEntries pg0 ++ map fst runs) as H.
  { induction runs as [|[prompt document] runs IH]; intros pg0 n0 Hn0; cbn zeta.
    - cbn. rewrite !app_nil_r, Nat.add_0_r. auto.
    - change (fold_left showDocument ((prompt, document) :: runs) pg0)
        with (fold_left showDocument runs (showRun prompt (documentSteps document) pg0)).
      destruct (showRun_numbers prompt (documentSteps document) pg0) as (H1 & H2 & H3);
        [lia|].
      specialize (IH (showRun prompt (documentSteps document) pg0)
                     (n0 + length (documentSteps document))%nat).
      cbn zeta in IH. destruct IH as (I1 & I2 & I3); [rewrite H2, Hn0; lia|].
      unfold totalSteps in *. cbn [map sum_list sum_list_with fst snd].
      rewrite I1, I2, I3, H1, H3, Hn0, <- !app_assoc. cbn [map app]. unfold id.
      split; [|split; [f_equal; lia | reflexivity]].
      f_equal. rewrite seq_app, map_app. f_equal.
      assert (forall n b, map (fun i => Z.of_nat n0 + Z.of_nat i) (seq b n)
                          = map Z.of_nat (seq (n0 + b) n)) as Hshift.
      { induction n as [|n IHn]; intros b; [reflexivity|].
        cbn [seq map]. f_equal; [lia|].
        rewrite IHn. replace (n0 + S b)%nat with (S (n0 + b)) by lia. reflexivity. }
      rewrite Hshift. replace (n0 + 1)%nat with (S n0) by lia. reflexivity. }
  destruct (H initialPage 0%nat eq_refl) as (H1 & H2 & H3). cbn zeta in *.
  split; [exact H1|]. split; [exact H2 | exact H3].
Qed.

End AgentSandboxFacts.
